(** * OONI data pipeline: archive feeder and observation processing

    A shallow embedding of [oonidata/s3feeder.py] and
    [oonidata/processing.py], with the statements of the pipeline
    specification proved (or refuted) against it.

    Layout:
    - [Py]: the fragment of the Python run time the code relies on
      (exceptions, generators consumed to exhaustion, iterables that may
      be single-pass, [str] methods);
    - [Dates]: [datetime.date] as proleptic Gregorian ordinals;
    - [S3Feeder]: the catalog, the container reader, the disk cache and
      the streaming driver of [s3feeder.py];
    - [Processing]: the web_connectivity processor and [process_day] of
      [processing.py];
    - [Scenarios]: small concrete archives and measurements;
    - the theorems: facts about strings and generators first, then one
      block per component, each statement of the specification marked
      with its number (C1 to C10). *)

From Equations Require Import Equations.
From stdpp Require Import gmap strings list fin_maps.
From Stdlib Require Import ZArith Lia Ascii QArith Qround.

Local Open Scope Z_scope.
#[local] Set Warnings "-clear-no-such-hyp".

(* ===================================================================== *)
(** * Python run time *)
(* ===================================================================== *)

Module Py.

(** The exception classes that the modelled code can raise or catch.
    All of them derive from [Exception]. *)
Inductive exn : Set :=
| RuntimeError
| TypeError
| ValueError
| IndexError
| AssertionError
| AttributeError
| ZeroDivisionError
| FileNotFoundError
| OSError
| ClientError
| OverflowError
| ReadError.

#[global] Instance exn_eq_dec : EqDecision exn.
Proof. solve_decision. Defined.

(** The outcome of a call: a value, or a raised exception. *)
Inductive result (A : Type) : Type :=
| Ok (a : A)
| Raise (e : exn).
Arguments Ok {A} a.
Arguments Raise {A} e.

#[global] Instance result_ret : MRet result := λ A x, Ok x.
#[global] Instance result_bind : MBind result := λ A B f r,
  match r with
  | Ok a => f a
  | Raise e => Raise e
  end.

(** A generator run to exhaustion: the items it yields, in order, and
    the exception that ended it, if it did not simply return. *)
Record gen (A : Type) : Type := Gen {
  yielded : list A;
  raised : option exn
}.
Arguments Gen {A} yielded raised.
Arguments yielded {A} g.
Arguments raised {A} g.

Definition gen_done {A} : gen A := Gen [] None.
Definition gen_raise {A} (e : exn) : gen A := Gen [] (Some e).
Definition gen_yield {A} (x : A) : gen A := Gen [x] None.

(** Sequencing of two generator bodies: the second runs only when the
    first returns normally. *)
Definition gen_seq {A} (g1 g2 : gen A) : gen A :=
  match raised g1 with
  | Some e => g1
  | None => Gen (yielded g1 ++ yielded g2) (raised g2)
  end.

(** [for x in l: body(x)] inside a generator. *)
Fixpoint gen_for {A B} (l : list A) (body : A → gen B) : gen B :=
  match l with
  | [] => gen_done
  | x :: l' => gen_seq (body x) (gen_for l' body)
  end.

(** An iterable handed to a function.  [iter()] on a list gives a
    fresh cursor every time; [iter()] on a generator gives the
    generator itself, so whatever one loop consumed is gone for the
    next one. *)
Inductive iterable (A : Type) : Type :=
| PyList (l : list A)
| PyGenerator (g : gen A).
Arguments PyList {A} l.
Arguments PyGenerator {A} g.

(** Iterating an iterable to the end: what the loop sees, and the
    iterable as the next loop will find it. *)
Definition exhaust {A} (it : iterable A) : gen A * iterable A :=
  match it with
  | PyList l => (Gen l None, PyList l)
  | PyGenerator g => (g, PyGenerator gen_done)
  end.

(** ** [str] methods *)

Definition startswith (s p : string) : bool := String.prefix p s.

Definition endswith (s suffix : string) : bool :=
  String.prefix (String.rev suffix) (String.rev s).

(** [s.split(sep)] for a one-character separator: never empty. *)
Fixpoint split_go (sep : ascii) (cur : string) (s : string) : list string :=
  match s with
  | EmptyString => [String.rev cur]
  | String c s' =>
      if Ascii.eqb c sep then String.rev cur :: split_go sep EmptyString s'
      else split_go sep (String c cur) s'
  end.
Definition split (sep : ascii) (s : string) : list string :=
  split_go sep EmptyString s.

(** [s.split(sep, maxsplit)]: at most [maxsplit] cuts, from the left. *)
Fixpoint splitn_go (sep : ascii) (n : nat) (cur : string) (s : string)
  : list string :=
  match n with
  | O => [String.rev cur +:+ s]
  | S n' =>
      match s with
      | EmptyString => [String.rev cur]
      | String c s' =>
          if Ascii.eqb c sep
          then String.rev cur :: splitn_go sep n' EmptyString s'
          else splitn_go sep n (String c cur) s'
      end
  end.
Definition splitn (sep : ascii) (maxsplit : nat) (s : string) : list string :=
  splitn_go sep maxsplit EmptyString s.

(** [l[-k]] for [k >= 1]: [IndexError] when the list is too short. *)
Definition index_from_end {A} (l : list A) (k : nat) : result A :=
  match rev l !! (k - 1)%nat with
  | Some x => Ok x
  | None => Raise IndexError
  end.

(** [l[i]] for [i >= 0]. *)
Definition index {A} (l : list A) (i : nat) : result A :=
  match l !! i with
  | Some x => Ok x
  | None => Raise IndexError
  end.

(** [s[:n]] and [s[:-n]]: slices never raise. *)
Definition slice_to (n : nat) (s : string) : string :=
  String.substring 0 n s.
Definition slice_drop_last (n : nat) (s : string) : string :=
  String.substring 0 (String.length s - n) s.

(** [sep.join(l)] *)
Definition join (sep : string) (l : list string) : string :=
  String.concat sep l.

(** [s.rsplit("/", 1)]: one cut at the last separator, if any. *)
Definition rsplit1 (sep : ascii) (s : string) : list string :=
  match rev (split sep s) with
  | [] => [s]
  | [x] => [x]
  | x :: front => [join (String sep EmptyString) (rev front); x]
  end.

(** [s.replace(c, "")] for a one-character [c]. *)
Fixpoint remove_char (c : ascii) (s : string) : string :=
  match s with
  | EmptyString => EmptyString
  | String c' s' =>
      if Ascii.eqb c' c then remove_char c s' else String c' (remove_char c s')
  end.

(** [l[-2:]]: the last two items, or all of a shorter list. *)
Definition last_two {A} (l : list A) : list A := drop (length l - 2) l.

(** A generator body that passes on the items of another generator
    that satisfy a test ([for x in g: if not keep(x): continue; yield x],
    and the built-in [filter]). *)
Definition gen_filter {A} (keep : A → bool) (g : gen A) : gen A :=
  Gen (filter (λ x, keep x = true) (yielded g)) (raised g).

End Py.
Export Py (exn(..), result(..), gen(..), iterable(..), yielded, raised).

(* ===================================================================== *)
(** * Calendar dates *)
(* ===================================================================== *)

Module Dates.

(** A [datetime.date] is identified with its proleptic Gregorian
    ordinal ([date.toordinal()]: 0001-01-01 is day 1).  Comparison of
    dates is comparison of ordinals and [d + timedelta(days=1)] is
    [d + 1], as in the [datetime] module itself. *)
Definition date := Z.

Definition is_leap (y : Z) : bool :=
  (y mod 4 =? 0) && (negb (y mod 100 =? 0) || (y mod 400 =? 0)).

Definition days_before_year (y : Z) : Z :=
  let p := y - 1 in p * 365 + p / 4 - p / 100 + p / 400.

Definition days_in_month (y m : Z) : Z :=
  if m =? 2 then (if is_leap y then 29 else 28)
  else if (m =? 4) || (m =? 6) || (m =? 9) || (m =? 11) then 30
  else 31.

Fixpoint days_before_month_go (y : Z) (k : nat) : Z :=
  match k with
  | O => 0
  | S k' => days_before_month_go y k' + days_in_month y (Z.of_nat k)
  end.
Definition days_before_month (y m : Z) : Z :=
  days_before_month_go y (Z.to_nat (m - 1)).

(** [date(y, m, d)] for a valid triple. *)
Definition ymd (y m d : Z) : date :=
  days_before_year y + days_before_month y m + d.

Definition valid_ymd (y m d : Z) : bool :=
  (1 <=? y) && (y <=? 9999) && (1 <=? m) && (m <=? 12) &&
  (1 <=? d) && (d <=? days_in_month y m).

(** The calendar triple of an ordinal ([datetime._ord2ymd]; its
    [leapyear] flag is folded into [days_before_month], which already
    counts the leap day of [year]). *)
Definition ord2ymd (n0 : date) : Z * Z * Z :=
  let n := n0 - 1 in
  let n400 := n / 146097 in let n := n mod 146097 in
  let n100 := n / 36524 in let n := n mod 36524 in
  let n4 := n / 1461 in let n := n mod 1461 in
  let n1 := n / 365 in let n := n mod 365 in
  let year := n400 * 400 + 1 + n100 * 100 + n4 * 4 + n1 in
  if (n1 =? 4) || (n100 =? 4) then (year - 1, 12, 31)
  else
    let month := Z.shiftr (n + 50) 5 in
    let preceding := days_before_month year month in
    if n <? preceding
    then (year, month - 1,
          n - (preceding - days_in_month year (month - 1)) + 1)
    else (year, month, n - preceding + 1).

Definition digit (n : Z) : ascii :=
  ascii_of_nat (48 + Z.to_nat (n mod 10)).

Definition pad2 (n : Z) : string :=
  String (digit (n / 10)) (String (digit n) EmptyString).

Definition pad4 (n : Z) : string :=
  String (digit (n / 1000)) (String (digit (n / 100)) (pad2 n)).

(** [f"{d:%Y%m%d}"] and [f"{d:%Y-%m-%d}"], for years of four digits. *)
Definition strftime_Ymd (d : date) : string :=
  let '(y, m, dd) := ord2ymd d in pad4 y +:+ pad2 m +:+ pad2 dd.

Definition strftime_Y_m_d (d : date) : string :=
  let '(y, m, dd) := ord2ymd d in
  pad4 y +:+ "-" +:+ pad2 m +:+ "-" +:+ pad2 dd.

End Dates.
Export Dates (date).

(* ===================================================================== *)
(** * s3feeder.py *)
(* ===================================================================== *)

Module S3Feeder.
Import Py Dates.

Definition CAN_BUCKET_NAME : string := "ooni-data".
Definition MC_BUCKET_NAME : string := "ooni-data-eu-fra".

(** ** date_interval *)

(** The [while day < stop_day: yield day; day += timedelta(days=1)]
    loop. *)
Equations? days_loop (day stop_day : date) : list date
  by wf (Z.to_nat (stop_day - day)) lt :=
  days_loop day stop_day with decide (day < stop_day) => {
    | left _ := day :: days_loop (day + 1) stop_day;
    | right _ := [] }.
Proof. lia. Qed.

(** [date_interval(start_day, end_day)], with [date.today()] passed
    in.  A [raise StopIteration] in a generator body reaches the
    consumer as [RuntimeError] (PEP 479).  [start_day] is optional
    because the code tests [not start_day]; a date is always truthy,
    so only [None] is falsy. *)
Definition date_interval (today : date) (start_day : option date)
    (end_day : date) : gen date :=
  match start_day with
  | None => gen_raise RuntimeError
  | Some start =>
      if decide (start >= today) then gen_raise RuntimeError
      else
        let day := start in
        let stop_day := if decide (end_day < today) then end_day else today in
        Gen (days_loop day stop_day) None
  end.

(** ** FileEntry *)

Record FileEntry : Type := {
  day : date;
  country_code : string;
  test_name : string;
  filename : string;
  size : Z;
  ext : string;
  s3path : string;
  bucket_name : string
}.

#[global] Instance FileEntry_eq_dec : EqDecision FileEntry.
Proof. solve_decision. Defined.

(** A [pathlib.PurePosixPath]: whether it is anchored at the root, and
    its components.  [p / s] appends the components of [s], dropping
    empty ones and [.]; an absolute [s] replaces [p]. *)
Record Path : Type := {
  absolute : bool;
  parts : list string
}.

(** A component that [p / s] appends unchanged: not empty, not [.],
    without a slash. *)
Fixpoint mem_char (c : ascii) (s : string) : bool :=
  match s with
  | EmptyString => false
  | String c' s' => Ascii.eqb c' c || mem_char c s'
  end.

Definition plain_component (s : string) : bool :=
  negb (String.eqb s "") && negb (String.eqb s ".") && negb (mem_char "/" s).

Definition clean_parts (s : string) : list string :=
  filter (λ c, c ≠ "" ∧ c ≠ ".") (split "/" s).

Definition path_of (s : string) : Path :=
  {| absolute := startswith s "/"; parts := clean_parts s |}.

Definition path_div (p : Path) (s : string) : Path :=
  if startswith s "/" then path_of s
  else {| absolute := absolute p; parts := parts p ++ clean_parts s |}.

Definition as_posix (p : Path) : string :=
  match absolute p, parts p with
  | false, [] => "."
  | false, ps => join "/" ps
  | true, ps => "/" +:+ join "/" ps
  end.

Definition parent (p : Path) : Path :=
  {| absolute := absolute p; parts := removelast (parts p) |}.

(** [p.with_suffix(suffix)]: the text from the last dot of the final
    component is replaced, when that dot is neither its first nor its
    last character; otherwise the suffix is appended. *)
Definition with_suffix (p : Path) (suffix : string) : result Path :=
  match rev (parts p) with
  | [] => Raise ValueError
  | name :: _ =>
      let stem :=
        match rev (split "." name) with
        | last :: (_ :: _) as front =>
            let before := join "." (rev front) in
            if negb (String.eqb last "") && negb (String.eqb before "")
            then before else name
        | _ => name
        end in
      Ok {| absolute := absolute p;
            parts := removelast (parts p) ++ [stem +:+ suffix] |}
  end.

Definition output_path (self : FileEntry) (dst_dir : Path) : Path :=
  path_div
    (path_div
       (path_div (path_div dst_dir (test_name self)) (country_code self))
       (strftime_Y_m_d (day self)))
    (filename self).

(** Truthiness of a [str]: the empty string is falsy. *)
Definition truthy (s : string) : bool := negb (String.eqb s "").

Definition matches_filter (self : FileEntry) (ccs testnames : gset string)
  : bool :=
  if truthy (country_code self) && negb (bool_decide (ccs = ∅))
     && negb (bool_decide (country_code self ∈ ccs))
  then false
  else if truthy (test_name self) && negb (bool_decide (testnames = ∅))
          && negb (bool_decide (test_name self ∈ testnames))
  then false
  else true.

(** ** The object store *)

(** JSON documents, as [ujson.loads] returns them. *)
#[local] Unset Elimination Schemes.
Inductive Json : Type :=
| JNull
| JBool (b : bool)
| JNum (n : Z)
| JStr (s : string)
| JList (l : list Json)
| JDict (items : list (string * Json)).
#[local] Set Elimination Schemes.

(** A tar member: its name and, for a regular file, its lines
    ([extractfile] returns [None] for anything else). *)
Record TarMember : Type := {
  name : string;
  payload : option (list string)
}.

(** What the decompressor delivers for a stored object.  The lz4 and
    gzip layers belong to external libraries; an object that the
    decoder of its extension cannot open is [Undecodable]. *)
Inductive Content : Type :=
| TextLines (lines : list string)
| TarArchive (members : list TarMember)
| Undecodable.

Record S3Object : Type := {
  Key : string;
  Size : Z;
  Body : Content
}.

(** The object store: (bucket name, object) pairs. *)
Abbreviation S3 := (list (string * S3Object)).

(** [paginate(Bucket=b, Prefix=p)], all pages' [Contents] flattened. *)
Definition list_objects (s3 : S3) (bucket prefix : string) : list S3Object :=
  snd <$> filter (λ bo, bool_decide (bo.1 = bucket)
                        && startswith (Key bo.2) prefix) s3.

Definition list_objects_exact (s3 : S3) (bucket key : string)
  : list S3Object :=
  snd <$> filter (λ bo, bool_decide (bo.1 = bucket)
                        && bool_decide (Key bo.2 = key)) s3.

(** The [CommonPrefixes] of [paginate(Bucket=b, Prefix=p, Delimiter="/")]:
    for each key under [p] with a slash after [p], the key up to and
    including that slash; each prefix once. *)
Definition common_prefix_of (prefix key : string) : option string :=
  let rest := String.substring (String.length prefix)
                (String.length key - String.length prefix) key in
  match split "/" rest with
  | seg :: _ :: _ => Some (prefix +:+ seg +:+ "/")
  | _ => None
  end.

Definition common_prefixes (s3 : S3) (bucket prefix : string) : list string :=
  remove_dups
    (omap (λ o, common_prefix_of prefix (Key o)) (list_objects s3 bucket prefix)).

Definition get_object (s3 : S3) (bucket key : string) : option S3Object :=
  head (list_objects_exact s3 bucket key).

(** ** datetime.strptime(s, "%Y%m%d") *)

Definition digit_val (c : ascii) : option Z :=
  let n := Z.of_nat (nat_of_ascii c) in
  if (48 <=? n) && (n <=? 57) then Some (n - 48) else None.

(** The three directives are the regular expressions
    [\d\d\d\d], [1[0-2]|0[1-9]|[1-9]] and
    [3[01]|[12]\d|0[1-9]|[1-9]| [1-9]]; each function lists the ways its
    directive matches a prefix, alternatives in order, with the text
    left over. *)
Definition match_Y (s : string) : list (Z * string) :=
  match s with
  | String a (String b (String c (String d rest))) =>
      match digit_val a, digit_val b, digit_val c, digit_val d with
      | Some a, Some b, Some c, Some d =>
          [(a * 1000 + b * 100 + c * 10 + d, rest)]
      | _, _, _, _ => []
      end
  | _ => []
  end.

Definition two_digits (lo1 hi1 lo2 hi2 : Z) (s : string) : list (Z * string) :=
  match s with
  | String a (String b rest) =>
      match digit_val a, digit_val b with
      | Some a, Some b =>
          if (lo1 <=? a) && (a <=? hi1) && (lo2 <=? b) && (b <=? hi2)
          then [(a * 10 + b, rest)] else []
      | _, _ => []
      end
  | _ => []
  end.

Definition one_digit (s : string) : list (Z * string) :=
  match s with
  | String a rest =>
      match digit_val a with
      | Some a => if 1 <=? a then [(a, rest)] else []
      | None => []
      end
  | _ => []
  end.

Definition match_m (s : string) : list (Z * string) :=
  two_digits 1 1 0 2 s ++ two_digits 0 0 1 9 s ++ one_digit s.

Definition match_d (s : string) : list (Z * string) :=
  two_digits 3 3 0 1 s ++ two_digits 1 2 0 9 s ++ two_digits 0 0 1 9 s
  ++ one_digit s
  ++ match s with
     | String " " rest => one_digit rest
     | _ => []
     end.

(** The first match in backtracking order decides; text left after it
    is "unconverted data", and the triple must be a calendar date. *)
Definition strptime_Ymd (s : string) : result date :=
  let matches :=
    '(y, r1) ← match_Y s; '(m, r2) ← match_m r1; '(d, r3) ← match_d r2;
    [(y, m, d, r3)] in
  match matches with
  | [] => Raise ValueError
  | (y, m, d, rest) :: _ =>
      if negb (String.eqb rest "") then Raise ValueError
      else if valid_ymd y m d then Ok (ymd y m d)
      else Raise ValueError
  end.

(** ** The catalog *)

(** One object of a listing turned into a [FileEntry]. *)
Definition file_entry_of_object (f : S3Object) : result FileEntry :=
  let s3path := Key f in
  match index_from_end (split "/" s3path) 1 with
  | Raise e => Raise e
  | Ok filename =>
      let parts := split "_" filename in
      match index parts 2 with
      | Raise e => Raise e
      | Ok p2 =>
          match splitn "." 3 p2 with
          | [test_name; _; _; ext] =>
              match index parts 0 with
              | Raise e => Raise e
              | Ok p0 =>
                  match strptime_Ymd (slice_to 8 p0) with
                  | Raise e => Raise e
                  | Ok day =>
                      match index parts 1 with
                      | Raise e => Raise e
                      | Ok p1 =>
                          Ok {| day := day;
                                country_code := p1;
                                test_name := test_name;
                                filename := filename;
                                s3path := s3path;
                                size := Size f;
                                ext := ext;
                                bucket_name := MC_BUCKET_NAME |}
                      end
                  end
              end
          | _ => Raise ValueError
          end
      end
  end.

(** [iter_file_entries(prefix)]: entries are yielded until a key fails
    to parse. *)
Definition iter_file_entries (s3 : S3) (prefix : string) : gen FileEntry :=
  gen_for (list_objects s3 MC_BUCKET_NAME prefix)
    (λ f, match file_entry_of_object f with
          | Ok fe => gen_yield fe
          | Raise e => gen_raise e
          end).

(** A list built from a generator: the exception, if any, wins. *)
Definition list_of_gen {A} (g : gen A) : result (list A) :=
  match raised g with
  | Some e => Raise e
  | None => Ok (yielded g)
  end.

Definition list_file_entries (s3 : S3) (prefix : string)
  : result (list FileEntry) :=
  list_of_gen (iter_file_entries s3 prefix).

(** ** Prefix selection *)

Definition list_all_testnames (s3 : S3) : result (gset string) :=
  foldl (λ acc prefix,
           testnames ← acc;
           tn ← index_from_end (split "/" prefix) 2;
           mret ({[tn]} ∪ testnames))
        (Ok ∅) (common_prefixes s3 MC_BUCKET_NAME "jsonl/").

Definition get_search_prefixes (s3 : S3) (testnames ccs : gset string)
  : result (list string) :=
  foldl (λ acc tn,
    foldl (λ acc prefix,
             prefixes ← acc;
             cc ← index_from_end (split "/" prefix) 2;
             if negb (bool_decide (ccs = ∅)) && negb (bool_decide (cc ∈ ccs))
             then mret prefixes
             else mret (prefixes ++ [prefix]))
          acc
          (common_prefixes s3 MC_BUCKET_NAME ("jsonl/" +:+ tn +:+ "/")))
    (Ok []) (elements testnames).

Definition date_2020_10_20 : date := Eval vm_compute in ymd 2020 10 20.
Definition date_2020_10_21 : date := Eval vm_compute in ymd 2020 10 21.

(** [itertools.product(xs, ys)] *)
Definition product {A B} (xs : list A) (ys : list B) : list (A * B) :=
  x ← xs; y ← ys; [(x, y)].

Definition get_jsonl_prefixes (s3 : S3) (today : date)
    (ccs testnames : gset string) (start_day end_day : date)
  : result (list string) :=
  days ← list_of_gen
           (date_interval today (Some (Z.max date_2020_10_20 start_day)) end_day);
  let legacy_prefixes := (λ d, "raw/" +:+ strftime_Ymd d) <$> days in
  testnames ← (if bool_decide (testnames = ∅) then list_all_testnames s3
               else mret testnames);
  prefixes ←
    (if decide (start_day < date_2020_10_21) then
       prefixes ← get_search_prefixes s3 testnames ccs;
       days ← list_of_gen (date_interval today (Some start_day) end_day);
       let combos := product prefixes days in
       if decide (Z.of_nat (length combos) > 1000000)
       then mret ((λ pd, pd.1 +:+ strftime_Ymd pd.2) <$> combos)
       else mret prefixes
     else mret []);
  mret (prefixes ++ legacy_prefixes).

(** ** jsonl_in_range *)

(** The checks applied to each listed entry. *)
Definition in_range_keep (ccs testnames : gset string)
    (start_day end_day : date) (file_entry : FileEntry) : bool :=
  if negb (String.eqb (ext file_entry) "jsonl.gz") then false
  else if negb (matches_filter file_entry ccs testnames) then false
  else if bool_decide (day file_entry < start_day)
          || bool_decide (day file_entry >= end_day) then false
  else bool_decide (size file_entry > 0).

(** The filter predicate of the specification (§4.1, §8): country in
    countries, test name in test names, day in [start_day, end_day);
    an empty set means "all". *)
Definition satisfies_filter (ccs testnames : gset string)
    (start_day end_day : date) (fe : FileEntry) : Prop :=
  (ccs = ∅ ∨ country_code fe ∈ ccs)
  ∧ (testnames = ∅ ∨ test_name fe ∈ testnames)
  ∧ start_day ≤ day fe < end_day.

(** The keys under which the bucket layout (§6) keeps the files of a
    day of the range that lies before today, as far as the query asks
    for them: [raw/<YYYYMMDD>...] from 2020-10-20 on, and
    [jsonl/<test_name>/<cc>/<YYYYMMDD>...] for a requested test name and
    country when the range starts before 2020-10-21. *)
Definition stored_for_query (today : date) (ccs testnames : gset string)
    (start_day end_day : date) (key : string) : Prop :=
  ∃ d rest,
    start_day ≤ d < Z.min end_day today
    ∧ ((key = "raw/" +:+ strftime_Ymd d +:+ rest ∧ date_2020_10_20 ≤ d)
       ∨ ∃ tn cc,
           key = "jsonl/" +:+ tn +:+ "/" +:+ cc +:+ "/" +:+ strftime_Ymd d +:+ rest
           ∧ start_day < date_2020_10_21
           ∧ mem_char "/" tn = false ∧ mem_char "/" cc = false
           ∧ (testnames = ∅ ∨ tn ∈ testnames) ∧ (ccs = ∅ ∨ cc ∈ ccs)).

(** [pool.imap_unordered] hands the listings back in completion order:
    [arrival] is that order, some rearrangement of the prefixes. *)
Definition jsonl_in_range (arrival : list string → list string)
    (s3 : S3) (today : date) (ccs testnames : gset string)
    (start_day end_day : date) : gen FileEntry :=
  match get_jsonl_prefixes s3 today ccs testnames start_day end_day with
  | Raise e => gen_raise e
  | Ok prefixes =>
      gen_for (arrival prefixes) (λ prefix,
        match list_file_entries s3 prefix with
        | Raise e => gen_raise e
        | Ok fe_list =>
            gen_for fe_list (λ file_entry,
              if in_range_keep ccs testnames start_day end_day file_entry
              then gen_yield file_entry else gen_done)
        end)
  end.

(** ** The container reader *)

(** (msmt bytes, msmt dict, uid); this reader never fills the bytes. *)
Record MsmtTup : Type := {
  msmt_bytes : option string;
  msm : Json;
  msmt_uid : string
}.

(** The collaborators that live outside [s3feeder.py]: the JSON
    decoder ([None] when [ujson.loads] raises), the record hash of
    [utils.trivial_id], the legacy YAML normaliser, and the clock:
    [time_time n] is what [time.time()] returns once the world has
    seen [n] events. *)
Class Collaborators : Type := {
  ujson_loads : string → option Json;
  trivial_id : Json → string;
  iter_yaml_msmt_normalized : list string → string → string → gen Json;
  time_time : nat → Q
}.

(** [j.get(key, default)]: only a dict has the method. *)
Fixpoint assoc (key : string) (items : list (string * Json)) : option Json :=
  match items with
  | [] => None
  | (k, v) :: items' => if String.eqb k key then Some v else assoc key items'
  end.

Definition dict_get (j : Json) (key : string) (dflt : Json) : result Json :=
  match j with
  | JDict items => Ok (default dflt (assoc key items))
  | _ => Raise AttributeError
  end.

Definition is_str (j : Json) (s : string) : bool :=
  match j with
  | JStr s' => String.eqb s' s
  | _ => false
  end.

Record DiskFile : Type := {
  st_size : Z;
  st_mtime : Z;
  data : Content
}.

Abbreviation Disk := (gmap string DiskFile).

Section Reader.
Context `{Collaborators}.

(** [for line in f: msm = ujson.loads(line); yield (None, msm,
    trivial_id(msm))]: a line that does not parse ends the loop
    with the decoder's exception. *)
Definition json_lines (lines : list string) : gen MsmtTup :=
  gen_for lines (λ line,
    match ujson_loads line with
    | None => gen_raise ValueError
    | Some msm =>
        let msmt_uid := trivial_id msm in
        gen_yield {| msmt_bytes := None; msm := msm; msmt_uid := msmt_uid |}
    end).

(** The record that a parsed line of a legacy or jsonl file becomes. *)
Definition record_of (msm : Json) : MsmtTup :=
  {| msmt_bytes := None; msm := msm; msmt_uid := trivial_id msm |}.

(** The YAML paths: the two path components are taken before the
    stream is first read. *)
Definition yaml_records (fn : string) (stream : result (list string))
  : gen MsmtTup :=
  match index_from_end (split "/" fn) 2 with
  | Raise e => gen_raise e
  | Ok bucket_tstamp =>
      match index_from_end (split "/" fn) 1 with
      | Raise e => gen_raise e
      | Ok base =>
          let rfn := bucket_tstamp +:+ "/" +:+ base in
          match stream with
          | Raise e => gen_raise e
          | Ok stream =>
              let g := iter_yaml_msmt_normalized stream bucket_tstamp rfn in
              Gen ((λ msm, {| msmt_bytes := None; msm := msm;
                              msmt_uid := trivial_id msm |}) <$> yielded g)
                  (raised g)
          end
      end
  end.

(** One member of a legacy [.tar.lz4] can. *)
Definition legacy_tar_member (fn : string) (m : TarMember) : gen MsmtTup :=
  match payload m with
  | None => gen_raise AssertionError
  | Some k =>
      if endswith (name m) ".json" then json_lines k
      else if endswith (name m) ".yaml" then yaml_records fn (Ok k)
      else gen_done
  end.

(** One member of a [.tar.gz] minican.  The handler of a failed
    decode evaluates [k[:100]] on the member's file object, which
    has no subscript: the handler itself raises [TypeError]. *)
Definition minican_member (m : TarMember) : gen MsmtTup :=
  match payload m with
  | None => gen_raise AssertionError
  | Some k =>
      if negb (endswith (name m) ".post") then gen_done
      else
        match ujson_loads (join "" k) with
        | None => gen_raise TypeError
        | Some j =>
            match dict_get j "format" (JStr "") with
            | Raise e => gen_raise e
            | Ok fmt =>
                if is_str fmt "json" then
                  match dict_get j "content" (JDict []) with
                  | Raise e => gen_raise e
                  | Ok msm =>
                      match index (rsplit1 "/" (name m)) 1 with
                      | Raise e => gen_raise e
                      | Ok msmt_uid =>
                          let msmt_uid := slice_drop_last 5 msmt_uid in
                          gen_yield {| msmt_bytes := None; msm := msm;
                                       msmt_uid := msmt_uid |}
                      end
                  end
                else if is_str fmt "yaml" then gen_done
                else gen_done
            end
        end
  end.

(** The members that the minican reader handles without raising, with
    what each of them yields: a member that is not a [.post] file, an
    envelope of another format than [json], and a [json] envelope stored
    as [<dir>/<uid>.post]. *)
Inductive member_yields : TarMember → list MsmtTup → Prop :=
| yields_not_post (m : TarMember) (k : list string) :
    payload m = Some k → endswith (name m) ".post" = false →
    member_yields m []
| yields_other_format (m : TarMember) (k : list string)
    (items : list (string * Json)) :
    payload m = Some k → endswith (name m) ".post" = true →
    ujson_loads (join "" k) = Some (JDict items) →
    is_str (default (JStr "") (assoc "format" items)) "json" = false →
    member_yields m []
| yields_json (m : TarMember) (k : list string)
    (items : list (string * Json)) (dir uid : string) :
    payload m = Some k →
    name m = dir +:+ "/" +:+ uid +:+ ".post" →
    mem_char "/" uid = false →
    ujson_loads (join "" k) = Some (JDict items) →
    assoc "format" items = Some (JStr "json") →
    member_yields m
      [{| msmt_bytes := None;
          msm := default (JDict []) (assoc "content" items);
          msmt_uid := uid |}].

(** The lines of a compressed text.  Bytes that the decompressor
    rejects raise its error ([RuntimeError] from [lz4.frame],
    [OSError] from [gzip]); the bytes of a tar archive are no JSON
    text, and the decoder of the first line raises. *)
Definition read_lines (decoder_error : exn) (c : Content)
  : result (list string) :=
  match c with
  | TextLines lines => Ok lines
  | TarArchive _ => Raise ValueError
  | Undecodable => Raise decoder_error
  end.

(** The members of a tar archive; [tarfile] raises [ReadError] on
    what is no archive. *)
Definition read_tar (decoder_error : exn) (c : Content)
  : result (list TarMember) :=
  match c with
  | TarArchive members => Ok members
  | TextLines _ => Raise ReadError
  | Undecodable => Raise decoder_error
  end.

Definition open_file (disk : Disk) (fn : string) : result Content :=
  match disk !! fn with
  | None => Raise FileNotFoundError
  | Some f => Ok (data f)
  end.

Definition load_multiple (disk : Disk) (fn : string) : gen MsmtTup :=
  if endswith fn ".tar.lz4" then
    match open_file disk fn ≫= read_tar RuntimeError with
    | Raise e => gen_raise e
    | Ok members => gen_for members (legacy_tar_member fn)
    end
  else if endswith fn ".json.lz4" then
    match open_file disk fn ≫= read_lines RuntimeError with
    | Raise e => gen_raise e
    | Ok lines => json_lines lines
    end
  else if endswith fn ".jsonl.gz" then
    match open_file disk fn ≫= read_lines OSError with
    | Raise e => gen_raise e
    | Ok lines => json_lines lines
    end
  else if endswith fn ".yaml.lz4" then
    match open_file disk fn with
    | Raise e => gen_raise e
    | Ok f => yaml_records fn (read_lines RuntimeError f)
    end
  else if endswith fn ".tar.gz" then
    match open_file disk fn ≫= read_tar ReadError with
    | Raise e => gen_raise e
    | Ok members => gen_for members minican_member
    end
  else if endswith fn "/index.json.gz" then gen_done
  else gen_raise RuntimeError.

End Reader.

(** ** The disk cache *)

(** What the downloader and the driver do to the outside world, in
    the order they do it. *)
Inductive Event : Type :=
| MetricIncr (metric : string)
| Touch (path : string)
| Mkdir (path : string)
| OpenWrite (path : string)
| DownloadFileobj (bucket key dst : string)
| Fsync (path : string)
| Rename (src dst : string)
| Unlink (path : string)
| LogError (e : exn).

#[global] Instance Event_eq_dec : EqDecision Event.
Proof. solve_decision. Defined.

Record World : Type := {
  disk : Disk;
  s3 : S3;
  now : Z;
  trace : list Event
}.

Definition emit (ev : Event) (w : World) : World :=
  {| disk := disk w; s3 := s3 w; now := now w; trace := trace w ++ [ev] |}.

Definition set_disk (d : Disk) (w : World) : World :=
  {| disk := d; s3 := s3 w; now := now w; trace := trace w |}.

Definition is_download (ev : Event) : bool :=
  match ev with
  | DownloadFileobj _ _ _ => true
  | _ => false
  end.

(** The number of [s3.download_fileobj] calls made so far. *)
Definition downloads (w : World) : nat :=
  length (filter (λ ev, is_download ev = true) (trace w)).

Definition is_cache_lookup (ev : Event) : bool :=
  match ev with
  | MetricIncr _ => true
  | _ => false
  end.

(** The number of cache lookups made so far: each one counts a
    [cache_hit] or a [cache_miss]. *)
Definition lookups (w : World) : nat :=
  length (filter (λ ev, is_cache_lookup ev = true) (trace w)).

Definition touch (path : string) (w : World) : World :=
  emit (Touch path)
    (set_disk (alter (λ f, {| st_size := st_size f; st_mtime := now w;
                              data := data f |}) path (disk w)) w).

Definition download_measurement_container (s3cachedir : Path)
    (file_entry : FileEntry) (w : World) : World * result Path :=
  let diskf := output_path file_entry s3cachedir in
  let hit :=
    match disk w !! as_posix diskf with
    | Some f => bool_decide (size file_entry = st_size f)
    | None => false
    end in
  if hit then
    let w := emit (MetricIncr "cache_hit") w in
    let w := touch (as_posix diskf) w in
    (w, Ok diskf)
  else
    let w := emit (MetricIncr "cache_miss") w in
    let w := emit (Mkdir (as_posix (parent diskf))) w in
    match with_suffix diskf ".s3tmp" with
    | Raise e => (w, Raise e)
    | Ok tmpf =>
        let tmp := as_posix tmpf in
        (* with tmpf.open("wb") as f: *)
        let w := emit (OpenWrite tmp)
                   (set_disk (<[tmp := {| st_size := 0; st_mtime := now w;
                                          data := TextLines [] |}]> (disk w)) w) in
        let w := emit (DownloadFileobj (bucket_name file_entry)
                         (s3path file_entry) tmp) w in
        match get_object (s3 w) (bucket_name file_entry) (s3path file_entry) with
        | None => (w, Raise ClientError)
        | Some o =>
            let f := {| st_size := Size o; st_mtime := now w; data := Body o |} in
            let w := set_disk (<[tmp := f]> (disk w)) w in
            let w := emit (Fsync tmp) w in
            (* tmpf.rename(diskf) *)
            let w := emit (Rename tmp (as_posix diskf))
                       (set_disk (<[as_posix diskf := f]> (delete tmp (disk w))) w) in
            match disk w !! as_posix diskf with
            | Some f' =>
                if bool_decide (size file_entry = st_size f')
                then (w, Ok diskf)
                else (w, Raise AssertionError)
            | None => (w, Raise FileNotFoundError)
            end
        end
    end.

(** ** The streaming driver *)

Definition unlink (path : string) (w : World) : World :=
  emit (Unlink path) (set_disk (delete path (disk w)) w).

Definition sum_sizes (fes : list FileEntry) : Z :=
  foldr (λ fe acc, size fe + acc) 0 fes.

(** ** The speed and ETA figures *)

(** Python's division on floats: [ZeroDivisionError] on a zero
    divisor.  Floats are taken as exact rationals: rounding, underflow
    and integers beyond the float range are not represented. *)
Definition float_div (a b : Q) : result Q :=
  if Qeq_bool b 0 then Raise ZeroDivisionError else Ok (a / b)%Q.

(** Rounding to the nearest integer, a tie going to the even one. *)
Definition round_half_even (x : Q) : Z :=
  let below := Qfloor x in
  match Qcompare (x - inject_Z below) (1 # 2) with
  | Lt => below
  | Gt => below + 1
  | Eq => if Z.even below then below else below + 1
  end.

(** [timedelta(seconds=s)], as its number of microseconds: the seconds
    are rounded to whole microseconds, half to even, and normalised
    into days, seconds and microseconds; [OverflowError] when the
    number of days is outside -999999999 .. 999999999. *)
Definition timedelta_seconds (s : Q) : result Z :=
  let microseconds := round_half_even (s * 1000000) in
  let days := microseconds `div` 86400000000 in
  if decide (Z.abs days > 999999999) then Raise OverflowError
  else Ok microseconds.

(** [mbps = processed_size / (time.time() - t0) / 1_000_000] and
    [eta = timedelta(seconds=(total_size - processed_size) /
    (mbps * 1_000_000))], with [now] the reading of the clock. *)
Definition eta (t0 now : Q) (total_size processed_size : Z) : result Z :=
  per_second ← float_div (inject_Z processed_size) (now - t0);
  mbps ← float_div per_second 1000000;
  seconds ← float_div (inject_Z (total_size - processed_size))
              (mbps * 1000000);
  timedelta_seconds seconds.

Section Driver.
Context `{Collaborators}.

(** The body of [for fe in file_entries], entry after entry.  The
    speed and ETA figures only reach the log, but computing them can
    raise: a clock that has not moved since [t0] or a
    [processed_size] of 0 gives [ZeroDivisionError], an estimate
    beyond the range of [timedelta] gives [OverflowError]. *)
Fixpoint stream_loop (s3cachedir : Path) (keep_s3_cache : bool)
    (t0 : Q) (total_size : Z)
    (fes : list FileEntry) (processed_size : Z) (w : World)
  : World * gen MsmtTup :=
  match fes with
  | [] => (w, gen_done)
  | fe :: rest =>
      let '(w, r) := download_measurement_container s3cachedir fe w in
      match r with
      | Raise e => (w, gen_raise e)
      | Ok mc =>
          let g := load_multiple (disk w) (as_posix mc) in
          let w := match raised g with
                   | Some e => emit (LogError e) w
                   | None => w
                   end in
          let processed_size := processed_size + size fe in
          match eta t0 (time_time (length (trace w))) total_size
                  processed_size with
          | Raise e => (w, Gen (yielded g) (Some e))
          | Ok _ =>
              let w := if keep_s3_cache then w else unlink (as_posix mc) w in
              let '(w, g') := stream_loop s3cachedir keep_s3_cache t0
                                total_size rest processed_size w in
              (w, Gen (yielded g ++ yielded g') (raised g'))
          end
      end
  end.

(** [stream_measurements]: the clock is read, then
    [sum(map(..., file_entries))] walks the iterable once, and the
    [for] loop walks it again. *)
Definition stream_measurements (file_entries : iterable FileEntry)
    (s3cachedir : Path) (keep_s3_cache : bool) (w : World)
  : World * gen MsmtTup :=
  let t0 := time_time (length (trace w)) in
  let '(first_pass, file_entries) := exhaust file_entries in
  match raised first_pass with
  | Some e => (w, gen_raise e)
  | None =>
      let total_size := sum_sizes (yielded first_pass) in
      let processed_size := 0 in
      let '(second_pass, _) := exhaust file_entries in
      let '(w, g) := stream_loop s3cachedir keep_s3_cache t0 total_size
                       (yielded second_pass) processed_size w in
      match raised g, raised second_pass with
      | None, Some e => (w, Gen (yielded g) (Some e))
      | _, _ => (w, g)
      end
  end.

Record Conf : Type := {
  ccs : gset string;
  testnames : gset string;
  s3cachedir : Path;
  keep_s3_cache : bool
}.

Definition stream_jsonl (arrival : list string → list string)
    (today : date) (conf : Conf) (start_day end_day : date) (w : World)
  : World * gen MsmtTup :=
  stream_measurements
    (PyGenerator (jsonl_in_range arrival (s3 w) today (ccs conf)
                    (testnames conf) start_day end_day))
    (s3cachedir conf) (keep_s3_cache conf) w.

End Driver.

(** ** Legacy cans and minicans of one day *)

(** One object of the [canned/<day>/] listing: the entry it becomes,
    or [None] when the loop moves on without yielding ([index.json.gz]
    and unexpected names). *)
Definition can_entry_of_object (day : date) (f : S3Object)
  : result (option FileEntry) :=
  let s3path := Key f in
  filename ← index_from_end (split "/" s3path) 1;
  if endswith filename ".tar.lz4" then
    first ← index (split "." filename) 0;
    let test_name := remove_char "_" first in
    mret (Some {| day := day; country_code := "XX"; test_name := test_name;
                  filename := filename; size := Size f; ext := "tar.lz4";
                  s3path := s3path; bucket_name := CAN_BUCKET_NAME |})
  else if endswith filename ".json.lz4" || endswith filename ".yaml.lz4" then
    let parts := split "-" filename in
    country_code ← index parts 1;
    fourth ← index parts 3;
    let test_name := remove_char "_" fourth in
    let ext := join "." (last_two (split "." filename)) in
    mret (Some {| day := day; country_code := country_code;
                  test_name := test_name; filename := filename;
                  size := Size f; ext := ext; s3path := s3path;
                  bucket_name := CAN_BUCKET_NAME |})
  else mret None.

(** [iter_cans_on_s3_for_a_day(day)]; [f"canned/{day}/"] formats the
    day as YYYY-MM-DD. *)
Definition iter_cans_on_s3_for_a_day (s3 : S3) (day : date) : gen FileEntry :=
  gen_for (list_objects s3 CAN_BUCKET_NAME
             ("canned/" +:+ strftime_Y_m_d day +:+ "/"))
    (λ f, match can_entry_of_object day f with
          | Ok (Some file_entry) => gen_yield file_entry
          | Ok None => gen_done
          | Raise e => gen_raise e
          end).

Definition list_cans_on_s3_for_a_day (s3 : S3) (day : date)
  : result (list (string * Z)) :=
  match list_of_gen (iter_cans_on_s3_for_a_day s3 day) with
  | Raise e => Raise e
  | Ok entries => Ok ((λ fe, (s3path fe, size fe)) <$> entries)
  end.

Definition iter_minicans_on_s3_for_a_day (s3 : S3) (day : date)
  : gen FileEntry :=
  let tstamp := strftime_Ymd day in
  let prefix := "raw/" +:+ tstamp +:+ "/" in
  gen_filter (λ file_entry, String.eqb (ext file_entry) "tar.gz")
    (iter_file_entries s3 prefix).

Definition list_minicans_on_s3_for_a_day (s3 : S3) (day : date)
    (ccs testnames : gset string) : result (list (string * Z)) :=
  match list_of_gen
          (gen_filter (λ fe, matches_filter fe ccs testnames)
             (iter_minicans_on_s3_for_a_day s3 day)) with
  | Raise e => Raise e
  | Ok entries => Ok ((λ fe, (s3path fe, size fe)) <$> entries)
  end.

Section CansDriver.
Context `{Collaborators}.

(** The body of [for day in date_interval(...)] in [stream_cans], day
    after day.  [itertools.chain] makes one single-pass iterator of the
    two listings. *)
Fixpoint stream_cans_loop (conf : Conf) (days : list date) (w : World)
  : World * gen MsmtTup :=
  match days with
  | [] => (w, gen_done)
  | day :: rest =>
      let can_file_entries :=
        PyGenerator (gen_seq (iter_cans_on_s3_for_a_day (s3 w) day)
                             (iter_minicans_on_s3_for_a_day (s3 w) day)) in
      let '(w, g) := stream_measurements can_file_entries
                       (s3cachedir conf) (keep_s3_cache conf) w in
      match raised g with
      | Some e => (w, g)
      | None =>
          let '(w, g') := stream_cans_loop conf rest w in
          (w, Gen (yielded g ++ yielded g') (raised g'))
      end
  end.

Definition stream_cans (today : date) (conf : Conf)
    (start_day : option date) (end_day : date) (w : World)
  : World * gen MsmtTup :=
  let days := date_interval today start_day end_day in
  let '(w, g) := stream_cans_loop conf (yielded days) w in
  match raised g, raised days with
  | None, Some e => (w, Gen (yielded g) (Some e))
  | _, _ => (w, g)
  end.

End CansDriver.

End S3Feeder.

(* ===================================================================== *)
(** * processing.py *)
(* ===================================================================== *)

Module Processing.
Import Py.

(** ** Measurements and observations

    [oonidata.dataformat] and [oonidata.observations] are not among
    the sources.  The records below carry the attributes that
    [processing.py] reads or writes, under the names it uses, plus the
    sub-event attributes the specification names for each category
    (§3, §4.3). *)

Record HTTPTransaction : Type := { url : string }.

Record DNSQuery : Type := {
  hostname : string;
  answers : list string;
  failure : option string
}.

Record TCPConnect : Type := {
  ip : string;
  port : Z;
  success : bool
}.

Record TLSHandshake : Type := {
  peer_ip : string;
  cert_valid : option bool
}.

Record NetworkEvent : Type := {
  event_time : Z;
  num_bytes : Z
}.

Record TestKeys : Type := {
  requests : list HTTPTransaction;
  queries : list DNSQuery;
  tcp_connect : list TCPConnect;
  tls_handshakes : list TLSHandshake;
  network_events : list NetworkEvent
}.

Record BaseMeasurement : Type := {
  test_name : string;
  test_keys : TestKeys
}.

Record HTTPObservation : Type := { request_url : string }.

(** A DNS observation: [answer] is [None] on a failure row. *)
Record DNSObservation : Type := {
  domain_name : string;
  answer : option string;
  dns_failure : option string;
  is_tls_consistent : option bool
}.

Record TCPObservation : Type := {
  tcp_domain_name : option string;
  tcp_ip : string;
  tcp_port : Z;
  tcp_success : bool
}.

(** A TLS observation; [processing.py] reads the domain as
    [obs.domain]. *)
Record TLSObservation : Type := {
  domain : option string;
  tls_ip : string;
  is_certificate_valid : option bool
}.

(** A row handed to [db.write_row]: the observation's attributes,
    tagged with the table ([db_table]) of its class. *)
Inductive Row : Type :=
| HTTPRow (obs : HTTPObservation)
| TCPRow (obs : TCPObservation)
| TLSRow (obs : TLSObservation)
| DNSRow (obs : DNSObservation).

Inductive Table : Set := obs_http | obs_tcp | obs_tls | obs_dns.

Definition db_table (r : Row) : Table :=
  match r with
  | HTTPRow _ => obs_http
  | TCPRow _ => obs_tcp
  | TLSRow _ => obs_tls
  | DNSRow _ => obs_dns
  end.

(** Two orders of the categories: the one of the specification (§4.3
    step 5: DNS, TCP, TLS, HTTP) and the one in which the processor
    makes its [write_observations_to_db] calls. *)
Definition spec_category_rank (t : Table) : nat :=
  match t with
  | obs_dns => 0
  | obs_tcp => 1
  | obs_tls => 2
  | obs_http => 3
  end.

Definition write_category_rank (t : Table) : nat :=
  match t with
  | obs_http => 0
  | obs_tcp => 1
  | obs_tls => 2
  | obs_dns => 3
  end.

Fixpoint nondecreasing (l : list nat) : bool :=
  match l with
  | a :: (b :: _) as l' => (a <=? b)%nat && nondecreasing l'
  | _ => true
  end.

(** The rows follow one another in the category order given by [rank]. *)
Definition in_category_order (rank : Table → nat) (rows : list Row) : bool :=
  nondecreasing ((λ row, rank (db_table row)) <$> rows).

(** The database connection, as the sequence of [write_row] calls it
    has received. *)
Abbreviation DatabaseConnection := (list Row).

Definition write_observations_to_db (db : DatabaseConnection)
    (observations : list Row) : DatabaseConnection :=
  foldl (λ db row, db ++ [row]) db observations.

(** A dict built by a comprehension: later items overwrite earlier
    ones with the same key. *)
Definition dict_of `{Countable K} {V} (items : list (K * V)) : gmap K V :=
  foldl (λ m kv, <[kv.1 := kv.2]> m) ∅ items.

(** The four extractors of [oonidata.observations], each returning
    the list of its observations or raising.  The fingerprint and
    netinfo databases they consult are read-only and left implicit. *)
Class Extractors : Type := {
  make_http_observations :
    BaseMeasurement → list HTTPTransaction → result (list HTTPObservation);
  make_dns_observations :
    BaseMeasurement → list DNSQuery → result (list DNSObservation);
  make_tcp_observations :
    BaseMeasurement → list TCPConnect → gmap (option string) string
    → result (list TCPObservation);
  make_tls_observations :
    BaseMeasurement → list TLSHandshake → list NetworkEvent
    → gmap (option string) string → result (list TLSObservation)
}.

Definition set_is_tls_consistent (v : option bool) (obs : DNSObservation)
  : DNSObservation :=
  {| domain_name := domain_name obs; answer := answer obs;
     dns_failure := dns_failure obs; is_tls_consistent := v |}.

Section Processors.
Context `{Extractors}.

Definition ip_to_domain_of (dns_observations : list DNSObservation)
  : gmap (option string) string :=
  dict_of ((λ obs, (answer obs, domain_name obs)) <$> dns_observations).

Definition tls_valid_domain_to_ip_of (tls_observations : list TLSObservation)
  : gmap (option string) (option bool) :=
  dict_of ((λ obs, (domain obs, is_certificate_valid obs)) <$> tls_observations).

(** [dns_obs.is_tls_consistent = tls_valid_domain_to_ip.get(dns_obs.answer,
    None)] for each DNS observation in turn. *)
Definition enrich (tls_valid_domain_to_ip : gmap (option string) (option bool))
    (dns_observations : list DNSObservation) : list DNSObservation :=
  (λ dns_obs,
     set_is_tls_consistent
       (default None (tls_valid_domain_to_ip !! answer dns_obs)) dns_obs)
  <$> dns_observations.

Definition web_connectivity_processor (msmt : BaseMeasurement)
    (db : DatabaseConnection) : DatabaseConnection * result unit :=
  match make_http_observations msmt (requests (test_keys msmt)) with
  | Raise e => (db, Raise e)
  | Ok http_observations =>
  let db := write_observations_to_db db (HTTPRow <$> http_observations) in
  match make_dns_observations msmt (queries (test_keys msmt)) with
  | Raise e => (db, Raise e)
  | Ok dns_observations =>
  let ip_to_domain := ip_to_domain_of dns_observations in
  match make_tcp_observations msmt (tcp_connect (test_keys msmt))
          ip_to_domain with
  | Raise e => (db, Raise e)
  | Ok tcp_observations =>
  let db := write_observations_to_db db (TCPRow <$> tcp_observations) in
  match make_tls_observations msmt (tls_handshakes (test_keys msmt))
          (network_events (test_keys msmt)) ip_to_domain with
  | Raise e => (db, Raise e)
  | Ok tls_observations =>
  let db := write_observations_to_db db (TLSRow <$> tls_observations) in
  let tls_valid_domain_to_ip := tls_valid_domain_to_ip_of tls_observations in
  let enriched_dns_observations :=
    enrich tls_valid_domain_to_ip dns_observations in
  let db := write_observations_to_db db (DNSRow <$> enriched_dns_observations) in
  (db, Ok tt)
  end end end end.

Definition default_processor (msmt : BaseMeasurement)
    (db : DatabaseConnection) : DatabaseConnection * result unit :=
  (db, Ok tt).

Definition nettest_processors (name : string)
  : option (BaseMeasurement → DatabaseConnection
            → DatabaseConnection * result unit) :=
  if String.eqb name "web_connectivity"
  then Some web_connectivity_processor else None.

(** ** process_day *)

Section Day.
(** A raw record as [iter_raw_measurements] hands it over;
    [load_measurement] and the [json.loads] of the handler are
    collaborators. *)
Context {Raw : Type}.
Variable load_measurement : Raw → result BaseMeasurement.
Variable json_loads_ok : Raw → bool.

(** [except Exception as exc: pprint(json.loads(raw_msmt)); raise
    exc]: the exception goes on, unless printing the record fails
    first. *)
Definition reraise (raw_msmt : Raw) (exc : exn) : exn :=
  if json_loads_ok raw_msmt then exc else ValueError.

(** The body of the [try] for one record. *)
Definition process_record (raw_msmt : Raw) (db : DatabaseConnection)
  : DatabaseConnection * result unit :=
  match load_measurement raw_msmt with
  | Raise exc => (db, Raise exc)
  | Ok msmt =>
      default default_processor (nettest_processors (test_name msmt)) msmt db
  end.

Fixpoint process_loop (start_at_idx idx : Z) (raws : list Raw)
    (db : DatabaseConnection) : DatabaseConnection * result unit :=
  match raws with
  | [] => (db, Ok tt)
  | raw_msmt :: rest =>
      if decide (idx < start_at_idx)
      then process_loop start_at_idx (idx + 1) rest db
      else
        match load_measurement raw_msmt with
        | Raise exc => (db, Raise (reraise raw_msmt exc))
        | Ok msmt =>
            let processor :=
              default default_processor
                (nettest_processors (test_name msmt)) in
            match processor msmt db with
            | (db, Raise exc) => (db, Raise (reraise raw_msmt exc))
            | (db, Ok _) => process_loop start_at_idx (idx + 1) rest db
            end
        end
  end.

(** [process_day(db, day, start_at_idx)] over the records that
    [iter_raw_measurements] yields for that day. *)
Definition process_day (raw_measurements : gen Raw)
    (db : DatabaseConnection) (start_at_idx : Z)
  : DatabaseConnection * result unit :=
  match process_loop start_at_idx 0 (yielded raw_measurements) db with
  | (db, Raise e) => (db, Raise e)
  | (db, Ok _) =>
      match raised raw_measurements with
      | Some e => (db, Raise e)
      | None => (db, Ok tt)
      end
  end.
End Day.

End Processors.

(** ** CSVConnection *)

(** A row as [write_row] receives it: a dict from column names to
    values, in insertion order.  The values are taken as the text
    that the csv module writes for them. *)
Abbreviation RowDict := (list (string * string)).

(** [row.get(key, restval)] *)
Fixpoint row_get (row : RowDict) (key restval : string) : string :=
  match row with
  | [] => restval
  | (k, v) :: row' => if String.eqb k key then v else row_get row' key restval
  end.

(** A [csv.DictWriter] on a file opened with ["w"]: the path it was
    opened at, its [fieldnames], and the records written through it so
    far, the header first.  Quoting and line ends are the csv module's
    business and are not represented. *)
Record DictWriter : Type := {
  out_path : string;
  fieldnames : list string;
  records : list (list string)
}.

(** [DictWriter._dict_to_list] with the default [extrasaction="raise"]
    and [restval=""]. *)
Definition dict_to_list (self : DictWriter) (rowdict : RowDict)
  : result (list string) :=
  if forallb (λ k, bool_decide (k ∈ fieldnames self)) rowdict.*1
  then Ok ((λ key, row_get rowdict key "") <$> fieldnames self)
  else Raise ValueError.

Record CSVConnection : Type := {
  output_dir : S3Feeder.Path;
  open_writers : gmap string DictWriter
}.

(** [CSVConnection(output_dir)] *)
Definition CSVConnection_init (output_dir : S3Feeder.Path) : CSVConnection :=
  {| output_dir := output_dir; open_writers := ∅ |}.

(** [CSVConnection.write_row(table_name, row)]; the output directory
    is taken to exist. *)
Definition csv_write_row (self : CSVConnection) (table_name : string)
    (row : RowDict) : CSVConnection * result unit :=
  let '(self, csv_writer) :=
    match open_writers self !! table_name with
    | Some csv_writer => (self, csv_writer)
    | None =>
        let out_path :=
          S3Feeder.as_posix
            (S3Feeder.path_div (output_dir self) (table_name +:+ ".csv")) in
        (* csv_writer.writeheader() *)
        let csv_writer := {| out_path := out_path; fieldnames := row.*1;
                             records := [row.*1] |} in
        ({| output_dir := output_dir self;
            open_writers := <[table_name := csv_writer]> (open_writers self) |},
         csv_writer)
    end in
  (* self.open_writers[table_name].writerow(row) *)
  match dict_to_list csv_writer row with
  | Raise e => (self, Raise e)
  | Ok cells =>
      ({| output_dir := output_dir self;
          open_writers :=
            <[table_name := {| out_path := out_path csv_writer;
                               fieldnames := fieldnames csv_writer;
                               records := records csv_writer ++ [cells] |}]>
              (open_writers self) |},
       Ok tt)
  end.

(** [for (table_name, row) in calls: db.write_row(table_name, row)]:
    the loop of [write_observations_to_db] on a CSV connection. *)
Fixpoint csv_write_rows (self : CSVConnection)
    (calls : list (string * RowDict)) : CSVConnection * result unit :=
  match calls with
  | [] => (self, Ok tt)
  | (table_name, row) :: calls' =>
      match csv_write_row self table_name row with
      | (self, Raise e) => (self, Raise e)
      | (self, Ok _) => csv_write_rows self calls'
      end
  end.

(** ** The extractors as the specification describes them *)

(** Modelled from the spec: [make_http_observations] of
    [oonidata.observations] is missing; §4.3 gives one observation per
    request/response pair. *)
Definition spec_make_http_observations (msmt : BaseMeasurement)
    (requests_list : list HTTPTransaction) : result (list HTTPObservation) :=
  Ok ((λ t, {| request_url := url t |}) <$> requests_list).

(** Modelled from the spec: [make_dns_observations] of
    [oonidata.observations] is missing; §4.3 gives one observation per
    resolved answer, or one failure observation if the query failed. *)
Definition spec_make_dns_observations (msmt : BaseMeasurement)
    (queries : list DNSQuery) : result (list DNSObservation) :=
  Ok (q ← queries;
      match failure q with
      | Some f => [{| domain_name := hostname q; answer := None;
                      dns_failure := Some f; is_tls_consistent := None |}]
      | None => (λ a, {| domain_name := hostname q; answer := Some a;
                         dns_failure := None; is_tls_consistent := None |})
                <$> answers q
      end).

(** Modelled from the spec: [make_tcp_observations] of
    [oonidata.observations] is missing; §4.3 gives one observation per
    attempted (ip, port), whose domain is [ip_to_domain[ip]], NULL when
    absent. *)
Definition spec_make_tcp_observations (msmt : BaseMeasurement)
    (connects : list TCPConnect) (ip_to_domain : gmap (option string) string)
  : result (list TCPObservation) :=
  Ok ((λ c, {| tcp_domain_name := ip_to_domain !! Some (ip c);
               tcp_ip := ip c; tcp_port := port c;
               tcp_success := success c |}) <$> connects).

(** Modelled from the spec: [make_tls_observations] of
    [oonidata.observations] is missing; §4.3 gives one observation per
    handshake, whose domain is [ip_to_domain[ip]], NULL when absent.
    The byte counters it takes from the network events are not among
    the attributes kept here. *)
Definition spec_make_tls_observations (msmt : BaseMeasurement)
    (handshakes : list TLSHandshake) (events : list NetworkEvent)
    (ip_to_domain : gmap (option string) string)
  : result (list TLSObservation) :=
  Ok ((λ h, {| domain := ip_to_domain !! Some (peer_ip h);
               tls_ip := peer_ip h;
               is_certificate_valid := cert_valid h |}) <$> handshakes).

Definition spec_extractors : Extractors := {|
  make_http_observations := spec_make_http_observations;
  make_dns_observations := spec_make_dns_observations;
  make_tcp_observations := spec_make_tcp_observations;
  make_tls_observations := spec_make_tls_observations
|}.

End Processing.

(* ===================================================================== *)
(** * Concrete archives and measurements *)
(* ===================================================================== *)

Module Scenarios.
Import Py Dates S3Feeder.

(** The double-quote character, and the text of a minican envelope
    [{"format":"json","content":{}}]. *)
Definition dq : string := String "034"%char EmptyString.

Definition envelope_text (fmt : string) : string :=
  "{" +:+ dq +:+ "format" +:+ dq +:+ ":" +:+ dq +:+ fmt +:+ dq +:+ ","
  +:+ dq +:+ "content" +:+ dq +:+ ":{}}".

(** A decoder that knows the JSON texts used below and rejects the
    text [{bad], as any JSON decoder does. *)
Definition table_loads (s : string) : option Json :=
  if String.eqb s "{}" then Some (JDict [])
  else if String.eqb s (envelope_text "json")
  then Some (JDict [("format", JStr "json"); ("content", JDict [])])
  else if String.eqb s (envelope_text "yaml")
  then Some (JDict [("format", JStr "yaml"); ("content", JDict [])])
  else None.

(** The clock of the scenarios: one second for every event, from
    2022-01-01 00:00:00. *)
#[global] Instance table_collaborators : Collaborators := {|
  ujson_loads := table_loads;
  trivial_id := λ _, "00000000000000.000000_XX_none_0000000000000000";
  iter_yaml_msmt_normalized := λ _ _ _, gen_done;
  time_time := λ n, inject_Z (1640995200 + Z.of_nat n)
|}.

Definition today : date := Eval vm_compute in ymd 2022 1 1.

Definition object (key : string) (sz : Z) (body : Content) : string * S3Object :=
  (MC_BUCKET_NAME, {| Key := key; Size := sz; Body := body |}).

Definition cache_root : Path := path_of "/var/cache/oonidata".

(** *** A day of jsonl files in the new layout *)

Definition jsonl_key : string :=
  "raw/20211230/00/IT/webconnectivity/2021123000_IT_webconnectivity.n0.0.jsonl.gz".

Definition jsonl_bucket : S3 := [object jsonl_key 3 (TextLines ["{}"])].

Definition jsonl_entry : FileEntry := {|
  day := ymd 2021 12 30;
  country_code := "IT";
  test_name := "webconnectivity";
  filename := "2021123000_IT_webconnectivity.n0.0.jsonl.gz";
  size := 3;
  ext := "jsonl.gz";
  s3path := jsonl_key;
  bucket_name := MC_BUCKET_NAME
|}.

Definition jsonl_world : World :=
  {| disk := ∅; s3 := jsonl_bucket; now := 1640995200; trace := [] |}.

Definition jsonl_conf : Conf := {|
  ccs := {["IT"]};
  testnames := {["webconnectivity"]};
  s3cachedir := cache_root;
  keep_s3_cache := true
|}.

(** *** A jsonl file whose first line is broken *)

Definition broken_key : string :=
  "raw/20211230/00/IT/webconnectivity/2021123001_IT_webconnectivity.n0.0.jsonl.gz".

Definition broken_entry : FileEntry := {|
  day := ymd 2021 12 30;
  country_code := "IT";
  test_name := "webconnectivity";
  filename := "2021123001_IT_webconnectivity.n0.0.jsonl.gz";
  size := 8;
  ext := "jsonl.gz";
  s3path := broken_key;
  bucket_name := MC_BUCKET_NAME
|}.

Definition broken_world : World :=
  {| disk := ∅;
     s3 := [object broken_key 8 (TextLines ["{bad"; "{}"]);
            object jsonl_key 3 (TextLines ["{}"])];
     now := 1640995200; trace := [] |}.

Definition broken_path : string :=
  "/var/cache/oonidata/webconnectivity/IT/2021-12-30/2021123001_IT_webconnectivity.n0.0.jsonl.gz".

Definition broken_disk : Disk :=
  {[ broken_path := {| st_size := 8; st_mtime := 0;
                       data := TextLines ["{bad"; "{}"] |} ]}.

(** *** A minican *)

Definition minican_key : string :=
  "raw/20231031/15/VE/whatsapp/2023103115_VE_whatsapp.n1.0.tar.gz".

Definition minican_entry : FileEntry := {|
  day := ymd 2023 10 31;
  country_code := "VE";
  test_name := "whatsapp";
  filename := "2023103115_VE_whatsapp.n1.0.tar.gz";
  size := 52964;
  ext := "tar.gz";
  s3path := minican_key;
  bucket_name := MC_BUCKET_NAME
|}.

Definition minican_path : string :=
  "/var/cache/oonidata/whatsapp/VE/2023-10-31/2023103115_VE_whatsapp.n1.0.tar.gz".

Definition post (member_name text : string) : TarMember :=
  {| name := member_name; payload := Some [text] |}.

(** An envelope that does not parse, followed by a good one. *)
Definition minican_members : list TarMember :=
  [post "var/lib/ooniapi/20231031150000.000001_VE_whatsapp_aaaaaaaaaaaaaaaa.post"
        "{bad";
   post "var/lib/ooniapi/20231031150001.000002_VE_whatsapp_bbbbbbbbbbbbbbbb.post"
        (envelope_text "json")].

Definition minican_disk : Disk :=
  {[ minican_path := {| st_size := 52964; st_mtime := 0;
                        data := TarArchive minican_members |} ]}.

Definition minican_bucket : S3 :=
  [object minican_key 52964 (TarArchive minican_members)].

(** *** The legacy jsonl prefix family *)

Definition legacy_key : string :=
  "jsonl/webconnectivity/IT/20201019/00/20201019_IT_webconnectivity.n0.0.jsonl.gz".

Definition legacy_bucket : S3 := [object legacy_key 10 (TextLines ["{}"])].

(** The same object, stored empty. *)
Definition empty_object_bucket : S3 := [object legacy_key 0 (TextLines [])].

Definition empty_object_entry : FileEntry := {|
  day := ymd 2020 10 19;
  country_code := "IT";
  test_name := "webconnectivity";
  filename := "20201019_IT_webconnectivity.n0.0.jsonl.gz";
  size := 0;
  ext := "jsonl.gz";
  s3path := legacy_key;
  bucket_name := MC_BUCKET_NAME
|}.

(** *** A web_connectivity measurement *)

(** One name resolved to one address, reached over TCP, TLS and HTTP. *)
Definition web_msmt : Processing.BaseMeasurement := {|
  Processing.test_name := "web_connectivity";
  Processing.test_keys := {|
    Processing.requests := [{| Processing.url := "https://example.org/" |}];
    Processing.queries :=
      [{| Processing.hostname := "example.org";
          Processing.answers := ["93.184.216.34"];
          Processing.failure := None |}];
    Processing.tcp_connect :=
      [{| Processing.ip := "93.184.216.34"; Processing.port := 443;
          Processing.success := true |}];
    Processing.tls_handshakes :=
      [{| Processing.peer_ip := "93.184.216.34";
          Processing.cert_valid := Some true |}];
    Processing.network_events := []
  |}
|}.

Definition web_dns_obs : Processing.DNSObservation := {|
  Processing.domain_name := "example.org";
  Processing.answer := Some "93.184.216.34";
  Processing.dns_failure := None;
  Processing.is_tls_consistent := None
|}.

Definition web_tls_obs : Processing.TLSObservation := {|
  Processing.domain := Some "example.org";
  Processing.tls_ip := "93.184.216.34";
  Processing.is_certificate_valid := Some true
|}.

Definition web_tcp_obs : Processing.TCPObservation := {|
  Processing.tcp_domain_name := Some "example.org";
  Processing.tcp_ip := "93.184.216.34";
  Processing.tcp_port := 443;
  Processing.tcp_success := true
|}.

Definition web_http_obs : Processing.HTTPObservation :=
  {| Processing.request_url := "https://example.org/" |}.

(** The same address answered for two names, the second one last. *)
Definition shared_ip_msmt : Processing.BaseMeasurement := {|
  Processing.test_name := "web_connectivity";
  Processing.test_keys := {|
    Processing.requests := [];
    Processing.queries :=
      [{| Processing.hostname := "first.example";
          Processing.answers := ["10.0.0.1"];
          Processing.failure := None |};
       {| Processing.hostname := "second.example";
          Processing.answers := ["10.0.0.1"];
          Processing.failure := None |}];
    Processing.tcp_connect :=
      [{| Processing.ip := "10.0.0.1"; Processing.port := 80;
          Processing.success := true |}];
    Processing.tls_handshakes :=
      [{| Processing.peer_ip := "10.0.0.1";
          Processing.cert_valid := Some false |}];
    Processing.network_events := []
  |}
|}.

(** Raw records named after what loading them gives. *)
Definition load_by_name (raw_msmt : string) : result Processing.BaseMeasurement :=
  if String.eqb raw_msmt "good" then Ok web_msmt else Raise ValueError.

End Scenarios.

(* ===================================================================== *)
(** * Sanity checks of the run-time fragment *)
(* ===================================================================== *)

Example ymd_roundtrip_2020_10_21 :
  Dates.ord2ymd (Dates.ymd 2020 10 21) = (2020, 10, 21).
Proof. reflexivity. Qed.

Example strftime_leap_day :
  Dates.strftime_Y_m_d (Dates.ymd 2024 2 29) = "2024-02-29".
Proof. reflexivity. Qed.

Example strftime_year_end :
  Dates.strftime_Ymd (Dates.ymd 2023 12 31) = "20231231"
  ∧ Dates.strftime_Ymd (Dates.ymd 2023 12 31 + 1) = "20240101".
Proof. split; reflexivity. Qed.

Example split_filename :
  Py.split "_" "2023103115_VE_whatsapp.n1.0.tar.gz"
  = ["2023103115"; "VE"; "whatsapp.n1.0.tar.gz"].
Proof. reflexivity. Qed.

Example splitn_test_and_ext :
  Py.splitn "." 3 "whatsapp.n1.0.tar.gz" = ["whatsapp"; "n1"; "0"; "tar.gz"].
Proof. reflexivity. Qed.

Example rsplit1_member :
  Py.rsplit1 "/" "a/b/x.post" = ["a/b"; "x.post"]
  ∧ Py.rsplit1 "/" "x.post" = ["x.post"].
Proof. split; reflexivity. Qed.

(* ===================================================================== *)
(** * Facts about the [str] methods *)
(* ===================================================================== *)

Section Strings.
Import Py S3Feeder.

Lemma split_go_no_sep (sep : ascii) (cur s : string) :
  mem_char sep s = false → split_go sep cur s = [String.rev_app cur s].
Proof.
  revert cur. induction s as [| c s IH]; intros cur Hs; [done |].
  cbn in Hs. apply orb_false_iff in Hs as [Hc Hs].
  cbn [split_go]. rewrite Hc. by rewrite IH.
Qed.

Lemma split_no_sep (sep : ascii) (s : string) :
  mem_char sep s = false → split sep s = [s].
Proof. apply split_go_no_sep. Qed.

(** [+:+] does not unfold under [cbn]; these two equations do it. *)
Lemma append_cons (c : ascii) (a b : string) :
  String c a +:+ b = String c (a +:+ b).
Proof. reflexivity. Qed.

Lemma append_nil_l (s : string) : "" +:+ s = s.
Proof. reflexivity. Qed.

Lemma append_nil_r (s : string) : s +:+ "" = s.
Proof.
  induction s as [| c s IH]; [done |]. by rewrite append_cons, IH.
Qed.

Lemma append_assoc (a b c : string) : (a +:+ b) +:+ c = a +:+ b +:+ c.
Proof.
  induction a as [| x a IH]; [done |]. by rewrite !append_cons, IH.
Qed.

Lemma length_append (a b : string) :
  String.length (a +:+ b) = (String.length a + String.length b)%nat.
Proof.
  induction a as [| x a IH]; [done |]. rewrite append_cons. cbn. by rewrite IH.
Qed.

Lemma rev_app_append (s acc : string) :
  String.rev_app s acc = String.rev s +:+ acc.
Proof.
  unfold String.rev. revert acc.
  induction s as [| c s IH]; intros acc; [done |].
  cbn [String.rev_app]. rewrite (IH (String c acc)), (IH (String c "")).
  by rewrite append_assoc.
Qed.

Lemma rev_append (a b : string) :
  String.rev (a +:+ b) = String.rev b +:+ String.rev a.
Proof.
  rewrite <- (rev_app_append b). unfold String.rev.
  generalize EmptyString as acc.
  induction a as [| x a IH]; intros acc; [done |].
  rewrite append_cons. cbn [String.rev_app]. apply IH.
Qed.

Lemma prefix_append (p s : string) : String.prefix p (p +:+ s) = true.
Proof.
  induction p as [| c p IH]; [by destruct s |].
  rewrite append_cons. cbn [String.prefix].
  by destruct (ascii_dec c c).
Qed.

Lemma startswith_append (p s : string) : startswith (p +:+ s) p = true.
Proof. apply prefix_append. Qed.

Lemma endswith_append (s suffix : string) : endswith (s +:+ suffix) suffix = true.
Proof. unfold endswith. rewrite rev_append. apply prefix_append. Qed.

Lemma slice_drop_last_append (s suffix : string) :
  slice_drop_last (String.length suffix) (s +:+ suffix) = s.
Proof.
  unfold slice_drop_last. rewrite length_append.
  replace (String.length s + String.length suffix - String.length suffix)%nat
    with (String.length s) by lia.
  induction s as [| c s IH].
  - by destruct suffix.
  - rewrite append_cons. cbn. by rewrite IH.
Qed.

Lemma substring_drop_append (p s : string) :
  String.substring (String.length p)
    (String.length (p +:+ s) - String.length p) (p +:+ s) = s.
Proof.
  rewrite length_append.
  replace (String.length p + String.length s - String.length p)%nat
    with (String.length s) by lia.
  induction p as [| c p IH]; [| rewrite append_cons; exact IH].
  rewrite append_nil_l. cbn [String.length].
  induction s as [| c s IH]; cbn; [done |]. by rewrite IH.
Qed.

Lemma split_go_nonempty (sep : ascii) (cur s : string) :
  split_go sep cur s ≠ [].
Proof.
  revert cur. induction s as [| c s IH]; intros cur; cbn; [done |].
  destruct (Ascii.eqb c sep); [done | apply IH].
Qed.

(** Splitting a text that has a separator in the middle. *)
Lemma split_go_append_sep (sep : ascii) (cur a b : string) :
  split_go sep cur (a +:+ String sep b)
  = split_go sep cur a ++ split_go sep EmptyString b.
Proof.
  revert cur. induction a as [| c a IH]; intros cur.
  - rewrite append_nil_l. cbn. by rewrite Ascii.eqb_refl.
  - rewrite append_cons. cbn [split_go].
    destruct (Ascii.eqb c sep); [cbn; f_equal |]; apply IH.
Qed.

Lemma split_append_sep (sep : ascii) (a b : string) :
  split sep (a +:+ String sep b) = split sep a ++ split sep b.
Proof. apply split_go_append_sep. Qed.

Lemma join_cons (sep a b : string) (l : list string) :
  join sep (a :: b :: l) = a +:+ sep +:+ join sep (b :: l).
Proof. reflexivity. Qed.

(** Joining what was split gives the text back. *)
Lemma join_split_go (sep : ascii) (cur s : string) :
  join (String sep EmptyString) (split_go sep cur s) = String.rev cur +:+ s.
Proof.
  revert cur. induction s as [| c s IH]; intros cur; cbn [split_go].
  - cbn. by rewrite append_nil_r.
  - destruct (Ascii.eqb_spec c sep) as [-> | Hc].
    + specialize (IH EmptyString).
      destruct (split_go sep "" s) as [| x l] eqn:Hsplit;
        [by apply split_go_nonempty in Hsplit |].
      rewrite join_cons, IH. done.
    + rewrite IH. unfold String.rev. cbn [String.rev_app].
      by rewrite (rev_app_append cur (String c "")), append_assoc.
Qed.

Lemma join_split (sep : ascii) (s : string) :
  join (String sep EmptyString) (split sep s) = s.
Proof. apply join_split_go. Qed.

(** [(a + sep + b).rsplit(sep, 1)] when [b] holds no separator. *)
Lemma rsplit1_append_sep (sep : ascii) (a b : string) :
  mem_char sep b = false →
  rsplit1 sep (a +:+ String sep b) = [a; b].
Proof.
  intros Hb. unfold rsplit1.
  rewrite split_append_sep, rev_app_distr.
  unfold split at 1. rewrite split_go_no_sep by done. cbn [rev app String.rev_app].
  destruct (rev (split sep a)) as [| x l] eqn:Hrev.
  - apply (f_equal (@rev string)) in Hrev. rewrite rev_involutive in Hrev.
    by apply split_go_nonempty in Hrev.
  - rewrite <- Hrev, rev_involutive, join_split. done.
Qed.

End Strings.

(* ===================================================================== *)
(** * Facts about generators *)
(* ===================================================================== *)

Section Generators.
Import Py.
Context {A B : Type}.

Lemma gen_seq_yielded (g1 g2 : gen B) (x : B) :
  x ∈ yielded (gen_seq g1 g2) → x ∈ yielded g1 ∨ x ∈ yielded g2.
Proof.
  unfold gen_seq. destruct (raised g1); [by left |].
  cbn. by rewrite elem_of_app.
Qed.

(** What a loop yields was yielded by one of its turns. *)
Lemma gen_for_yielded (l : list A) (body : A → gen B) (x : B) :
  x ∈ yielded (gen_for l body) → ∃ a, a ∈ l ∧ x ∈ yielded (body a).
Proof.
  induction l as [| a l IH]; cbn [gen_for].
  - by intros ?%elem_of_nil.
  - intros [Hx | Hx]%gen_seq_yielded.
    + exists a. split; [left | done].
    + destruct (IH Hx) as (a' & Ha' & Hx'). exists a'. split; [by right | done].
Qed.

(** A loop none of whose turns raises runs them all. *)
Lemma gen_for_complete (l : list A) (body : A → gen B) :
  (∀ a, a ∈ l → raised (body a) = None) →
  raised (gen_for l body) = None
  ∧ ∀ a x, a ∈ l → x ∈ yielded (body a) → x ∈ yielded (gen_for l body).
Proof.
  induction l as [| a l IH]; intros Hl; cbn [gen_for].
  - split; [done |]. by intros a x ?%elem_of_nil.
  - destruct IH as [IHr IHy]; [intros a' Ha'; apply Hl; by right |].
    unfold gen_seq. rewrite (Hl a) by left. cbn. split; [done |].
    intros a' x [-> | Ha']%elem_of_cons Hx; apply elem_of_app; [by left |].
    right. by eapply IHy.
Qed.

End Generators.

(* ===================================================================== *)
(** * Date intervals *)
(* ===================================================================== *)

Section DateInterval.
Import Py Dates S3Feeder.

Lemma days_loop_lt (day stop_day : date) :
  day < stop_day → days_loop day stop_day = day :: days_loop (day + 1) stop_day.
Proof.
  intros Hlt. rewrite days_loop_equation_1.
  destruct (decide (day < stop_day)); [done | lia].
Qed.

Lemma days_loop_ge (day stop_day : date) :
  stop_day ≤ day → days_loop day stop_day = [].
Proof.
  intros Hge. rewrite days_loop_equation_1.
  destruct (decide (day < stop_day)); [lia | done].
Qed.

(** The loop yields consecutive days: [day], [day + 1], ... up to the
    day before [stop_day]. *)
Lemma days_loop_seq (n : nat) (day stop_day : date) :
  Z.to_nat (stop_day - day) = n →
  days_loop day stop_day = (λ i : nat, day + Z.of_nat i) <$> seq 0 n.
Proof.
  revert day. induction n as [|n IH]; intros day Hn.
  - rewrite days_loop_ge by lia. done.
  - rewrite days_loop_lt by lia. rewrite (IH (day + 1)) by lia.
    cbn [seq fmap list_fmap]. f_equal; [lia |].
    rewrite <- seq_shift, <- list_fmap_compose.
    apply list_fmap_ext. intros _ i _. simpl. lia.
Qed.

Lemma elem_of_days_loop (d day stop_day : date) :
  d ∈ days_loop day stop_day ↔ day ≤ d < stop_day.
Proof.
  rewrite (days_loop_seq _ _ _ eq_refl), list_elem_of_fmap. split.
  - intros (i & -> & Hi%elem_of_seq). lia.
  - intros Hd. exists (Z.to_nat (d - day)). split; [lia |].
    apply elem_of_seq. lia.
Qed.

End DateInterval.

(** C10.  Iterating [date_interval(start_day, end_day)] with a falsy
    [start_day], or one on or after today, raises [RuntimeError] (the
    [StopIteration] raised in the generator body) and yields nothing,
    not an empty sequence.  Otherwise the generator returns normally
    after yielding the days from [start_day] up to, and excluding, the
    earlier of [end_day] and today; with [end_day] past today these are
    the consecutive days that end the day before today.  In no case is
    a day on or after today yielded. *)
Theorem date_interval_stops_before_today
    (today : date) (start_day : option date) (end_day : date) :
  let g := S3Feeder.date_interval today start_day end_day in
  ((start_day = None ∨ ∃ s, start_day = Some s ∧ today ≤ s) →
     g = Gen [] (Some RuntimeError))
  ∧ (∀ s, start_day = Some s → s < today →
       raised g = None
       ∧ (∀ d, d ∈ yielded g ↔ s ≤ d < Z.min end_day today)
       ∧ (today ≤ end_day →
            yielded g = (λ i : nat, s + Z.of_nat i) <$> seq 0 (Z.to_nat (today - s))))
  ∧ (∀ d, d ∈ yielded g → d < today).
Proof.
  intros g. subst g. unfold S3Feeder.date_interval.
  split; [| split].
  - intros [-> | (s & -> & Hs)]; [done |].
    destruct (decide (s >= today)); [done | lia].
  - intros s -> Hs.
    destruct (decide (s >= today)); [lia |]. cbn [raised yielded].
    split; [done |]. split.
    + intros d. rewrite elem_of_days_loop.
      destruct (decide (end_day < today)); lia.
    + intros Hend. destruct (decide (end_day < today)); [lia |].
      by apply days_loop_seq.
  - destruct start_day as [s |]; [| by intros d ?%elem_of_nil].
    destruct (decide (s >= today)); [by intros d ?%elem_of_nil |].
    cbn [yielded]. intros d. rewrite elem_of_days_loop.
    destruct (decide (end_day < today)); lia.
Qed.

(** The interval asked on 2022-01-03 for [2022-01-01, 2022-01-10) stops
    at the 2nd; asked for a start on the 3rd itself, it raises. *)
Lemma date_interval_stops_before_today_witness :
  (Dates.ymd 2022 1 1 < Dates.ymd 2022 1 3
   ∧ Dates.ymd 2022 1 3 ≤ Dates.ymd 2022 1 10
   ∧ yielded (S3Feeder.date_interval (Dates.ymd 2022 1 3)
                (Some (Dates.ymd 2022 1 1)) (Dates.ymd 2022 1 10))
     = [Dates.ymd 2022 1 1; Dates.ymd 2022 1 2])
  ∧ (Dates.ymd 2022 1 3 ≤ Dates.ymd 2022 1 3
     ∧ S3Feeder.date_interval (Dates.ymd 2022 1 3)
         (Some (Dates.ymd 2022 1 3)) (Dates.ymd 2022 1 10)
       = Gen [] (Some RuntimeError)).
Proof.
  split.
  - assert (Hlt : Dates.ymd 2022 1 1 < Dates.ymd 2022 1 3) by (vm_compute; done).
    assert (Hle : Dates.ymd 2022 1 3 ≤ Dates.ymd 2022 1 10) by (vm_compute; congruence).
    split; [exact Hlt | split; [exact Hle |]].
    destruct (date_interval_stops_before_today (Dates.ymd 2022 1 3)
                (Some (Dates.ymd 2022 1 1)) (Dates.ymd 2022 1 10))
      as (_ & Hsome & _).
    destruct (Hsome _ eq_refl Hlt) as (_ & _ & Hseq).
    rewrite (Hseq Hle). vm_compute. reflexivity.
  - assert (Hle : Dates.ymd 2022 1 3 ≤ Dates.ymd 2022 1 3) by lia.
    split; [exact Hle |].
    destruct (date_interval_stops_before_today (Dates.ymd 2022 1 3)
                (Some (Dates.ymd 2022 1 3)) (Dates.ymd 2022 1 10))
      as (Hnone & _ & _).
    apply Hnone. right. eexists. split; [reflexivity | exact Hle].
Defined.

(* ===================================================================== *)
(** * The disk cache *)
(* ===================================================================== *)

Section Cache.
Import Py Dates S3Feeder.

Lemma clean_parts_plain (s : string) :
  plain_component s = true → clean_parts s = [s].
Proof.
  unfold plain_component, clean_parts.
  intros [[He Hd]%andb_true_iff Hs%negb_true_iff]%andb_true_iff.
  rewrite split_no_sep by done.
  apply negb_true_iff, String.eqb_neq in He, Hd.
  rewrite filter_cons_True by done. done.
Qed.

Lemma startswith_slash_plain (s : string) :
  plain_component s = true → startswith s "/" = false.
Proof.
  unfold plain_component.
  intros [_ Hs%negb_true_iff]%andb_true_iff.
  destruct s as [| c s]; [done |].
  cbn in Hs. apply orb_false_iff in Hs as [Hc _].
  unfold startswith. cbn [String.prefix].
  destruct (ascii_dec "/" c) as [<- | ?]; [by cbn in Hc | done].
Qed.

Lemma path_div_plain (p : Path) (s : string) :
  plain_component s = true →
  path_div p s = {| absolute := absolute p; parts := parts p ++ [s] |}.
Proof.
  intros Hs. unfold path_div.
  by rewrite startswith_slash_plain, clean_parts_plain.
Qed.

Lemma digit_cases (n : Z) :
  digit n ∈ ["0"; "1"; "2"; "3"; "4"; "5"; "6"; "7"; "8"; "9"]%char.
Proof.
  unfold digit. pose proof (Z.mod_pos_bound n 10 eq_refl) as Hb.
  assert (Hk : ∃ k : nat, (k < 10)%nat ∧ Z.to_nat (n mod 10) = k)
    by (exists (Z.to_nat (n mod 10)); lia).
  destruct Hk as (k & Hk & ->). clear Hb.
  do 10 (destruct k as [| k]; [set_solver |]). lia.
Qed.

Lemma digit_not_slash (n : Z) : Ascii.eqb (digit n) "/" = false.
Proof.
  pose proof (digit_cases n) as Hd.
  repeat (apply elem_of_cons in Hd as [-> | Hd]; [done |]).
  by apply elem_of_nil in Hd.
Qed.

Lemma strftime_Y_m_d_plain (d : date) :
  plain_component (strftime_Y_m_d d) = true.
Proof.
  unfold strftime_Y_m_d. destruct (ord2ymd d) as [[y m] dd].
  unfold plain_component, pad4, pad2.
  cbv [String.append mem_char String.eqb negb andb].
  rewrite !digit_not_slash.
  by destruct (digit (y / 1000) =? ".")%char.
Qed.

Lemma output_path_parts (fe : FileEntry) (dst_dir : Path) :
  plain_component (test_name fe) = true →
  plain_component (country_code fe) = true →
  plain_component (filename fe) = true →
  output_path fe dst_dir
  = {| absolute := absolute dst_dir;
       parts := parts dst_dir
                ++ [test_name fe; country_code fe;
                    strftime_Y_m_d (day fe); filename fe] |}.
Proof.
  intros Ht Hc Hf. unfold output_path.
  rewrite !path_div_plain by auto using strftime_Y_m_d_plain.
  cbn [absolute parts]. by rewrite <- !(assoc_L (++)).
Qed.

Lemma with_suffix_parent (p tmpf : Path) (suffix : string) :
  with_suffix p suffix = Ok tmpf → parent tmpf = parent p.
Proof.
  unfold with_suffix. destruct (rev (parts p)) as [| name front]; [done |].
  intros [= <-]. unfold parent. cbn [absolute parts].
  by rewrite removelast_last.
Qed.

(** [with_suffix] on a final component [<stem>.<last>]: the text after
    the last dot is replaced. *)
Lemma with_suffix_replaces (p : Path) (front : list string)
    (stem last suffix : string) :
  parts p = front ++ [stem +:+ "." +:+ last] →
  stem ≠ "" → last ≠ "" → mem_char "." last = false →
  with_suffix p suffix
  = Ok {| absolute := absolute p; parts := front ++ [stem +:+ suffix] |}.
Proof.
  intros Hparts Hstem Hlast Hdot. unfold with_suffix.
  rewrite Hparts, rev_app_distr, removelast_last. cbn [rev app].
  change ("." +:+ last) with (String "." last).
  rewrite split_append_sep, (split_no_sep "." last Hdot), rev_app_distr.
  cbn [rev app].
  destruct (rev (split "." stem)) as [| x front'] eqn:Hrev.
  { apply (f_equal (@rev string)) in Hrev. rewrite rev_involutive in Hrev.
    by apply split_go_nonempty in Hrev. }
  rewrite <- Hrev, rev_involutive, join_split.
  apply String.eqb_neq in Hstem, Hlast. by rewrite Hstem, Hlast.
Qed.

(** [with_suffix] on a final component without a dot: the suffix is
    appended. *)
Lemma with_suffix_appends (p : Path) (front : list string)
    (name suffix : string) :
  parts p = front ++ [name] → mem_char "." name = false →
  with_suffix p suffix
  = Ok {| absolute := absolute p; parts := front ++ [name +:+ suffix] |}.
Proof.
  intros Hparts Hdot. unfold with_suffix.
  rewrite Hparts, rev_app_distr, removelast_last. cbn [rev app].
  by rewrite (split_no_sep "." name Hdot).
Qed.

(** The text of a path is the text of its directory followed by its
    final component. *)
Lemma join_last (sep : string) (l : list string) :
  ∃ pre, ∀ s, join sep (l ++ [s]) = pre +:+ s.
Proof.
  induction l as [| a l [pre IH]].
  - exists "". intros s. by rewrite append_nil_l.
  - destruct l as [| b l].
    + exists (a +:+ sep). intros s. cbn [app].
      by rewrite join_cons, append_assoc.
    + exists (a +:+ sep +:+ pre). intros s. cbn [app] in *.
      by rewrite join_cons, IH, !append_assoc.
Qed.

Lemma as_posix_last (a : bool) (l : list string) :
  ∃ pre, ∀ s, as_posix {| absolute := a; parts := l ++ [s] |} = pre +:+ s.
Proof.
  destruct (join_last "/" l) as [pre Hpre]. unfold as_posix. cbn [absolute parts].
  destruct a.
  - exists ("/" +:+ pre). intros s. by rewrite Hpre, append_assoc.
  - exists pre. intros s.
    destruct (l ++ [s]) eqn:Hparts; [by destruct l |].
    by rewrite <- Hparts.
Qed.

Lemma downloads_emit (ev : Event) (w : World) :
  downloads (emit ev w)
  = (if is_download ev then S (downloads w) else downloads w).
Proof.
  unfold downloads, emit. cbn [trace].
  rewrite filter_app, length_app.
  destruct (is_download ev) eqn:Hev.
  - rewrite filter_cons_True by done. cbn. lia.
  - rewrite filter_cons_False by (rewrite Hev; done). cbn. lia.
Qed.

Lemma downloads_set_disk (d : Disk) (w : World) :
  downloads (set_disk d w) = downloads w.
Proof. done. Qed.

End Cache.

(** C7.  The cache file of an entry is
    [<cache_root>/<test_name>/<country>/<YYYY-MM-DD>/<filename>].  When
    that file exists with the entry's size, [download_measurement_container]
    makes no download, touches the file (its mtime becomes the current
    time, nothing else on disk changes) and returns that path.
    Otherwise it downloads the object into a temporary file in the same
    directory, fsyncs it, renames it onto the cache path (the temporary
    file is gone) and only then checks the size on disk against the
    entry's: the path is returned when they agree and [AssertionError]
    is raised when they do not.  The temporary file is the sibling
    [<stem>.s3tmp] of a file name [<stem>.<last>] ([<filename>.s3tmp]
    for a name without a dot): another path than the cache file, unless
    the file name itself ends in [.s3tmp]. *)
Theorem cache_hit_and_miss
    (s3cachedir : S3Feeder.Path) (fe : S3Feeder.FileEntry) (w : S3Feeder.World) :
  let diskf := S3Feeder.output_path fe s3cachedir in
  let p := S3Feeder.as_posix diskf in
  let out := S3Feeder.download_measurement_container s3cachedir fe w in
  (S3Feeder.plain_component (S3Feeder.test_name fe) = true →
   S3Feeder.plain_component (S3Feeder.country_code fe) = true →
   S3Feeder.plain_component (S3Feeder.filename fe) = true →
   S3Feeder.absolute diskf = S3Feeder.absolute s3cachedir
   ∧ S3Feeder.parts diskf
     = S3Feeder.parts s3cachedir
       ++ [S3Feeder.test_name fe; S3Feeder.country_code fe;
           Dates.strftime_Y_m_d (S3Feeder.day fe); S3Feeder.filename fe])
  ∧ (∀ f, S3Feeder.disk w !! p = Some f →
          S3Feeder.st_size f = S3Feeder.size fe →
          out.2 = Ok diskf
          ∧ S3Feeder.downloads out.1 = S3Feeder.downloads w
          ∧ S3Feeder.trace out.1
            = S3Feeder.trace w
              ++ [S3Feeder.MetricIncr "cache_hit"; S3Feeder.Touch p]
          ∧ S3Feeder.disk out.1 !! p
            = Some {| S3Feeder.st_size := S3Feeder.st_size f;
                      S3Feeder.st_mtime := S3Feeder.now w;
                      S3Feeder.data := S3Feeder.data f |}
          ∧ (∀ q, q ≠ p → S3Feeder.disk out.1 !! q = S3Feeder.disk w !! q))
  ∧ (∀ tmpf o,
       (S3Feeder.disk w !! p = None
        ∨ ∃ f, S3Feeder.disk w !! p = Some f
               ∧ S3Feeder.st_size f ≠ S3Feeder.size fe) →
       S3Feeder.with_suffix diskf ".s3tmp" = Ok tmpf →
       S3Feeder.get_object (S3Feeder.s3 w) (S3Feeder.bucket_name fe)
         (S3Feeder.s3path fe) = Some o →
       let tmp := S3Feeder.as_posix tmpf in
       S3Feeder.parent tmpf = S3Feeder.parent diskf
       ∧ S3Feeder.trace out.1
         = S3Feeder.trace w
           ++ [S3Feeder.MetricIncr "cache_miss";
               S3Feeder.Mkdir (S3Feeder.as_posix (S3Feeder.parent diskf));
               S3Feeder.OpenWrite tmp;
               S3Feeder.DownloadFileobj (S3Feeder.bucket_name fe)
                 (S3Feeder.s3path fe) tmp;
               S3Feeder.Fsync tmp;
               S3Feeder.Rename tmp p]
       ∧ S3Feeder.downloads out.1 = S (S3Feeder.downloads w)
       ∧ S3Feeder.disk out.1 !! p
         = Some {| S3Feeder.st_size := S3Feeder.Size o;
                   S3Feeder.st_mtime := S3Feeder.now w;
                   S3Feeder.data := S3Feeder.Body o |}
       ∧ (tmp ≠ p → S3Feeder.disk out.1 !! tmp = None)
       ∧ out.2 = (if decide (S3Feeder.size fe = S3Feeder.Size o)
                  then Ok diskf else Raise AssertionError))
  ∧ (S3Feeder.plain_component (S3Feeder.test_name fe) = true →
     S3Feeder.plain_component (S3Feeder.country_code fe) = true →
     S3Feeder.plain_component (S3Feeder.filename fe) = true →
     let sibling name :=
       {| S3Feeder.absolute := S3Feeder.absolute s3cachedir;
          S3Feeder.parts :=
            S3Feeder.parts s3cachedir
            ++ [S3Feeder.test_name fe; S3Feeder.country_code fe;
                Dates.strftime_Y_m_d (S3Feeder.day fe); name] |} in
     (∀ stem last,
        S3Feeder.filename fe = stem +:+ "." +:+ last →
        stem ≠ "" → last ≠ "" → S3Feeder.mem_char "." last = false →
        S3Feeder.with_suffix diskf ".s3tmp" = Ok (sibling (stem +:+ ".s3tmp"))
        ∧ (last ≠ "s3tmp" →
           S3Feeder.as_posix (sibling (stem +:+ ".s3tmp")) ≠ p))
     ∧ (S3Feeder.mem_char "." (S3Feeder.filename fe) = false →
        S3Feeder.with_suffix diskf ".s3tmp"
        = Ok (sibling (S3Feeder.filename fe +:+ ".s3tmp"))
        ∧ S3Feeder.as_posix (sibling (S3Feeder.filename fe +:+ ".s3tmp")) ≠ p)).
Proof.
  intros diskf p out. split; [| split; [| split]].
  - intros Ht Hc Hf. subst diskf.
    rewrite output_path_parts by done. done.
  - intros f Hf Hsz. subst out. unfold S3Feeder.download_measurement_container.
    fold diskf. fold p. rewrite Hf.
    rewrite bool_decide_eq_true_2 by done. cbn [fst snd].
    split; [done |]. split.
    + unfold S3Feeder.touch.
      by rewrite !downloads_emit, downloads_set_disk, downloads_emit.
    + split.
      * cbn. by rewrite <- (assoc_L (++)).
      * cbn. split.
        -- by rewrite lookup_alter_eq, Hf.
        -- intros q Hq. by rewrite lookup_alter_ne.
  - intros tmpf o Hmiss Htmp Hobj tmp.
    split; [by eapply with_suffix_parent |].
    subst out. unfold S3Feeder.download_measurement_container.
    fold diskf. fold p.
    assert (Hhit : match S3Feeder.disk w !! p with
                   | Some f => bool_decide (S3Feeder.size fe = S3Feeder.st_size f)
                   | None => false
                   end = false).
    { destruct Hmiss as [-> | (f & -> & Hne)]; [done |].
      by rewrite bool_decide_eq_false_2. }
    rewrite Hhit, Htmp. fold tmp. cbn [S3Feeder.s3 S3Feeder.emit S3Feeder.set_disk].
    rewrite Hobj. cbn [S3Feeder.disk S3Feeder.emit S3Feeder.set_disk].
    rewrite lookup_insert_eq. cbn [S3Feeder.st_size].
    assert (Hres : ∀ (w' : S3Feeder.World),
      (if bool_decide (S3Feeder.size fe = S3Feeder.Size o)
       then (w', Ok diskf) else (w', Raise AssertionError))
      = (w', if decide (S3Feeder.size fe = S3Feeder.Size o)
             then Ok diskf else Raise AssertionError)).
    { intros w'. by destruct (decide _); [rewrite bool_decide_eq_true_2
                                         | rewrite bool_decide_eq_false_2]. }
    rewrite Hres. cbn [fst snd].
    split; [| split; [| split; [| split]]].
    + cbn. by rewrite <- !(assoc_L (++)).
    + repeat first [rewrite downloads_emit | rewrite downloads_set_disk].
      done.
    + cbn. by rewrite lookup_insert_eq.
    + intros Hne. cbn. by rewrite lookup_insert_ne, lookup_delete_eq.
    + done.
  - intros Ht Hc Hf sibling.
    assert (Hdiskf : diskf = sibling (S3Feeder.filename fe))
      by (subst diskf sibling; by rewrite output_path_parts).
    destruct (as_posix_last (S3Feeder.absolute s3cachedir)
                (S3Feeder.parts s3cachedir
                 ++ [S3Feeder.test_name fe; S3Feeder.country_code fe;
                     Dates.strftime_Y_m_d (S3Feeder.day fe)]))
      as [pre Hpre].
    assert (Htext : ∀ name, S3Feeder.as_posix (sibling name) = pre +:+ name).
    { intros name. subst sibling. cbn beta. rewrite <- Hpre.
      by rewrite <- (assoc_L (++)). }
    split.
    + intros stem last Hname Hstem Hlast Hdot. split.
      * rewrite Hdiskf.
        rewrite (with_suffix_replaces _
                   (S3Feeder.parts s3cachedir
                    ++ [S3Feeder.test_name fe; S3Feeder.country_code fe;
                        Dates.strftime_Y_m_d (S3Feeder.day fe)])
                   stem last ".s3tmp"); try done.
        -- subst sibling. cbn. by rewrite <- (assoc_L (++)).
        -- subst sibling. cbn. by rewrite Hname, <- (assoc_L (++)).
      * intros Hs3tmp. subst p. rewrite Hdiskf, !Htext, Hname.
        intros Heq. apply (inj (String.app pre)), (inj (String.app stem)) in Heq.
        apply Hs3tmp. by injection Heq.
    + intros Hdot. split.
      * rewrite Hdiskf.
        rewrite (with_suffix_appends _
                   (S3Feeder.parts s3cachedir
                    ++ [S3Feeder.test_name fe; S3Feeder.country_code fe;
                        Dates.strftime_Y_m_d (S3Feeder.day fe)])
                   (S3Feeder.filename fe) ".s3tmp"); try done.
        -- subst sibling. cbn. by rewrite <- (assoc_L (++)).
        -- subst sibling. cbn. by rewrite <- (assoc_L (++)).
      * subst p. rewrite Hdiskf, !Htext.
        intros Heq. apply (inj (String.app pre)) in Heq.
        apply (f_equal String.length) in Heq.
        rewrite length_append in Heq. cbn in Heq. lia.
Qed.

(** A populated and an empty cache, asked for the same minican: on the
    miss the object is written to [2023103115_VE_whatsapp.n1.0.tar.s3tmp]
    next to the cache file, and renamed. *)
Lemma cache_hit_and_miss_witness :
  let fe := Scenarios.minican_entry in
  let root := Scenarios.cache_root in
  let hit_world :=
    {| S3Feeder.disk := Scenarios.minican_disk;
       S3Feeder.s3 := Scenarios.minican_bucket;
       S3Feeder.now := 1700000000; S3Feeder.trace := [] |} in
  let miss_world :=
    {| S3Feeder.disk := ∅;
       S3Feeder.s3 := Scenarios.minican_bucket;
       S3Feeder.now := 1700000000; S3Feeder.trace := [] |} in
  let tmp :=
    "/var/cache/oonidata/whatsapp/VE/2023-10-31/2023103115_VE_whatsapp.n1.0.tar.s3tmp" in
  S3Feeder.as_posix (S3Feeder.output_path fe root) = Scenarios.minican_path
  ∧ S3Feeder.parts (S3Feeder.output_path fe root)
    = ["var"; "cache"; "oonidata"; "whatsapp"; "VE"; "2023-10-31";
       "2023103115_VE_whatsapp.n1.0.tar.gz"]
  ∧ (S3Feeder.download_measurement_container root fe hit_world).2
    = Ok (S3Feeder.output_path fe root)
  ∧ S3Feeder.downloads
      (S3Feeder.download_measurement_container root fe hit_world).1 = 0%nat
  ∧ S3Feeder.with_suffix (S3Feeder.output_path fe root) ".s3tmp"
    = Ok {| S3Feeder.absolute := true;
            S3Feeder.parts :=
              ["var"; "cache"; "oonidata"; "whatsapp"; "VE"; "2023-10-31";
               "2023103115_VE_whatsapp.n1.0.tar.s3tmp"] |}
  ∧ S3Feeder.trace (S3Feeder.download_measurement_container root fe miss_world).1
    = [S3Feeder.MetricIncr "cache_miss";
       S3Feeder.Mkdir "/var/cache/oonidata/whatsapp/VE/2023-10-31";
       S3Feeder.OpenWrite tmp;
       S3Feeder.DownloadFileobj "ooni-data-eu-fra" Scenarios.minican_key tmp;
       S3Feeder.Fsync tmp;
       S3Feeder.Rename tmp Scenarios.minican_path]
  ∧ S3Feeder.disk (S3Feeder.download_measurement_container root fe miss_world).1
    !! tmp = None
  ∧ (S3Feeder.download_measurement_container root fe miss_world).2
    = Ok (S3Feeder.output_path fe root)
  ∧ S3Feeder.downloads
      (S3Feeder.download_measurement_container root fe miss_world).1 = 1%nat.
Proof.
  intros fe root hit_world miss_world tmp.
  pose proof (cache_hit_and_miss root fe hit_world) as (Hpath & Hhit & _ & _).
  pose proof (cache_hit_and_miss root fe miss_world)
    as (_ & _ & Hmiss & Hname).
  assert (Hplain :
    S3Feeder.plain_component (S3Feeder.test_name fe) = true
    ∧ S3Feeder.plain_component (S3Feeder.country_code fe) = true
    ∧ S3Feeder.plain_component (S3Feeder.filename fe) = true)
    by (vm_compute; auto).
  destruct Hplain as (Ht & Hc & Hf).
  destruct (Hpath Ht Hc Hf) as [_ Hparts].
  split; [vm_compute; reflexivity |].
  split; [rewrite Hparts; vm_compute; reflexivity |].
  destruct (Hhit {| S3Feeder.st_size := 52964; S3Feeder.st_mtime := 0;
                    S3Feeder.data := S3Feeder.TarArchive Scenarios.minican_members |})
    as (Hr & Hd & _); [vm_compute; reflexivity | vm_compute; reflexivity |].
  split; [exact Hr |]. split; [rewrite Hd; vm_compute; reflexivity |].
  destruct (Hname Ht Hc Hf) as [Hreplaced _].
  destruct (Hreplaced "2023103115_VE_whatsapp.n1.0.tar" "gz")
    as [Htmpf Hother]; [reflexivity | done | done | reflexivity |].
  specialize (Hother ltac:(done)).
  destruct (Hmiss _
    {| S3Feeder.Key := Scenarios.minican_key; S3Feeder.Size := 52964;
       S3Feeder.Body := S3Feeder.TarArchive Scenarios.minican_members |}
    ltac:(left; vm_compute; reflexivity) Htmpf
    ltac:(vm_compute; reflexivity))
    as (_ & Htrace & Hd' & _ & Hgone & Hr').
  split; [rewrite Htmpf; vm_compute; reflexivity |].
  split; [rewrite Htrace; vm_compute; reflexivity |].
  split; [exact (Hgone Hother) |].
  split; [rewrite Hr'; vm_compute; reflexivity |].
  rewrite Hd'. vm_compute. reflexivity.
Defined.

(* ===================================================================== *)
(** * The streaming driver and single-pass inputs *)
(* ===================================================================== *)

Section SinglePass.
Import Py S3Feeder.
Context `{Collaborators}.

(** X1.  Whatever a generator would have yielded, [stream_measurements]
    spends it on the size total: nothing is fetched, nothing is read,
    nothing is yielded. *)
Lemma stream_measurements_generator (g : gen FileEntry)
    (s3cachedir : Path) (keep_s3_cache : bool) (w : World) :
  raised g = None →
  stream_measurements (PyGenerator g) s3cachedir keep_s3_cache w = (w, gen_done).
Proof.
  intros Hg. unfold stream_measurements. cbn [exhaust]. by rewrite Hg.
Qed.

End SinglePass.

Section ListInput.
Import Py S3Feeder.
Context `{Collaborators}.

Lemma lookups_emit (ev : Event) (w : World) :
  lookups (emit ev w)
  = (if is_cache_lookup ev then S (lookups w) else lookups w).
Proof.
  unfold lookups, emit. cbn [trace].
  rewrite filter_app, length_app.
  destruct (is_cache_lookup ev) eqn:Hev.
  - rewrite filter_cons_True by done. cbn. lia.
  - rewrite filter_cons_False by (rewrite Hev; done). cbn. lia.
Qed.

Lemma lookups_set_disk (d : gmap string DiskFile) (w : World) :
  lookups (set_disk d w) = lookups w.
Proof. done. Qed.

(** Every call of the downloader is one cache lookup. *)
Lemma download_is_one_lookup (s3cachedir : Path) (fe : FileEntry) (w : World) :
  lookups (download_measurement_container s3cachedir fe w).1 = S (lookups w).
Proof.
  unfold download_measurement_container, touch.
  repeat match goal with
         | |- context [match ?x with _ => _ end] => destruct x
         end;
    cbn [fst];
    repeat first [rewrite lookups_emit | rewrite lookups_set_disk];
    done.
Qed.


End ListInput.

(** C2.  The specification asks that every entry handed to [stream_measurements]
    be fetched once and its measurements yielded, also when the entries
    come from the generator of [jsonl_in_range], as in [stream_jsonl].
    On an archive holding one jsonl file with one record, the catalog
    does produce the entry, yet [stream_jsonl] yields nothing and leaves
    the world untouched (no download); handed the same entry in a list,
    the driver downloads the file once and yields its record. *)
Theorem stream_jsonl_yields_nothing :
  let start_day := Dates.ymd 2021 12 30 in
  let end_day := Dates.ymd 2021 12 31 in
  S3Feeder.jsonl_in_range id Scenarios.jsonl_bucket Scenarios.today
    {["IT"]} {["webconnectivity"]} start_day end_day
  = Gen [Scenarios.jsonl_entry] None
  ∧ S3Feeder.stream_jsonl id Scenarios.today Scenarios.jsonl_conf
      start_day end_day Scenarios.jsonl_world
    = (Scenarios.jsonl_world, Gen [] None)
  ∧ (let out := S3Feeder.stream_measurements
                  (PyList [Scenarios.jsonl_entry]) Scenarios.cache_root true
                  Scenarios.jsonl_world in
     S3Feeder.msm <$> yielded out.2 = [S3Feeder.JDict []]
     ∧ raised out.2 = None
     ∧ S3Feeder.downloads out.1 = 1%nat).
Proof. vm_compute. repeat split; reflexivity. Qed.

(* ===================================================================== *)
(** * The catalog *)
(* ===================================================================== *)

Section Catalog.
Import Py Dates S3Feeder.

Lemma matches_filter_true (fe : FileEntry) (ccs testnames : gset string) :
  matches_filter fe ccs testnames = true
  ↔ (ccs = ∅ ∨ country_code fe = "" ∨ country_code fe ∈ ccs)
    ∧ (testnames = ∅ ∨ test_name fe = "" ∨ test_name fe ∈ testnames).
Proof.
  unfold matches_filter, truthy.
  destruct (String.eqb_spec (country_code fe) "") as [-> | Hcc];
    destruct (String.eqb_spec (test_name fe) "") as [-> | Htn];
    repeat case_bool_decide; cbn; naive_solver.
Qed.

Lemma in_range_keep_true (ccs testnames : gset string) (start_day end_day : date)
    (fe : FileEntry) :
  in_range_keep ccs testnames start_day end_day fe = true
  ↔ ext fe = "jsonl.gz" ∧ matches_filter fe ccs testnames = true
    ∧ start_day ≤ day fe < end_day ∧ size fe > 0.
Proof.
  unfold in_range_keep.
  destruct (String.eqb_spec (ext fe) "jsonl.gz") as [Hext | Hext]; cbn;
    [| naive_solver].
  destruct (matches_filter fe ccs testnames); cbn; [| naive_solver].
  repeat case_bool_decide; cbn; split; try naive_solver lia.
Qed.

(** An entry passing the checks satisfies the predicate of the
    specification, up to the empty country code and test name that
    [matches_filter] lets through. *)
Lemma satisfies_filter_matches (ccs testnames : gset string)
    (start_day end_day : date) (fe : FileEntry) :
  satisfies_filter ccs testnames start_day end_day fe →
  matches_filter fe ccs testnames = true ∧ start_day ≤ day fe < end_day.
Proof.
  intros (Hcc & Htn & Hday). split; [| done].
  apply matches_filter_true. naive_solver.
Qed.

Lemma iter_file_entries_yielded (s3 : list (string * S3Object))
    (prefix : string) (fe : FileEntry) :
  fe ∈ yielded (iter_file_entries s3 prefix) →
  ∃ o, o ∈ list_objects s3 MC_BUCKET_NAME prefix ∧ file_entry_of_object o = Ok fe.
Proof.
  unfold iter_file_entries. intros (o & Ho & Hfe)%gen_for_yielded.
  exists o. split; [done |].
  destruct (file_entry_of_object o) as [fe' | e]; cbn in Hfe.
  - by apply list_elem_of_singleton in Hfe as ->.
  - by apply elem_of_nil in Hfe.
Qed.

Lemma list_file_entries_complete (s3 : list (string * S3Object))
    (prefix : string) :
  (∀ o, o ∈ list_objects s3 MC_BUCKET_NAME prefix →
        ∃ fe, file_entry_of_object o = Ok fe) →
  ∃ fe_list, list_file_entries s3 prefix = Ok fe_list
    ∧ ∀ o fe, o ∈ list_objects s3 MC_BUCKET_NAME prefix →
              file_entry_of_object o = Ok fe → fe ∈ fe_list.
Proof.
  intros Hparse. unfold list_file_entries, list_of_gen, iter_file_entries.
  edestruct (gen_for_complete (list_objects s3 MC_BUCKET_NAME prefix)
               (λ f, match file_entry_of_object f with
                     | Ok fe => gen_yield fe
                     | Raise e => gen_raise e
                     end)) as [Hr Hy].
  { intros o Ho. by destruct (Hparse o Ho) as [fe ->]. }
  rewrite Hr. eexists. split; [done |].
  intros o fe Ho Hfe. apply (Hy o fe Ho). rewrite Hfe. cbn. by left.
Qed.

Lemma list_file_entries_sound (s3 : list (string * S3Object))
    (prefix : string) (fe_list : list FileEntry) (fe : FileEntry) :
  list_file_entries s3 prefix = Ok fe_list → fe ∈ fe_list →
  ∃ o, o ∈ list_objects s3 MC_BUCKET_NAME prefix ∧ file_entry_of_object o = Ok fe.
Proof.
  unfold list_file_entries, list_of_gen.
  destruct (raised (iter_file_entries s3 prefix)) eqn:Hr; [done |].
  intros [= <-]. apply iter_file_entries_yielded.
Qed.

Lemma date_interval_Ok (today : date) (start_day end_day : date)
    (days : list date) :
  list_of_gen (date_interval today (Some start_day) end_day) = Ok days →
  start_day < today ∧ days = days_loop start_day (Z.min end_day today).
Proof.
  unfold list_of_gen, date_interval.
  destruct (decide (start_day >= today)); [done |]. cbn.
  intros [= <-]. split; [lia |].
  destruct (decide (end_day < today)); f_equal; lia.
Qed.

(** What [get_jsonl_prefixes] returns, when it returns: the chosen
    [jsonl/] prefixes, then one [raw/YYYYMMDD] prefix for each day of
    the range from 2020-10-20 on and before today. *)
Lemma get_jsonl_prefixes_Ok (s3 : list (string * S3Object)) (today : date)
    (ccs testnames : gset string) (start_day end_day : date)
    (prefixes : list string) :
  get_jsonl_prefixes s3 today ccs testnames start_day end_day = Ok prefixes →
  ∃ chosen,
    prefixes
    = chosen ++ ((λ d, "raw/" +:+ strftime_Ymd d)
                 <$> days_loop (Z.max date_2020_10_20 start_day)
                       (Z.min end_day today))
    ∧ (¬ start_day < date_2020_10_21 → chosen = [])
    ∧ (start_day < date_2020_10_21 →
       ∃ names search,
         (if bool_decide (testnames = ∅) then list_all_testnames s3
          else Ok testnames) = Ok names
         ∧ get_search_prefixes s3 names ccs = Ok search
         ∧ let days := days_loop start_day (Z.min end_day today) in
           let combos := product search days in
           chosen = if decide (Z.of_nat (length combos) > 1000000)
                    then (λ pd, pd.1 +:+ strftime_Ymd pd.2) <$> combos
                    else search).
Proof.
  unfold get_jsonl_prefixes.
  destruct (list_of_gen (date_interval today
              (Some (Z.max date_2020_10_20 start_day)) end_day))
    as [legacy_days | e] eqn:Hlegacy; [| done].
  apply date_interval_Ok in Hlegacy as [_ ->]. cbn [mbind result_bind].
  destruct (if bool_decide (testnames = ∅) then list_all_testnames s3
            else mret testnames) as [names | e] eqn:Hnames; [| done].
  cbn [mbind result_bind].
  destruct (decide (start_day < date_2020_10_21)) as [Hlt | Hge].
  - destruct (get_search_prefixes s3 names ccs) as [search | e] eqn:Hsearch;
      [| done]. cbn [mbind result_bind].
    destruct (list_of_gen (date_interval today (Some start_day) end_day))
      as [days | e] eqn:Hdays; [| done].
    apply date_interval_Ok in Hdays as [_ ->]. cbn [mbind result_bind].
    destruct (decide (Z.of_nat (length (product search
                (days_loop start_day (Z.min end_day today)))) > 1000000))
      as [Hbig | Hsmall]; cbn; intros [= <-]; eexists; (split; [done |]);
      (split; [done |]); intros _; exists names, search;
      (split; [done |]); (split; [done |]); cbn.
    + by rewrite decide_True.
    + by rewrite decide_False.
  - cbn. intros [= <-]. exists []. split; [done |]. split; [done |]. done.
Qed.

End Catalog.

Section SearchPrefixes.
Import Py Dates S3Feeder.

Lemma rev_involutive_string (s : string) : String.rev (String.rev s) = s.
Proof.
  induction s as [| c s IH]; [done |].
  change (String c s) with (String c "" +:+ s).
  rewrite !rev_append. by rewrite IH.
Qed.

Lemma append_inj_r (a b suffix : string) :
  a +:+ suffix = b +:+ suffix → a = b.
Proof.
  intros Heq. apply (f_equal String.rev) in Heq. rewrite !rev_append in Heq.
  apply (inj (String.app _)) in Heq. apply (f_equal String.rev) in Heq.
  by rewrite !rev_involutive_string in Heq.
Qed.

Lemma mem_char_rev_app (c : ascii) (s acc : string) :
  mem_char c (String.rev_app s acc) = mem_char c s || mem_char c acc.
Proof.
  revert acc. induction s as [| x s IH]; intros acc; [done |].
  cbn [String.rev_app]. rewrite IH. cbn.
  destruct (Ascii.eqb x c), (mem_char c s), (mem_char c acc); done.
Qed.

(** No piece of a split holds the separator. *)
Lemma split_go_pieces (sep : ascii) (cur s : string) (x : string) :
  mem_char sep cur = false → x ∈ split_go sep cur s → mem_char sep x = false.
Proof.
  revert cur. induction s as [| c s IH]; intros cur Hcur; cbn [split_go].
  - intros ->%list_elem_of_singleton. unfold String.rev.
    by rewrite mem_char_rev_app, Hcur.
  - destruct (Ascii.eqb c sep) eqn:Hc.
    + intros [-> | Hx]%elem_of_cons.
      * unfold String.rev. by rewrite mem_char_rev_app, Hcur.
      * by apply (IH EmptyString).
    + apply IH. cbn. by rewrite Hc.
Qed.

Lemma common_prefix_of_append (prefix seg rest : string) :
  mem_char "/" seg = false →
  common_prefix_of prefix (prefix +:+ seg +:+ "/" +:+ rest)
  = Some (prefix +:+ seg +:+ "/").
Proof.
  intros Hseg. unfold common_prefix_of. rewrite substring_drop_append.
  change ("/" +:+ rest) with (String "/" rest).
  rewrite split_append_sep, (split_no_sep _ _ Hseg).
  unfold split. destruct (split_go "/" "" rest) eqn:Hrest; [| done].
  by apply split_go_nonempty in Hrest.
Qed.

Lemma common_prefix_of_shape (prefix key p : string) :
  common_prefix_of prefix key = Some p →
  ∃ seg, p = prefix +:+ seg +:+ "/" ∧ mem_char "/" seg = false.
Proof.
  unfold common_prefix_of.
  destruct (split "/" _) as [| seg [| x l]] eqn:Hsplit; try done.
  intros [= <-]. exists seg. split; [done |].
  apply (split_go_pieces "/" EmptyString
           (String.substring (String.length prefix)
              (String.length key - String.length prefix) key)); [done |].
  unfold split in Hsplit. rewrite Hsplit. by left.
Qed.

(** The next-to-last piece of a prefix [<q>/<seg>/] is [seg]. *)
Lemma index_from_end_prefix (q seg : string) :
  mem_char "/" seg = false →
  index_from_end (split "/" ((q +:+ "/") +:+ seg +:+ "/")) 2 = Ok seg.
Proof.
  intros Hseg. rewrite append_assoc.
  change ("/" +:+ seg +:+ "/") with (String "/" (seg +:+ String "/" "")).
  rewrite !split_append_sep, (split_no_sep _ _ Hseg).
  unfold index_from_end. by rewrite !rev_app_distr.
Qed.

Lemma elem_of_list_objects (s3 : list (string * S3Object))
    (bucket prefix : string) (o : S3Object) :
  o ∈ list_objects s3 bucket prefix
  ↔ (bucket, o) ∈ s3 ∧ startswith (Key o) prefix = true.
Proof.
  unfold list_objects. rewrite list_elem_of_fmap. split.
  - intros ([b o'] & -> & [Hb Hin]%list_elem_of_filter). cbn in *.
    apply andb_True in Hb as [->%bool_decide_unpack Hstarts%Is_true_true].
    done.
  - intros [Ho Hp]. exists (bucket, o). split; [done |].
    apply list_elem_of_filter. split; [| done]. cbn.
    apply andb_True. split; [by apply bool_decide_pack | by apply Is_true_true].
Qed.

(** A key [<prefix><seg>/...] puts [<prefix><seg>/] among the common
    prefixes of [prefix]. *)
Lemma elem_of_common_prefixes (s3 : list (string * S3Object))
    (bucket prefix seg rest : string) (o : S3Object) :
  (bucket, o) ∈ s3 → Key o = prefix +:+ seg +:+ "/" +:+ rest →
  mem_char "/" seg = false →
  prefix +:+ seg +:+ "/" ∈ common_prefixes s3 bucket prefix.
Proof.
  intros Ho Hkey Hseg. unfold common_prefixes.
  apply elem_of_remove_dups, list_elem_of_omap. exists o. split.
  - apply elem_of_list_objects. split; [done |].
    rewrite Hkey. apply startswith_append.
  - rewrite Hkey. by apply common_prefix_of_append.
Qed.

Lemma common_prefixes_shape (s3 : list (string * S3Object))
    (bucket prefix p : string) :
  p ∈ common_prefixes s3 bucket prefix →
  ∃ seg, p = prefix +:+ seg +:+ "/" ∧ mem_char "/" seg = false.
Proof.
  unfold common_prefixes.
  intros (o & _ & Hp)%elem_of_remove_dups%list_elem_of_omap.
  by eapply common_prefix_of_shape.
Qed.

(** [list_all_testnames] never raises, and finds every test name that
    has a directory under [jsonl/]. *)
Lemma list_all_testnames_Ok (s3 : list (string * S3Object)) :
  ∃ names, list_all_testnames s3 = Ok names
    ∧ ∀ seg, "jsonl/" +:+ seg +:+ "/" ∈ common_prefixes s3 MC_BUCKET_NAME "jsonl/" →
             mem_char "/" seg = false → seg ∈ names.
Proof.
  unfold list_all_testnames.
  pose proof (common_prefixes_shape s3 MC_BUCKET_NAME "jsonl/") as Hshape.
  generalize dependent (common_prefixes s3 MC_BUCKET_NAME "jsonl/").
  intros l. generalize (∅ : gset string) as init.
  induction l as [| p l IH] using rev_ind; intros init Hshape.
  - exists init. split; [done |]. by intros seg ?%elem_of_nil.
  - destruct (IH init) as (names & Hfold & Hnames).
    { intros p' Hp'. apply Hshape. set_solver. }
    rewrite foldl_app. cbn [foldl]. rewrite Hfold. cbn [mbind result_bind].
    destruct (Hshape p) as (seg & -> & Hseg); [set_solver |].
    change ("jsonl/" +:+ seg +:+ "/") with (("jsonl" +:+ "/") +:+ seg +:+ "/").
    rewrite index_from_end_prefix by done. cbn.
    exists ({[seg]} ∪ names). split; [done |].
    intros seg' [Hin | Heq%list_elem_of_singleton]%elem_of_app Hseg'.
    + apply elem_of_union_r. by apply Hnames.
    + apply elem_of_union_l, elem_of_singleton.
      change (("jsonl" +:+ "/") +:+ seg +:+ "/") with ("jsonl/" +:+ seg +:+ "/")
        in Heq.
      apply (inj (String.app "jsonl/")) in Heq.
      by apply append_inj_r in Heq.
Qed.

(** The inner loop of [get_search_prefixes], over the country
    directories of one test name. *)
Lemma search_countries (ccs : gset string) (q : string) (l : list string)
    (acc : list string) :
  (∀ p, p ∈ l → ∃ seg, p = (q +:+ "/") +:+ seg +:+ "/" ∧ mem_char "/" seg = false) →
  ∃ found,
    foldl (λ acc prefix,
             prefixes ← acc;
             cc ← index_from_end (split "/" prefix) 2;
             if negb (bool_decide (ccs = ∅)) && negb (bool_decide (cc ∈ ccs))
             then mret prefixes
             else mret (prefixes ++ [prefix]))
          (Ok acc) l
    = Ok (acc ++ found)
    ∧ ∀ seg, (q +:+ "/") +:+ seg +:+ "/" ∈ l → mem_char "/" seg = false →
             ccs = ∅ ∨ seg ∈ ccs →
             (q +:+ "/") +:+ seg +:+ "/" ∈ found.
Proof.
  induction l as [| p l IH] using rev_ind; intros Hshape.
  - exists []. rewrite app_nil_r. split; [done |]. by intros seg ?%elem_of_nil.
  - destruct IH as (found & Hfold & Hfound).
    { intros p' Hp'. apply Hshape. set_solver. }
    rewrite foldl_app. cbn [foldl]. rewrite Hfold. cbn [mbind result_bind].
    destruct (Hshape p) as (seg & -> & Hseg); [set_solver |].
    rewrite index_from_end_prefix by done. cbn [mbind result_bind].
    destruct (negb (bool_decide (ccs = ∅)) && negb (bool_decide (seg ∈ ccs)))
      eqn:Hskip; cbn.
    + exists found. split; [done |].
      intros seg' [Hin | Heq%list_elem_of_singleton]%elem_of_app Hseg' Hcc;
        [by apply Hfound |].
      apply (inj (String.app _)), append_inj_r in Heq. subst seg'.
      apply andb_true_iff in Hskip as [Hne Hnin].
      apply negb_true_iff, bool_decide_eq_false in Hne, Hnin. naive_solver.
    + exists (found ++ [(q +:+ "/") +:+ seg +:+ "/"]).
      split; [by rewrite (assoc_L (++)) |].
      intros seg' [Hin | Heq%list_elem_of_singleton]%elem_of_app Hseg' Hcc.
      * apply elem_of_app. left. by apply Hfound.
      * rewrite Heq. apply elem_of_app. right. by left.
Qed.

(** The outer loop of [get_search_prefixes], over the test names. *)
Lemma search_testnames (s3 : list (string * S3Object)) (ccs : gset string)
    (tns : list string) (acc : list string) :
  ∃ found,
    foldl (λ acc tn,
      foldl (λ acc prefix,
               prefixes ← acc;
               cc ← index_from_end (split "/" prefix) 2;
               if negb (bool_decide (ccs = ∅)) && negb (bool_decide (cc ∈ ccs))
               then mret prefixes
               else mret (prefixes ++ [prefix]))
            acc
            (common_prefixes s3 MC_BUCKET_NAME ("jsonl/" +:+ tn +:+ "/")))
      (Ok acc) tns
    = Ok (acc ++ found)
    ∧ ∀ tn cc, tn ∈ tns →
        ("jsonl/" +:+ tn +:+ "/") +:+ cc +:+ "/"
        ∈ common_prefixes s3 MC_BUCKET_NAME ("jsonl/" +:+ tn +:+ "/") →
        mem_char "/" cc = false → ccs = ∅ ∨ cc ∈ ccs →
        ("jsonl/" +:+ tn +:+ "/") +:+ cc +:+ "/" ∈ found.
Proof.
  induction tns as [| tn tns IH] using rev_ind.
  - exists []. rewrite app_nil_r. split; [done |]. by intros tn cc ?%elem_of_nil.
  - destruct IH as (found & Hfold & Hfound).
    rewrite foldl_app. cbn [foldl]. rewrite Hfold.
    destruct (search_countries ccs ("jsonl/" +:+ tn)
                (common_prefixes s3 MC_BUCKET_NAME ("jsonl/" +:+ tn +:+ "/"))
                (acc ++ found)) as (found' & Hfold' & Hfound').
    { intros p Hp. rewrite append_assoc. by apply common_prefixes_shape in Hp. }
    rewrite Hfold'. exists (found ++ found').
    split; [by rewrite (assoc_L (++)) |].
    intros tn' cc [Hin | ->%list_elem_of_singleton]%elem_of_app Hp Hcc Hccs;
      apply elem_of_app; [left; by apply Hfound |].
    right. rewrite <- (append_assoc "jsonl/" tn "/") in Hp |- *.
    by apply Hfound'.
Qed.

(** [get_search_prefixes] never raises, and returns the prefix
    [jsonl/<tn>/<cc>/] of every requested test name and country that
    has objects. *)
Lemma get_search_prefixes_Ok (s3 : list (string * S3Object))
    (testnames ccs : gset string) :
  ∃ found, get_search_prefixes s3 testnames ccs = Ok found
    ∧ ∀ tn cc, tn ∈ testnames →
        ("jsonl/" +:+ tn +:+ "/") +:+ cc +:+ "/"
        ∈ common_prefixes s3 MC_BUCKET_NAME ("jsonl/" +:+ tn +:+ "/") →
        mem_char "/" cc = false → ccs = ∅ ∨ cc ∈ ccs →
        ("jsonl/" +:+ tn +:+ "/") +:+ cc +:+ "/" ∈ found.
Proof.
  destruct (search_testnames s3 ccs (elements testnames) [])
    as (found & Hfold & Hfound).
  exists found. split; [exact Hfold |].
  intros tn cc Htn. apply Hfound. by apply elem_of_elements.
Qed.

End SearchPrefixes.

Section Coverage.
Import Py Dates S3Feeder.

Lemma elem_of_product {A B} (xs : list A) (ys : list B) (x : A) (y : B) :
  x ∈ xs → y ∈ ys → (x, y) ∈ product xs ys.
Proof.
  intros Hx Hy. unfold product.
  apply list_elem_of_bind. exists x. split; [| done].
  apply list_elem_of_bind. exists y. split; [by left | done].
Qed.

(** An object stored as [raw/<YYYYMMDD>...] for a day of the range,
    from 2020-10-20 on and before today, is listed under one of the
    prefixes. *)
Lemma raw_prefix_covers (s3 : list (string * S3Object)) (today : date)
    (ccs testnames : gset string) (start_day end_day : date)
    (prefixes : list string) (o : S3Object) (d : date) (rest : string) :
  get_jsonl_prefixes s3 today ccs testnames start_day end_day = Ok prefixes →
  (MC_BUCKET_NAME, o) ∈ s3 →
  Key o = "raw/" +:+ strftime_Ymd d +:+ rest →
  Z.max date_2020_10_20 start_day ≤ d < Z.min end_day today →
  ∃ prefix, prefix ∈ prefixes ∧ o ∈ list_objects s3 MC_BUCKET_NAME prefix.
Proof.
  intros (chosen & -> & _)%get_jsonl_prefixes_Ok Ho Hkey Hd.
  exists ("raw/" +:+ strftime_Ymd d). split.
  - apply elem_of_app. right. apply list_elem_of_fmap. exists d.
    split; [done |]. by apply elem_of_days_loop.
  - apply elem_of_list_objects. split; [done |].
    rewrite Hkey, <- append_assoc. apply startswith_append.
Qed.

(** An object stored as [jsonl/<tn>/<cc>/<YYYYMMDD>...] for a requested
    test name and country and a day of the range before today is listed
    under one of the prefixes, when the range starts before
    2020-10-21. *)
Lemma jsonl_prefix_covers (s3 : list (string * S3Object)) (today : date)
    (ccs testnames : gset string) (start_day end_day : date)
    (prefixes : list string) (o : S3Object) (tn cc : string) (d : date)
    (rest : string) :
  get_jsonl_prefixes s3 today ccs testnames start_day end_day = Ok prefixes →
  start_day < date_2020_10_21 →
  (MC_BUCKET_NAME, o) ∈ s3 →
  Key o = "jsonl/" +:+ tn +:+ "/" +:+ cc +:+ "/" +:+ strftime_Ymd d +:+ rest →
  mem_char "/" tn = false → mem_char "/" cc = false →
  testnames = ∅ ∨ tn ∈ testnames → ccs = ∅ ∨ cc ∈ ccs →
  start_day ≤ d < Z.min end_day today →
  ∃ prefix, prefix ∈ prefixes ∧ o ∈ list_objects s3 MC_BUCKET_NAME prefix.
Proof.
  intros (chosen & -> & _ & Hjsonl)%get_jsonl_prefixes_Ok Hstart Ho Hkey
    Htn Hcc Htns Hccs Hd.
  destruct (Hjsonl Hstart) as (names & search & Hnames & Hsearch & Hchosen).
  cbn zeta in Hchosen.
  assert (Hname : tn ∈ names).
  { case_bool_decide as Hempty.
    - destruct (list_all_testnames_Ok s3) as (names' & Hall & Hin).
      rewrite Hall in Hnames. injection Hnames as <-.
      apply Hin; [| done].
      by apply (elem_of_common_prefixes s3 MC_BUCKET_NAME "jsonl/" tn
                  (cc +:+ "/" +:+ strftime_Ymd d +:+ rest) o).
    - injection Hnames as <-. by destruct Htns. }
  set (p := ("jsonl/" +:+ tn +:+ "/") +:+ cc +:+ "/").
  assert (Hp : p ∈ search).
  { destruct (get_search_prefixes_Ok s3 names ccs) as (found & Hfound & Hin).
    rewrite Hfound in Hsearch. injection Hsearch as <-.
    apply Hin; [done | | done | done].
    apply (elem_of_common_prefixes s3 MC_BUCKET_NAME _ cc
             (strftime_Ymd d +:+ rest) o); [done | | done].
    by rewrite Hkey, !append_assoc. }
  assert (Hkey' : Key o = p +:+ strftime_Ymd d +:+ rest).
  { subst p. by rewrite Hkey, !append_assoc. }
  destruct (decide (Z.of_nat (length (product search
              (days_loop start_day (Z.min end_day today)))) > 1000000)).
  - exists (p +:+ strftime_Ymd d). split.
    + apply elem_of_app. left. rewrite Hchosen.
      apply list_elem_of_fmap. exists (p, d). split; [done |].
      apply elem_of_product; [done |]. by apply elem_of_days_loop.
    + apply elem_of_list_objects. split; [done |].
      rewrite Hkey', <- append_assoc. apply startswith_append.
  - exists p. split.
    + apply elem_of_app. left. by rewrite Hchosen.
    + apply elem_of_list_objects. split; [done |].
      rewrite Hkey'. apply startswith_append.
Qed.

End Coverage.

(** C5.  The specification asks for the day-by-day cross product of prefixes
    when there are at most 1,000,000 combinations.  For one test name,
    one country and one day there is a single combination, and
    [get_jsonl_prefixes] lists the whole [jsonl/<test_name>/<cc>/]
    prefix, not [jsonl/<test_name>/<cc>/20201019]. *)
Theorem get_jsonl_prefixes_small_query_is_broad :
  S3Feeder.get_search_prefixes Scenarios.legacy_bucket {["webconnectivity"]} {["IT"]}
  = Ok ["jsonl/webconnectivity/IT/"]
  ∧ S3Feeder.date_interval Scenarios.today (Some (Dates.ymd 2020 10 19))
      (Dates.ymd 2020 10 20)
    = Gen [Dates.ymd 2020 10 19] None
  ∧ S3Feeder.get_jsonl_prefixes Scenarios.legacy_bucket Scenarios.today
      {["IT"]} {["webconnectivity"]} (Dates.ymd 2020 10 19) (Dates.ymd 2020 10 20)
    = Ok ["jsonl/webconnectivity/IT/"].
Proof. vm_compute. repeat split; reflexivity. Qed.

(** C6 (as the code has it).  Every entry that [jsonl_in_range] emits
    is a non-empty [jsonl.gz] file with [start_day <= day < end_day]
    whose country is in [ccs] and whose test name is in [testnames] (an
    empty set means all; an empty country code or test name passes
    too).  Conversely, when the prefixes are computed and every object
    listed under them parses, the generator returns normally and emits
    every non-empty [jsonl.gz] entry that satisfies the predicate and is
    listed under one of the prefixes; these cover every object of the
    bucket stored as [raw/<YYYYMMDD>...] (from 2020-10-20 on) or, when
    [start_day] is before 2020-10-21, as
    [jsonl/<test_name>/<cc>/<YYYYMMDD>...] for a requested test name and
    country, for a day of the range that lies before today.  This holds
    in whatever order the pool returns the listings. *)
Theorem jsonl_in_range_filter
    (arrival : list string → list string)
    (s3 : list (string * S3Feeder.S3Object)) (today : date)
    (ccs testnames : gset string) (start_day end_day : date) :
  (∀ l, arrival l ≡ₚ l) →
  let g := S3Feeder.jsonl_in_range arrival s3 today ccs testnames
             start_day end_day in
  (∀ fe, fe ∈ yielded g →
     S3Feeder.ext fe = "jsonl.gz" ∧ S3Feeder.size fe > 0
     ∧ start_day ≤ S3Feeder.day fe < end_day
     ∧ (ccs = ∅ ∨ S3Feeder.country_code fe = "" ∨ S3Feeder.country_code fe ∈ ccs)
     ∧ (testnames = ∅ ∨ S3Feeder.test_name fe = ""
        ∨ S3Feeder.test_name fe ∈ testnames))
  ∧ (∀ prefixes,
       S3Feeder.get_jsonl_prefixes s3 today ccs testnames start_day end_day
       = Ok prefixes →
       (∀ prefix o, prefix ∈ prefixes →
          o ∈ S3Feeder.list_objects s3 S3Feeder.MC_BUCKET_NAME prefix →
          ∃ fe, S3Feeder.file_entry_of_object o = Ok fe) →
       raised g = None
       ∧ (∀ prefix o fe, prefix ∈ prefixes →
            o ∈ S3Feeder.list_objects s3 S3Feeder.MC_BUCKET_NAME prefix →
            S3Feeder.file_entry_of_object o = Ok fe →
            S3Feeder.ext fe = "jsonl.gz" → S3Feeder.size fe > 0 →
            S3Feeder.satisfies_filter ccs testnames start_day end_day fe →
            fe ∈ yielded g)
       ∧ (∀ o fe, (S3Feeder.MC_BUCKET_NAME, o) ∈ s3 →
            S3Feeder.stored_for_query today ccs testnames start_day end_day
              (S3Feeder.Key o) →
            S3Feeder.file_entry_of_object o = Ok fe →
            S3Feeder.ext fe = "jsonl.gz" → S3Feeder.size fe > 0 →
            S3Feeder.satisfies_filter ccs testnames start_day end_day fe →
            fe ∈ yielded g)).
Proof.
  intros Harrival g. split.
  - intros fe Hfe. subst g. unfold S3Feeder.jsonl_in_range in Hfe.
    destruct (S3Feeder.get_jsonl_prefixes s3 today ccs testnames start_day end_day)
      as [prefixes | e]; [| by apply elem_of_nil in Hfe].
    apply gen_for_yielded in Hfe as (prefix & _ & Hfe).
    destruct (S3Feeder.list_file_entries s3 prefix) as [fe_list | e];
      [| by apply elem_of_nil in Hfe].
    apply gen_for_yielded in Hfe as (fe' & _ & Hfe).
    destruct (S3Feeder.in_range_keep ccs testnames start_day end_day fe')
      eqn:Hkeep; [| by apply elem_of_nil in Hfe].
    apply list_elem_of_singleton in Hfe as ->.
    apply in_range_keep_true in Hkeep as (Hext & Hmatch & Hday & Hsize).
    apply matches_filter_true in Hmatch as [Hcc Htn]. done.
  - intros prefixes Hprefixes Hparse.
    assert (Hlisted : raised g = None
      ∧ ∀ prefix o fe, prefix ∈ prefixes →
          o ∈ S3Feeder.list_objects s3 S3Feeder.MC_BUCKET_NAME prefix →
          S3Feeder.file_entry_of_object o = Ok fe →
          S3Feeder.ext fe = "jsonl.gz" → S3Feeder.size fe > 0 →
          S3Feeder.satisfies_filter ccs testnames start_day end_day fe →
          fe ∈ yielded g).
    { subst g. unfold S3Feeder.jsonl_in_range. rewrite Hprefixes.
      edestruct (gen_for_complete (arrival prefixes)
        (λ prefix,
           match S3Feeder.list_file_entries s3 prefix with
           | Ok fe_list =>
               Py.gen_for fe_list
                 (λ file_entry,
                    if S3Feeder.in_range_keep ccs testnames start_day end_day
                         file_entry
                    then Py.gen_yield file_entry else Py.gen_done)
           | Raise e => Py.gen_raise e
           end)) as [Hr Hy].
      { intros prefix Hprefix. rewrite Harrival in Hprefix.
        destruct (list_file_entries_complete s3 prefix) as (fe_list & -> & _);
          [by eauto |].
        apply gen_for_complete. intros fe _.
        by destruct (S3Feeder.in_range_keep _ _ _ _ fe). }
      split; [exact Hr |].
      intros prefix o fe Hprefix Ho Hfe Hext Hsize Hsat.
      apply (Hy prefix); [by rewrite Harrival |].
      destruct (list_file_entries_complete s3 prefix) as (fe_list & -> & Hall);
        [by eauto |].
      edestruct (gen_for_complete fe_list
        (λ file_entry,
           if S3Feeder.in_range_keep ccs testnames start_day end_day file_entry
           then Py.gen_yield file_entry else Py.gen_done)) as [_ Hy'].
      { intros fe' _. by destruct (S3Feeder.in_range_keep _ _ _ _ fe'). }
      apply (Hy' fe); [by eapply Hall |].
      apply satisfies_filter_matches in Hsat as [Hmatch Hday].
      assert (Hkeep : S3Feeder.in_range_keep ccs testnames start_day end_day fe
                      = true) by by apply in_range_keep_true.
      rewrite Hkeep. cbn. by left. }
    destruct Hlisted as [Hr Hlisted]. split; [exact Hr |].
    split; [exact Hlisted |].
    intros o fe Ho (d & rest & Hd & Hstored) Hfe Hext Hsize Hsat.
    assert (Hcovered : ∃ prefix, prefix ∈ prefixes
              ∧ o ∈ S3Feeder.list_objects s3 S3Feeder.MC_BUCKET_NAME prefix).
    { destruct Hstored as [[Hkey Hlegacy]
                           | (tn & cc & Hkey & Hstart & Htn & Hcc & Htns & Hccs)].
      - eapply raw_prefix_covers; [done | done | done | lia].
      - by eapply jsonl_prefix_covers. }
    destruct Hcovered as (prefix & Hprefix & Hlist).
    by eapply Hlisted.
Qed.

(** One jsonl file of 2020-10-19 for Italy, asked for with that
    country, test name and day: it is emitted. *)
Lemma jsonl_in_range_filter_witness :
  let fe := {| S3Feeder.day := Dates.ymd 2020 10 19;
               S3Feeder.country_code := "IT";
               S3Feeder.test_name := "webconnectivity";
               S3Feeder.filename := "20201019_IT_webconnectivity.n0.0.jsonl.gz";
               S3Feeder.size := 10;
               S3Feeder.ext := "jsonl.gz";
               S3Feeder.s3path := Scenarios.legacy_key;
               S3Feeder.bucket_name := S3Feeder.MC_BUCKET_NAME |} in
  fe ∈ yielded (S3Feeder.jsonl_in_range id Scenarios.legacy_bucket
                  Scenarios.today {["IT"]} {["webconnectivity"]}
                  (Dates.ymd 2020 10 19) (Dates.ymd 2020 10 20))
  ∧ S3Feeder.satisfies_filter {["IT"]} {["webconnectivity"]}
      (Dates.ymd 2020 10 19) (Dates.ymd 2020 10 20) fe.
Proof.
  intros fe.
  assert (Hsat : S3Feeder.satisfies_filter {["IT"]} {["webconnectivity"]}
                   (Dates.ymd 2020 10 19) (Dates.ymd 2020 10 20) fe).
  { split; [right; set_solver |]. split; [right; set_solver |].
    vm_compute. split; congruence. }
  split; [| exact Hsat].
  destruct (jsonl_in_range_filter id Scenarios.legacy_bucket Scenarios.today
              {["IT"]} {["webconnectivity"]}
              (Dates.ymd 2020 10 19) (Dates.ymd 2020 10 20))
    as [_ Hcomplete]; [done |].
  destruct (Hcomplete ["jsonl/webconnectivity/IT/"]) as (_ & _ & Hstored);
    [vm_compute; reflexivity | |].
  { intros prefix o ->%list_elem_of_singleton Ho.
    apply list_elem_of_In in Ho. vm_compute in Ho.
    destruct Ho as [<- | []]. eexists. vm_compute. reflexivity. }
  apply (Hstored
           {| S3Feeder.Key := Scenarios.legacy_key; S3Feeder.Size := 10;
              S3Feeder.Body := S3Feeder.TextLines ["{}"] |});
    [apply list_elem_of_In; vm_compute; tauto
     | | vm_compute; reflexivity | reflexivity | vm_compute; reflexivity
     | exact Hsat].
  exists (Dates.ymd 2020 10 19), "/00/20201019_IT_webconnectivity.n0.0.jsonl.gz".
  split; [vm_compute; split; congruence |].
  right. exists "webconnectivity", "IT".
  split; [vm_compute; reflexivity |].
  split; [vm_compute; reflexivity |].
  split; [reflexivity |]. split; [reflexivity |].
  split; right; set_solver.
Defined.

(** C6 (as stated).  An object stored empty parses into an entry that
    satisfies the predicate, and the listing omits it. *)
Lemma empty_object_is_omitted :
  S3Feeder.file_entry_of_object
    {| S3Feeder.Key := Scenarios.legacy_key; S3Feeder.Size := 0;
       S3Feeder.Body := S3Feeder.TextLines [] |}
  = Ok Scenarios.empty_object_entry
  ∧ S3Feeder.satisfies_filter {["IT"]} {["webconnectivity"]}
      (Dates.ymd 2020 10 19) (Dates.ymd 2020 10 20) Scenarios.empty_object_entry
  ∧ S3Feeder.jsonl_in_range id Scenarios.empty_object_bucket Scenarios.today
      {["IT"]} {["webconnectivity"]} (Dates.ymd 2020 10 19) (Dates.ymd 2020 10 20)
    = Gen [] None.
Proof.
  split; [vm_compute; reflexivity |]. split; [| vm_compute; reflexivity].
  split; [right; set_solver |]. split; [right; set_solver |].
  vm_compute. split; congruence.
Qed.

(* ===================================================================== *)
(** * The container reader and failing records *)
(* ===================================================================== *)

Section FailingRecords.
Import Py S3Feeder.
Context `{Collaborators}.

Lemma json_lines_cons (line : string) (lines : list string) :
  json_lines (line :: lines)
  = match ujson_loads line with
    | None => gen_raise ValueError
    | Some msm =>
        Gen (record_of msm :: yielded (json_lines lines))
            (raised (json_lines lines))
    end.
Proof. unfold json_lines. cbn [gen_for]. by destruct (ujson_loads line). Qed.

(** Lines that all parse are all yielded. *)
Lemma json_lines_all_parse (lines : list string) :
  Forall (λ line, is_Some (ujson_loads line)) lines →
  json_lines lines = Gen (record_of <$> omap ujson_loads lines) None.
Proof.
  induction 1 as [| line lines [msm Hline] _ IH]; [done |].
  rewrite json_lines_cons, Hline, IH. cbn. by rewrite Hline.
Qed.

(** The first line that does not parse ends the loop: the records
    before it have been yielded, those after it never are. *)
Lemma json_lines_bad_line (pre post : list string) (bad : string) :
  Forall (λ line, is_Some (ujson_loads line)) pre →
  ujson_loads bad = None →
  json_lines (pre ++ bad :: post)
  = Gen (record_of <$> omap ujson_loads pre) (Some ValueError).
Proof.
  intros Hpre Hbad.
  induction Hpre as [| line pre [msm Hline] _ IH].
  - cbn [app]. by rewrite json_lines_cons, Hbad.
  - cbn [app]. rewrite json_lines_cons, Hline, IH. cbn. by rewrite Hline.
Qed.

Lemma load_multiple_json_lines (disk : Disk) (fn : string) (f : DiskFile)
    (lines : list string) :
  endswith fn ".tar.lz4" = false →
  endswith fn ".json.lz4" = true ∨ endswith fn ".jsonl.gz" = true →
  disk !! fn = Some f → data f = TextLines lines →
  load_multiple disk fn = json_lines lines.
Proof.
  intros Htar Hext Hf Hdata. unfold load_multiple, open_file.
  rewrite Htar, Hf. cbn. rewrite Hdata. cbn.
  destruct Hext as [-> | Hgz]; [done |].
  destruct (endswith fn ".json.lz4"); [done |]. by rewrite Hgz.
Qed.

(** One turn of the driver's loop on an entry that downloads: what
    the reader raises is logged, and the ETA figure decides whether
    the loop goes on. *)
Lemma stream_loop_step (s3cachedir : Path) (keep_s3_cache : bool)
    (t0 : Q) (total_size : Z)
    (fe : FileEntry) (rest : list FileEntry) (processed_size : Z)
    (w w1 : World) (mc : Path) :
  download_measurement_container s3cachedir fe w = (w1, Ok mc) →
  let g := load_multiple (disk w1) (as_posix mc) in
  let w2 := match raised g with
            | Some e => emit (LogError e) w1
            | None => w1
            end in
  stream_loop s3cachedir keep_s3_cache t0 total_size (fe :: rest)
    processed_size w
  = match eta t0 (time_time (length (trace w2))) total_size
            (processed_size + size fe) with
    | Raise e => (w2, Gen (yielded g) (Some e))
    | Ok _ =>
        let w3 := if keep_s3_cache then w2 else unlink (as_posix mc) w2 in
        let next := stream_loop s3cachedir keep_s3_cache t0 total_size rest
                      (processed_size + size fe) w3 in
        (next.1, Gen (yielded g ++ yielded next.2) (raised next.2))
    end.
Proof.
  intros Hdl g w2. cbn [stream_loop]. rewrite Hdl. fold g. fold w2.
  destruct (eta _ _ _ _) as [seconds | e]; [| done].
  cbv zeta. by destruct (stream_loop _ _ _ _ rest _ _).
Qed.

(** A loop over two lists in a row. *)
Lemma gen_for_app {A B} (l1 l2 : list A) (body : A → gen B) :
  gen_for (l1 ++ l2) body = gen_seq (gen_for l1 body) (gen_for l2 body).
Proof.
  induction l1 as [| a l1 IH]; cbn [app gen_for].
  - unfold gen_seq. cbn. by destruct (gen_for l2 body).
  - rewrite IH. unfold gen_seq.
    destruct (body a) as [ya [ea |]]; [done |]. cbn.
    destruct (gen_for l1 body) as [y1 [e1 |]]; [done |]. cbn.
    by rewrite (assoc_L (++)).
Qed.

(** The members of a legacy tar can whose [.json] lines all parse, none
    of them a [.yaml] member: each [.json] member gives its records,
    every other member gives nothing. *)
Lemma legacy_tar_members_run (fn : string) (members : list TarMember) :
  (∀ m, m ∈ members →
     ∃ k, payload m = Some k
          ∧ (endswith (name m) ".json" = false → endswith (name m) ".yaml" = false)
          ∧ (endswith (name m) ".json" = true →
             Forall (λ line, is_Some (ujson_loads line)) k)) →
  gen_for members (legacy_tar_member fn)
  = Gen (concat ((λ m, if endswith (name m) ".json"
                       then record_of <$> omap ujson_loads (default [] (payload m))
                       else []) <$> members)) None.
Proof.
  induction members as [| m members IH]; intros Hmembers; [done |].
  cbn [gen_for fmap list_fmap concat]. rewrite IH by (intros; apply Hmembers; set_solver).
  destruct (Hmembers m) as (k & Hk & Hyaml & Hjson); [set_solver |].
  unfold legacy_tar_member. rewrite Hk. cbn [default].
  destruct (endswith (name m) ".json").
  - by rewrite (json_lines_all_parse k (Hjson eq_refl)).
  - by rewrite (Hyaml eq_refl).
Qed.

End FailingRecords.

Section Minican.
Import Py S3Feeder.
Context `{Collaborators}.

Lemma mem_char_append (c : ascii) (a b : string) :
  mem_char c (a +:+ b) = mem_char c a || mem_char c b.
Proof.
  induction a as [| x a IH]; [done |].
  rewrite append_cons. cbn. by rewrite IH, orb_assoc.
Qed.

Lemma member_yields_run (m : TarMember) (out : list MsmtTup) :
  member_yields m out → minican_member m = Gen out None.
Proof.
  intros [m' k Hk Hpost | m' k items Hk Hpost Hloads Hfmt
          | m' k items dir uid Hk Hname Huid Hloads Hfmt];
    unfold minican_member; rewrite Hk.
  - by rewrite Hpost.
  - rewrite Hpost, Hloads. cbn. rewrite Hfmt.
    by destruct (is_str _ "yaml").
  - assert (Hpost : endswith (name m') ".post" = true).
    { rewrite Hname, <- !append_assoc. apply endswith_append. }
    rewrite Hpost, Hloads. cbn. rewrite Hfmt. cbn.
    rewrite Hname. change ("/" +:+ uid +:+ ".post") with (String "/" (uid +:+ ".post")).
    rewrite rsplit1_append_sep by (by rewrite mem_char_append, Huid).
    cbn [index lookup list_lookup].
    pose proof (slice_drop_last_append uid ".post") as Hs.
    cbn [String.length] in Hs. by rewrite Hs.
Qed.

(** A minican all of whose members are of these kinds is read to its
    end, and yields the [json] envelopes, in order, each under the uid
    that is its file name without the [.post] suffix. *)
Lemma minican_members_run (members : list TarMember)
    (outs : list (list MsmtTup)) :
  Forall2 member_yields members outs →
  gen_for members minican_member = Gen (concat outs) None.
Proof.
  induction 1 as [| m out members outs Hm _ IH]; [done |].
  cbn [gen_for]. rewrite (member_yields_run _ _ Hm), IH. done.
Qed.

(** X2.  A minican on disk all of whose members are of the kinds that
    the reader handles (a member that is not a [.post] file, an envelope
    of another format than [json], a [json] envelope stored as
    [<dir>/<uid>.post]) is read to its end: the reader yields the
    content of the [json] envelopes, in the order of the members, each
    under the uid that is its file name without [.post]. *)
Lemma load_multiple_minican (disk : gmap string DiskFile) (fn : string)
    (f : DiskFile) (members : list TarMember) (outs : list (list MsmtTup)) :
  endswith fn ".tar.lz4" = false → endswith fn ".json.lz4" = false →
  endswith fn ".jsonl.gz" = false → endswith fn ".yaml.lz4" = false →
  endswith fn ".tar.gz" = true →
  disk !! fn = Some f → data f = TarArchive members →
  Forall2 member_yields members outs →
  load_multiple disk fn = Gen (concat outs) None.
Proof.
  intros H1 H2 H3 H4 H5 Hf Hdata Hmembers. unfold load_multiple, open_file.
  rewrite H1, H2, H3, H4, H5, Hf. cbn. rewrite Hdata. cbn.
  by apply minican_members_run.
Qed.

(** In the legacy line formats the uid of every yielded record is the
    hash of the record. *)
Lemma json_lines_uid (lines : list string) (t : MsmtTup) :
  t ∈ yielded (json_lines lines) → msmt_uid t = trivial_id (msm t).
Proof.
  unfold json_lines. intros (line & _ & Ht)%gen_for_yielded.
  destruct (ujson_loads line) as [j |]; cbn in Ht.
  - by apply list_elem_of_singleton in Ht as ->.
  - by apply elem_of_nil in Ht.
Qed.

End Minican.

(** C8.  The specification asks that a minican yield exactly its [.post]
    envelopes of format [json], invalid envelopes being skipped.  In a
    minican whose first envelope does not parse and whose second is a
    well-formed [json] envelope, the handler of the parse failure raises
    [TypeError], and the reader ends without yielding the second
    envelope.  With the broken envelope last, the good one is yielded
    first, under the uid taken from its member name. *)
Theorem minican_bad_envelope_ends_the_reader :
  S3Feeder.ujson_loads (Scenarios.envelope_text "json")
  = Some (S3Feeder.JDict [("format", S3Feeder.JStr "json");
                          ("content", S3Feeder.JDict [])])
  ∧ S3Feeder.ujson_loads "{bad" = None
  ∧ S3Feeder.load_multiple Scenarios.minican_disk Scenarios.minican_path
    = Gen [] (Some TypeError)
  ∧ S3Feeder.load_multiple
      {[ Scenarios.minican_path :=
           {| S3Feeder.st_size := 52964; S3Feeder.st_mtime := 0;
              S3Feeder.data := S3Feeder.TarArchive (rev Scenarios.minican_members) |} ]}
      Scenarios.minican_path
    = Gen [{| S3Feeder.msmt_bytes := None;
              S3Feeder.msm := S3Feeder.JDict [];
              S3Feeder.msmt_uid :=
                "20231031150001.000002_VE_whatsapp_bbbbbbbbbbbbbbbb" |}]
          (Some TypeError).
Proof. vm_compute. repeat split; reflexivity. Qed.

Section ProcessDay.
Import Py Processing.
Context `{Extractors} {Raw : Type}.
Variable load_measurement : Raw → result BaseMeasurement.
Variable json_loads_ok : Raw → bool.

Lemma process_loop_cons (start_at_idx idx : Z) (raw_msmt : Raw)
    (rest : list Raw) (db : list Row) :
  process_loop load_measurement json_loads_ok start_at_idx idx
    (raw_msmt :: rest) db
  = if decide (idx < start_at_idx)
    then process_loop load_measurement json_loads_ok start_at_idx (idx + 1) rest db
    else match process_record load_measurement raw_msmt db with
         | (db', Raise exc) => (db', Raise (reraise json_loads_ok raw_msmt exc))
         | (db', Ok _) =>
             process_loop load_measurement json_loads_ok start_at_idx
               (idx + 1) rest db'
         end.
Proof.
  cbn [process_loop]. unfold process_record.
  destruct (decide (idx < start_at_idx)); [done |].
  by destruct (load_measurement raw_msmt).
Qed.

(** Records that were handled without an exception can be split off
    the front of the loop. *)
Lemma process_loop_app (start_at_idx idx : Z) (pre rest : list Raw)
    (db db1 : list Row) :
  process_loop load_measurement json_loads_ok start_at_idx idx pre db
  = (db1, Ok tt) →
  process_loop load_measurement json_loads_ok start_at_idx idx (pre ++ rest) db
  = process_loop load_measurement json_loads_ok start_at_idx
      (idx + Z.of_nat (length pre)) rest db1.
Proof.
  revert idx db. induction pre as [| raw_msmt pre IH]; intros idx db Hpre.
  - cbn in Hpre. injection Hpre as ->. cbn. by rewrite Z.add_0_r.
  - cbn [app]. rewrite process_loop_cons in Hpre |- *.
    replace (idx + Z.of_nat (length (raw_msmt :: pre)))
      with (idx + 1 + Z.of_nat (length pre)) by (cbn [length]; lia).
    destruct (decide (idx < start_at_idx)); [by apply IH |].
    destruct (process_record load_measurement raw_msmt db) as [db' [[] | exc]]; [| done].
    by apply IH.
Qed.

(** A record whose loading or processing raises stops the day: the
    exception leaves [process_day], and what follows the record has no
    part in the result. *)
Lemma process_day_reraises (start_at_idx : Z) (pre post : list Raw)
    (raw_msmt : Raw) (ending : option exn) (db db1 db2 : list Row) (exc : exn) :
  process_loop load_measurement json_loads_ok start_at_idx 0 pre db
  = (db1, Ok tt) →
  start_at_idx ≤ Z.of_nat (length pre) →
  process_record load_measurement raw_msmt db1 = (db2, Raise exc) →
  process_day load_measurement json_loads_ok
    (Gen (pre ++ raw_msmt :: post) ending) db start_at_idx
  = (db2, Raise (reraise json_loads_ok raw_msmt exc)).
Proof.
  intros Hpre Hstart Hrec. unfold process_day. cbn [yielded raised].
  rewrite (process_loop_app _ _ _ _ _ _ Hpre), process_loop_cons.
  destruct (decide (0 + Z.of_nat (length pre) < start_at_idx)); [lia |].
  by rewrite Hrec.
Qed.

End ProcessDay.

(** C4 (as the code has it).  In a [.json.lz4] or [.jsonl.gz]
    container, and in a [.json] member of a [.tar.lz4] can, a line that
    does not parse ends the container (in a can: the whole can, its
    later members are not read): the records of the lines before it
    have been yielded, the line's [ValueError] leaves the reader, and
    the records after the line are never yielded.  The driver logs
    what a reader raises; the ETA figure computed next either raises
    itself, which ends the stream, or lets the loop go on with the next
    container.  In [process_day] a record whose loading or processing
    raises is not skipped: the exception is raised again and no later
    record is processed. *)
Theorem failing_record_ends_container_or_day
    `{S3Feeder.Collaborators} `{Processing.Extractors} :
  (∀ (disk : gmap string S3Feeder.DiskFile) (fn : string)
     (f : S3Feeder.DiskFile) (pre post : list string) (bad : string),
     Py.endswith fn ".tar.lz4" = false →
     Py.endswith fn ".json.lz4" = true ∨ Py.endswith fn ".jsonl.gz" = true →
     disk !! fn = Some f →
     S3Feeder.data f = S3Feeder.TextLines (pre ++ bad :: post) →
     Forall (λ line, is_Some (S3Feeder.ujson_loads line)) pre →
     S3Feeder.ujson_loads bad = None →
     S3Feeder.load_multiple disk fn
     = Gen (S3Feeder.record_of <$> omap S3Feeder.ujson_loads pre)
           (Some ValueError))
  ∧ (∀ (disk : gmap string S3Feeder.DiskFile) (fn : string)
       (f : S3Feeder.DiskFile) (earlier later : list S3Feeder.TarMember)
       (m : S3Feeder.TarMember) (pre post : list string) (bad : string),
       Py.endswith fn ".tar.lz4" = true →
       disk !! fn = Some f →
       S3Feeder.data f = S3Feeder.TarArchive (earlier ++ m :: later) →
       (∀ m', m' ∈ earlier →
          ∃ k, S3Feeder.payload m' = Some k
               ∧ (Py.endswith (S3Feeder.name m') ".json" = false →
                  Py.endswith (S3Feeder.name m') ".yaml" = false)
               ∧ (Py.endswith (S3Feeder.name m') ".json" = true →
                  Forall (λ line, is_Some (S3Feeder.ujson_loads line)) k)) →
       Py.endswith (S3Feeder.name m) ".json" = true →
       S3Feeder.payload m = Some (pre ++ bad :: post) →
       Forall (λ line, is_Some (S3Feeder.ujson_loads line)) pre →
       S3Feeder.ujson_loads bad = None →
       S3Feeder.load_multiple disk fn
       = Gen (concat
                ((λ m', if Py.endswith (S3Feeder.name m') ".json"
                        then S3Feeder.record_of
                             <$> omap S3Feeder.ujson_loads
                                   (default [] (S3Feeder.payload m'))
                        else []) <$> earlier)
              ++ (S3Feeder.record_of <$> omap S3Feeder.ujson_loads pre))
             (Some ValueError))
  ∧ (∀ (s3cachedir : S3Feeder.Path) (keep_s3_cache : bool)
       (t0 : Q) (total_size : Z)
       (fe : S3Feeder.FileEntry) (rest : list S3Feeder.FileEntry)
       (processed_size : Z) (w w1 : S3Feeder.World) (mc : S3Feeder.Path)
       (before : list S3Feeder.MsmtTup) (e : exn),
       S3Feeder.download_measurement_container s3cachedir fe w = (w1, Ok mc) →
       S3Feeder.load_multiple (S3Feeder.disk w1) (S3Feeder.as_posix mc)
       = Gen before (Some e) →
       let w2 := S3Feeder.emit (S3Feeder.LogError e) w1 in
       S3Feeder.stream_loop s3cachedir keep_s3_cache t0 total_size
         (fe :: rest) processed_size w
       = match S3Feeder.eta t0
                 (S3Feeder.time_time (length (S3Feeder.trace w2)))
                 total_size (processed_size + S3Feeder.size fe) with
         | Raise e' => (w2, Gen before (Some e'))
         | Ok _ =>
             let w3 := if keep_s3_cache then w2
                       else S3Feeder.unlink (S3Feeder.as_posix mc) w2 in
             let next := S3Feeder.stream_loop s3cachedir keep_s3_cache t0
                           total_size rest
                           (processed_size + S3Feeder.size fe) w3 in
             (next.1, Gen (before ++ yielded next.2) (raised next.2))
         end)
  ∧ (∀ (Raw : Type) (load_measurement : Raw → result Processing.BaseMeasurement)
       (json_loads_ok : Raw → bool) (start_at_idx : Z)
       (pre post : list Raw) (raw_msmt : Raw) (ending : option exn)
       (db db1 db2 : list Processing.Row) (exc : exn),
       Processing.process_loop load_measurement json_loads_ok start_at_idx 0
         pre db = (db1, Ok tt) →
       start_at_idx ≤ Z.of_nat (length pre) →
       Processing.process_record load_measurement raw_msmt db1
       = (db2, Raise exc) →
       Processing.process_day load_measurement json_loads_ok
         (Gen (pre ++ raw_msmt :: post) ending) db start_at_idx
       = (db2, Raise (Processing.reraise json_loads_ok raw_msmt exc))).
Proof.
  split; [| split; [| split]].
  - intros disk fn f pre post bad Htar Hext Hf Hdata Hpre Hbad.
    rewrite (load_multiple_json_lines _ _ _ _ Htar Hext Hf Hdata).
    by apply json_lines_bad_line.
  - intros disk fn f earlier later m pre post bad Htar Hf Hdata Hearlier
      Hjson Hpayload Hpre Hbad.
    unfold S3Feeder.load_multiple, S3Feeder.open_file.
    rewrite Htar, Hf. cbn. rewrite Hdata. cbn.
    rewrite gen_for_app, (legacy_tar_members_run fn earlier Hearlier).
    cbn [Py.gen_for]. unfold S3Feeder.legacy_tar_member at 1.
    rewrite Hpayload, Hjson, (json_lines_bad_line pre post bad Hpre Hbad).
    reflexivity.
  - intros s3cachedir keep_s3_cache t0 total_size fe rest processed_size
      w w1 mc before e Hdl Hload w2.
    rewrite (stream_loop_step _ _ _ _ _ _ _ _ _ _ Hdl), Hload. reflexivity.
  - intros Raw load_measurement json_loads_ok start_at_idx pre post raw_msmt
      ending db db1 db2 exc. apply process_day_reraises.
Qed.

(** A container whose first line is broken and whose second line is a
    record, followed by a sound container: the stream carries the record
    of the second container only.  A can whose second member has a
    broken second line: the records of the first member and of the
    line before the broken one, and nothing of what follows.  A day of
    three records whose second fails to load: [process_day] raises
    after the first. *)
Lemma failing_record_ends_container_or_day_witness :
  (let out := S3Feeder.stream_measurements
                (PyList [Scenarios.broken_entry; Scenarios.jsonl_entry])
                Scenarios.cache_root false Scenarios.broken_world in
   S3Feeder.msm <$> yielded out.2 = [S3Feeder.JDict []]
   ∧ raised out.2 = None
   ∧ S3Feeder.LogError ValueError ∈ S3Feeder.trace out.1)
  ∧ (let report lines :=
       {| S3Feeder.name := "2018-01-02/report.json";
          S3Feeder.payload := Some lines |} in
     let fn := "/var/cache/oonidata/webconnectivity/XX/2018-01-02/web_connectivity.0.tar.lz4" in
     let f := {| S3Feeder.st_size := 100; S3Feeder.st_mtime := 0;
                 S3Feeder.data :=
                   S3Feeder.TarArchive
                     [report ["{}"]; report ["{}"; "{bad"; "{}"];
                      report ["{}"]] |} in
     S3Feeder.load_multiple {[ fn := f ]} fn
     = Gen [S3Feeder.record_of (S3Feeder.JDict []);
            S3Feeder.record_of (S3Feeder.JDict [])] (Some ValueError))
  ∧ Processing.process_day (H := Processing.spec_extractors)
      Scenarios.load_by_name (λ _, true)
      (Gen ["good"; "unreadable"; "good"] None) [] 0
    = ([Processing.HTTPRow Scenarios.web_http_obs;
        Processing.TCPRow Scenarios.web_tcp_obs;
        Processing.TLSRow Scenarios.web_tls_obs;
        Processing.DNSRow Scenarios.web_dns_obs], Raise ValueError).
Proof.
  destruct (failing_record_ends_container_or_day
              (H := Scenarios.table_collaborators)
              (H0 := Processing.spec_extractors))
    as (Hlines & Hcan & Hdriver & Hday).
  split; [| split].
  - pose (w1 := (S3Feeder.download_measurement_container Scenarios.cache_root
                   Scenarios.broken_entry Scenarios.broken_world).1).
    pose (mc := S3Feeder.output_path Scenarios.broken_entry Scenarios.cache_root).
    assert (Hload :
      S3Feeder.load_multiple (S3Feeder.disk w1) (S3Feeder.as_posix mc)
      = Gen [] (Some ValueError)).
    { apply (Hlines (S3Feeder.disk w1) (S3Feeder.as_posix mc)
               {| S3Feeder.st_size := 8; S3Feeder.st_mtime := 1640995200;
                  S3Feeder.data := S3Feeder.TextLines ["{bad"; "{}"] |}
               [] ["{}"] "{bad");
        [vm_compute; reflexivity | right; vm_compute; reflexivity
        | vm_compute; reflexivity | reflexivity | constructor
        | vm_compute; reflexivity]. }
    pose proof (Hdriver Scenarios.cache_root false
                  (S3Feeder.time_time 0) 11 Scenarios.broken_entry
                  [Scenarios.jsonl_entry] 0 Scenarios.broken_world w1 mc
                  [] ValueError ltac:(vm_compute; reflexivity) Hload)
      as Hloop.
    unfold S3Feeder.stream_measurements. cbn [Py.exhaust yielded raised].
    change (S3Feeder.sum_sizes [Scenarios.broken_entry; Scenarios.jsonl_entry])
      with 11.
    change (length (S3Feeder.trace Scenarios.broken_world)) with 0%nat.
    cbv zeta in Hloop. rewrite Hloop. vm_compute.
    split; [reflexivity | split; [reflexivity |]].
    apply list_elem_of_In. vm_compute. tauto.
  - intros report fn f.
    apply (Hcan {[ fn := f ]} fn f [report ["{}"]] [report ["{}"]]
             (report ["{}"; "{bad"; "{}"]) ["{}"] ["{}"] "{bad");
      [vm_compute; reflexivity | apply lookup_singleton_eq | reflexivity
      | | vm_compute; reflexivity | reflexivity
      | constructor; [by eexists | constructor] | vm_compute; reflexivity].
    intros m' Hm'. apply list_elem_of_singleton in Hm' as ->.
    eexists. split; [reflexivity |]. split; [vm_compute; congruence |].
    intros _. constructor; [by eexists | constructor].
  - apply (Hday string Scenarios.load_by_name (λ _, true) 0
               ["good"] ["good"] "unreadable" None []
               [Processing.HTTPRow Scenarios.web_http_obs;
                Processing.TCPRow Scenarios.web_tcp_obs;
                Processing.TLSRow Scenarios.web_tls_obs;
                Processing.DNSRow Scenarios.web_dns_obs]
               [Processing.HTTPRow Scenarios.web_http_obs;
                Processing.TCPRow Scenarios.web_tcp_obs;
                Processing.TLSRow Scenarios.web_tls_obs;
                Processing.DNSRow Scenarios.web_dns_obs]
               ValueError);
      [vm_compute; reflexivity | vm_compute; congruence
       | vm_compute; reflexivity].
Defined.

(** C4 (as stated).  The second line of the container parses, and its
    record is not yielded: the reader ends on the first line. *)
Lemma broken_line_loses_later_records :
  omap S3Feeder.ujson_loads ["{bad"; "{}"] = [S3Feeder.JDict []]
  ∧ S3Feeder.load_multiple Scenarios.broken_disk Scenarios.broken_path
    = Gen [] (Some ValueError)
  ∧ S3Feeder.msm
    <$> yielded (S3Feeder.load_multiple Scenarios.broken_disk Scenarios.broken_path)
    ≠ omap S3Feeder.ujson_loads ["{bad"; "{}"].
Proof.
  split; [vm_compute; reflexivity |].
  split; [vm_compute; reflexivity |].
  vm_compute. discriminate.
Qed.

(* ===================================================================== *)
(** * The web_connectivity processor *)
(* ===================================================================== *)

Section Processor.
Import Py Processing.

Lemma write_observations_to_db_app (db : list Row) (observations : list Row) :
  write_observations_to_db db observations = db ++ observations.
Proof.
  unfold write_observations_to_db. revert db.
  induction observations as [| row rows IH]; intros db; cbn [foldl].
  - by rewrite app_nil_r.
  - by rewrite IH, <- (assoc_L (++)).
Qed.

Lemma dict_of_snoc `{Countable K} {V} (items : list (K * V)) (k : K) (v : V) :
  dict_of (items ++ [(k, v)]) = <[k := v]> (dict_of items).
Proof. unfold dict_of. by rewrite foldl_app. Qed.

(** A key that occurs among the items maps to the value of its last
    occurrence. *)
Lemma dict_of_last `{Countable K} {V} (before after : list (K * V)) (k : K) (v : V) :
  (∀ kv, kv ∈ after → kv.1 ≠ k) →
  dict_of (before ++ (k, v) :: after) !! k = Some v.
Proof.
  induction after as [| [k' v'] after IH] using rev_ind; intros Hafter.
  - by rewrite dict_of_snoc, lookup_insert_eq.
  - rewrite app_comm_cons, (assoc_L (++)), dict_of_snoc.
    rewrite lookup_insert_ne.
    + apply IH. intros kv Hkv. apply Hafter. set_solver.
    + apply (Hafter (k', v')). set_solver.
Qed.

(** A key that occurs nowhere is absent. *)
Lemma dict_of_absent `{Countable K} {V} (items : list (K * V)) (k : K) :
  (∀ kv, kv ∈ items → kv.1 ≠ k) → dict_of items !! k = None.
Proof.
  induction items as [| [k' v'] items IH] using rev_ind; intros Hitems.
  - done.
  - rewrite dict_of_snoc, lookup_insert_ne.
    + apply IH. intros kv Hkv. apply Hitems. set_solver.
    + apply (Hitems (k', v')). set_solver.
Qed.

Context `{Extractors}.

(** When the four extractors return, the processor returns, having
    appended the HTTP rows, the TCP rows, the TLS rows and the enriched
    DNS rows, in this order. *)
Lemma web_connectivity_processor_rows (msmt : BaseMeasurement) (db : list Row)
    (http : list HTTPObservation) (dns : list DNSObservation)
    (tcp : list TCPObservation) (tls : list TLSObservation) :
  make_http_observations msmt (requests (test_keys msmt)) = Ok http →
  make_dns_observations msmt (queries (test_keys msmt)) = Ok dns →
  make_tcp_observations msmt (tcp_connect (test_keys msmt))
    (ip_to_domain_of dns) = Ok tcp →
  make_tls_observations msmt (tls_handshakes (test_keys msmt))
    (network_events (test_keys msmt)) (ip_to_domain_of dns) = Ok tls →
  web_connectivity_processor msmt db
  = (db ++ (HTTPRow <$> http) ++ (TCPRow <$> tcp) ++ (TLSRow <$> tls)
        ++ (DNSRow <$> enrich (tls_valid_domain_to_ip_of tls) dns),
     Ok tt).
Proof.
  intros Hhttp Hdns Htcp Htls. unfold web_connectivity_processor.
  rewrite Hhttp, Hdns, Htcp, Htls.
  rewrite !write_observations_to_db_app. by rewrite <- !(assoc_L (++)).
Qed.

Lemma enrich_keeps_observations (m : gmap (option string) (option bool))
    (dns : list DNSObservation) :
  (λ obs, (domain_name obs, answer obs, dns_failure obs)) <$> enrich m dns
  = (λ obs, (domain_name obs, answer obs, dns_failure obs)) <$> dns.
Proof.
  unfold enrich. rewrite <- list_fmap_compose. by apply list_fmap_ext.
Qed.

Lemma nondecreasing_cons_le (a : nat) (l : list nat) :
  Forall (λ b, (a ≤ b)%nat) l → nondecreasing l = true →
  nondecreasing (a :: l) = true.
Proof.
  destruct l as [| b l]; [done |]. intros [Hab _]%Forall_cons Hl.
  cbn [nondecreasing]. apply andb_true_iff. split; [| done].
  by apply Nat.leb_le.
Qed.

(** A block of rows of one category, followed by rows of categories
    that rank no lower, is in order. *)
Lemma in_category_order_block {A} (rank : Table → nat) (mk : A → Row)
    (t : Table) (xs : list A) (rows : list Row) :
  (∀ x, db_table (mk x) = t) →
  Forall (λ row, (rank t ≤ rank (db_table row))%nat) rows →
  in_category_order rank rows = true →
  in_category_order rank ((mk <$> xs) ++ rows) = true.
Proof.
  intros Hmk Hrows Hord. unfold in_category_order in *.
  induction xs as [| x xs IH]; [done |].
  cbn [fmap list_fmap app]. apply nondecreasing_cons_le; [| exact IH].
  rewrite Hmk. rewrite fmap_app, Forall_app. split.
  - apply Forall_fmap, Forall_fmap, Forall_forall. intros y _. cbn.
    by rewrite Hmk.
  - by apply Forall_fmap.
Qed.

(** HTTP rows, then TCP rows, then TLS rows, then DNS rows: the order
    of the processor's [write_observations_to_db] calls. *)
Lemma written_rows_in_category_order (http : list HTTPObservation)
    (tcp : list TCPObservation) (tls : list TLSObservation)
    (dns : list DNSObservation) :
  in_category_order write_category_rank
    ((HTTPRow <$> http) ++ (TCPRow <$> tcp) ++ (TLSRow <$> tls)
     ++ (DNSRow <$> dns)) = true.
Proof.
  apply (in_category_order_block _ _ obs_http); [done | |].
  { rewrite !Forall_app. repeat split; apply Forall_fmap, Forall_forall;
      intros ? _; cbn; lia. }
  apply (in_category_order_block _ _ obs_tcp); [done | |].
  { rewrite !Forall_app. repeat split; apply Forall_fmap, Forall_forall;
      intros ? _; cbn; lia. }
  apply (in_category_order_block _ _ obs_tls); [done | |].
  { apply Forall_fmap, Forall_forall; intros ? _; cbn; lia. }
  rewrite <- (app_nil_r (_ <$> dns)).
  by apply (in_category_order_block _ _ obs_dns).
Qed.

(** The DNS observations of the specification's extractor follow the
    queries, and within a query its answers. *)
Lemma spec_dns_observations_follow_queries (queries_list : list DNSQuery) :
  (λ obs, (domain_name obs, answer obs, dns_failure obs))
  <$> (q ← queries_list;
       match failure q with
       | Some f => [{| domain_name := hostname q; answer := None;
                       dns_failure := Some f; is_tls_consistent := None |}]
       | None => (λ a, {| domain_name := hostname q; answer := Some a;
                          dns_failure := None; is_tls_consistent := None |})
                 <$> answers q
       end)
  = q ← queries_list;
    match failure q with
    | Some f => [(hostname q, None, Some f)]
    | None => (λ a, (hostname q, Some a, None)) <$> answers q
    end.
Proof.
  induction queries_list as [| q qs IH]; [done |].
  cbn [mbind list_bind]. rewrite fmap_app. f_equal; [| exact IH].
  destruct (failure q); [done |].
  rewrite <- list_fmap_compose. by apply list_fmap_ext.
Qed.

End Processor.

(** C1.  The specification asks that a DNS observation for domain [d] carry the
    certificate validity of the TLS observation for [d].  For a
    measurement that resolves example.org to 93.184.216.34 and completes
    a valid handshake with that address, the TLS observation is for
    example.org with [is_certificate_valid = True], and the DNS row is
    written with [is_tls_consistent = None]: the map is keyed by the
    TLS domain and looked up with the DNS answer. *)
Theorem dns_row_is_not_tls_consistent :
  Processing.tls_valid_domain_to_ip_of [Scenarios.web_tls_obs]
  = {[ Some "example.org" := Some true ]}
  ∧ Processing.enrich
      (Processing.tls_valid_domain_to_ip_of [Scenarios.web_tls_obs])
      [Scenarios.web_dns_obs]
    = [Scenarios.web_dns_obs]
  ∧ Processing.web_connectivity_processor (H := Processing.spec_extractors)
      Scenarios.web_msmt []
    = ([Processing.HTTPRow Scenarios.web_http_obs;
        Processing.TCPRow Scenarios.web_tcp_obs;
        Processing.TLSRow Scenarios.web_tls_obs;
        Processing.DNSRow Scenarios.web_dns_obs], Ok tt).
Proof. vm_compute. repeat split; reflexivity. Qed.

(** C3 (as the code has it).  For every measurement, with the
    extractors of the specification, the rows are written in category
    order HTTP first, then TCP, then TLS, then DNS, and within each
    category in the order of the source list in the measurement's
    [test_keys]: one HTTP row per entry of [requests], one TCP row per
    entry of [tcp_connect], one TLS row per entry of [tls_handshakes],
    and the DNS rows query after query of [queries], answer after
    answer within a query. *)
Theorem web_connectivity_rows_http_tcp_tls_dns
    (msmt : Processing.BaseMeasurement) (db : list Processing.Row) :
  ∃ (http : list Processing.HTTPObservation)
    (tcp : list Processing.TCPObservation)
    (tls : list Processing.TLSObservation)
    (dns : list Processing.DNSObservation),
    Processing.web_connectivity_processor (H := Processing.spec_extractors)
      msmt db
    = (db ++ (Processing.HTTPRow <$> http) ++ (Processing.TCPRow <$> tcp)
          ++ (Processing.TLSRow <$> tls) ++ (Processing.DNSRow <$> dns),
       Ok tt)
    ∧ Processing.in_category_order Processing.write_category_rank
        ((Processing.HTTPRow <$> http) ++ (Processing.TCPRow <$> tcp)
         ++ (Processing.TLSRow <$> tls) ++ (Processing.DNSRow <$> dns))
      = true
    ∧ Processing.request_url <$> http
      = Processing.url <$> Processing.requests (Processing.test_keys msmt)
    ∧ (λ obs, (Processing.tcp_ip obs, Processing.tcp_port obs,
               Processing.tcp_success obs)) <$> tcp
      = (λ c, (Processing.ip c, Processing.port c, Processing.success c))
        <$> Processing.tcp_connect (Processing.test_keys msmt)
    ∧ (λ obs, (Processing.tls_ip obs, Processing.is_certificate_valid obs))
      <$> tls
      = (λ h, (Processing.peer_ip h, Processing.cert_valid h))
        <$> Processing.tls_handshakes (Processing.test_keys msmt)
    ∧ (λ obs, (Processing.domain_name obs, Processing.answer obs,
               Processing.dns_failure obs)) <$> dns
      = q ← Processing.queries (Processing.test_keys msmt);
        match Processing.failure q with
        | Some f => [(Processing.hostname q, None, Some f)]
        | None => (λ a, (Processing.hostname q, Some a, None))
                  <$> Processing.answers q
        end.
Proof.
  eexists _, _, _, _. split.
  { apply (web_connectivity_processor_rows (H := Processing.spec_extractors));
      reflexivity. }
  split; [apply written_rows_in_category_order |].
  split; [by rewrite <- list_fmap_compose |].
  split; [by rewrite <- list_fmap_compose |].
  split; [by rewrite <- list_fmap_compose |].
  rewrite enrich_keeps_observations.
  apply spec_dns_observations_follow_queries.
Qed.

(** The measurement of example.org: four rows, HTTP first, DNS last,
    each made from the one entry of its source list. *)
Lemma web_connectivity_rows_http_tcp_tls_dns_witness :
  ∃ (http : list Processing.HTTPObservation)
    (tcp : list Processing.TCPObservation)
    (tls : list Processing.TLSObservation)
    (dns : list Processing.DNSObservation),
    Processing.web_connectivity_processor (H := Processing.spec_extractors)
      Scenarios.web_msmt []
    = ((Processing.HTTPRow <$> http) ++ (Processing.TCPRow <$> tcp)
          ++ (Processing.TLSRow <$> tls) ++ (Processing.DNSRow <$> dns),
       Ok tt)
    ∧ Processing.request_url <$> http = ["https://example.org/"]
    ∧ (λ obs, (Processing.tcp_ip obs, Processing.tcp_port obs,
               Processing.tcp_success obs)) <$> tcp
      = [("93.184.216.34", 443, true)]
    ∧ (λ obs, (Processing.tls_ip obs, Processing.is_certificate_valid obs))
      <$> tls
      = [("93.184.216.34", Some true)]
    ∧ (λ obs, (Processing.domain_name obs, Processing.answer obs,
               Processing.dns_failure obs)) <$> dns
      = [("example.org", Some "93.184.216.34", None)].
Proof.
  destruct (web_connectivity_rows_http_tcp_tls_dns Scenarios.web_msmt [])
    as (http & tcp & tls & dns & Hrows & _ & Hhttp & Htcp & Htls & Hdns).
  exists http, tcp, tls, dns.
  split; [exact Hrows |]. split; [exact Hhttp |]. split; [exact Htcp |].
  split; [exact Htls | exact Hdns].
Defined.

(** C3 (as stated).  The rows of the example.org measurement are not in
    the order DNS, TCP, TLS, HTTP: the HTTP row is written first and
    the DNS row last. *)
Lemma web_connectivity_rows_not_dns_first :
  Processing.db_table
  <$> (Processing.web_connectivity_processor (H := Processing.spec_extractors)
         Scenarios.web_msmt []).1
  = [Processing.obs_http; Processing.obs_tcp; Processing.obs_tls;
     Processing.obs_dns]
  ∧ Processing.in_category_order Processing.spec_category_rank
      (Processing.web_connectivity_processor (H := Processing.spec_extractors)
         Scenarios.web_msmt []).1
    = false.
Proof. vm_compute. split; reflexivity. Qed.

(** C9.  When one IP is answered by several DNS observations, the
    [ip_to_domain] mapping holds for it the domain of the last of them
    in the order of the observations; the processor writes, for every
    entry of [tcp_connect] and every entry of [tls_handshakes] with
    that IP, a TCP row, respectively a TLS row, that carries that
    domain, and no TCP or TLS row written for that IP carries another. *)
Theorem ip_to_domain_last_observation_wins
    (msmt : Processing.BaseMeasurement)
    (before after : list Processing.DNSObservation)
    (o : Processing.DNSObservation) (ip : string) :
  Processing.spec_make_dns_observations msmt
    (Processing.queries (Processing.test_keys msmt))
  = Ok (before ++ o :: after) →
  Processing.answer o = Some ip →
  (∀ o', o' ∈ after → Processing.answer o' ≠ Some ip) →
  Processing.ip_to_domain_of (before ++ o :: after) !! Some ip
  = Some (Processing.domain_name o)
  ∧ ∃ rows,
      Processing.web_connectivity_processor (H := Processing.spec_extractors)
        msmt [] = (rows, Ok tt)
      ∧ (∀ c, c ∈ Processing.tcp_connect (Processing.test_keys msmt) →
              Processing.ip c = ip →
              Processing.TCPRow
                {| Processing.tcp_domain_name :=
                     Some (Processing.domain_name o);
                   Processing.tcp_ip := ip;
                   Processing.tcp_port := Processing.port c;
                   Processing.tcp_success := Processing.success c |}
              ∈ rows)
      ∧ (∀ h, h ∈ Processing.tls_handshakes (Processing.test_keys msmt) →
              Processing.peer_ip h = ip →
              Processing.TLSRow
                {| Processing.domain := Some (Processing.domain_name o);
                   Processing.tls_ip := ip;
                   Processing.is_certificate_valid :=
                     Processing.cert_valid h |}
              ∈ rows)
      ∧ (∀ t, Processing.TCPRow t ∈ rows → Processing.tcp_ip t = ip →
              Processing.tcp_domain_name t = Some (Processing.domain_name o))
      ∧ (∀ t, Processing.TLSRow t ∈ rows → Processing.tls_ip t = ip →
              Processing.domain t = Some (Processing.domain_name o)).
Proof.
  intros Hdns Hans Hafter.
  assert (Hmap : Processing.ip_to_domain_of (before ++ o :: after) !! Some ip
                 = Some (Processing.domain_name o)).
  { unfold Processing.ip_to_domain_of. rewrite fmap_app, fmap_cons, Hans.
    apply dict_of_last. intros kv (o' & -> & Ho')%list_elem_of_fmap.
    by apply Hafter. }
  split; [exact Hmap |].
  eexists. split.
  { rewrite (web_connectivity_processor_rows (H := Processing.spec_extractors)
               msmt [] _ _ _ _ eq_refl Hdns eq_refl eq_refl).
    reflexivity. }
  cbn [app]. split; [| split; [| split]].
  - intros c Hc Hip. rewrite !elem_of_app. right. left.
    apply list_elem_of_fmap. eexists. split; [reflexivity |].
    apply list_elem_of_fmap. exists c. split; [| exact Hc].
    by rewrite Hip, Hmap.
  - intros h Hh Hip. rewrite !elem_of_app. right. right. left.
    apply list_elem_of_fmap. eexists. split; [reflexivity |].
    apply list_elem_of_fmap. exists h. split; [| exact Hh].
    by rewrite Hip, Hmap.
  - intros t Ht Hip. rewrite !elem_of_app in Ht.
    destruct Ht as [Ht | [Ht | [Ht | Ht]]];
      apply list_elem_of_fmap in Ht as (x & Hx & Hin); try discriminate Hx.
    injection Hx as ->.
    apply list_elem_of_fmap in Hin as (c & -> & _).
    cbn in Hip |- *. by rewrite Hip.
  - intros t Ht Hip. rewrite !elem_of_app in Ht.
    destruct Ht as [Ht | [Ht | [Ht | Ht]]];
      apply list_elem_of_fmap in Ht as (x & Hx & Hin); try discriminate Hx.
    injection Hx as ->.
    apply list_elem_of_fmap in Hin as (c & -> & _).
    cbn in Hip |- *. by rewrite Hip.
Qed.

(** 10.0.0.1 answered for first.example and then for second.example:
    the TCP and TLS rows for 10.0.0.1 belong to second.example. *)
Lemma ip_to_domain_last_observation_wins_witness :
  ∃ rows,
    Processing.web_connectivity_processor (H := Processing.spec_extractors)
      Scenarios.shared_ip_msmt [] = (rows, Ok tt)
    ∧ Processing.TCPRow
        {| Processing.tcp_domain_name := Some "second.example";
           Processing.tcp_ip := "10.0.0.1"; Processing.tcp_port := 80;
           Processing.tcp_success := true |} ∈ rows
    ∧ Processing.TLSRow
        {| Processing.domain := Some "second.example";
           Processing.tls_ip := "10.0.0.1";
           Processing.is_certificate_valid := Some false |} ∈ rows
    ∧ (∀ t, Processing.TCPRow t ∈ rows → Processing.tcp_ip t = "10.0.0.1" →
            Processing.tcp_domain_name t = Some "second.example")
    ∧ (∀ t, Processing.TLSRow t ∈ rows → Processing.tls_ip t = "10.0.0.1" →
            Processing.domain t = Some "second.example").
Proof.
  pose (first_obs := {| Processing.domain_name := "first.example";
                        Processing.answer := Some "10.0.0.1";
                        Processing.dns_failure := None;
                        Processing.is_tls_consistent := None |}).
  pose (second_obs := {| Processing.domain_name := "second.example";
                         Processing.answer := Some "10.0.0.1";
                         Processing.dns_failure := None;
                         Processing.is_tls_consistent := None |}).
  destruct (ip_to_domain_last_observation_wins Scenarios.shared_ip_msmt
              [first_obs] [] second_obs "10.0.0.1")
    as (_ & rows & Hrows & Hhas_tcp & Hhas_tls & Htcp & Htls);
    [vm_compute; reflexivity | reflexivity
     | by intros o' ?%elem_of_nil |].
  exists rows. split; [exact Hrows |].
  split.
  { apply (Hhas_tcp {| Processing.ip := "10.0.0.1"; Processing.port := 80;
                       Processing.success := true |});
      [apply list_elem_of_singleton | ]; reflexivity. }
  split.
  { apply (Hhas_tls {| Processing.peer_ip := "10.0.0.1";
                       Processing.cert_valid := Some false |});
      [apply list_elem_of_singleton | ]; reflexivity. }
  split; [exact Htcp | exact Htls].
Defined.

(* ===================================================================== *)
(** * Calendar arithmetic *)
(* ===================================================================== *)

Section Calendar.
Import Dates.

Lemma is_leap_true (y : Z) :
  is_leap y = true ↔ y mod 4 = 0 ∧ (y mod 100 ≠ 0 ∨ y mod 400 = 0).
Proof.
  unfold is_leap. rewrite andb_true_iff, orb_true_iff, negb_true_iff.
  rewrite !Z.eqb_eq, Z.eqb_neq. done.
Qed.

(** The days before a year, by 400-, 100-, 4- and 1-year cycles. *)
Lemma days_before_year_cycles (a b c e : Z) :
  0 ≤ a → 0 ≤ b < 4 → 0 ≤ c < 25 → 0 ≤ e < 4 →
  days_before_year (400 * a + 100 * b + 4 * c + e + 1)
  = 146097 * a + 36524 * b + 1461 * c + 365 * e.
Proof.
  intros Ha Hb Hc He. unfold days_before_year. cbn zeta.
  replace (400 * a + 100 * b + 4 * c + e + 1 - 1)
    with (400 * a + 100 * b + 4 * c + e) by lia.
  assert (H4 : (400 * a + 100 * b + 4 * c + e) / 4 = 100 * a + 25 * b + c)
    by (symmetry; apply Z.div_unique with e; lia).
  assert (H100 : (400 * a + 100 * b + 4 * c + e) / 100 = 4 * a + b)
    by (symmetry; apply Z.div_unique with (4 * c + e); lia).
  assert (H400 : (400 * a + 100 * b + 4 * c + e) / 400 = a)
    by (symmetry; apply Z.div_unique with (100 * b + 4 * c + e); lia).
  rewrite H4, H100, H400. lia.
Qed.

Lemma is_leap_cycles (a b c e : Z) :
  0 ≤ a → 0 ≤ b < 4 → 0 ≤ c < 25 → 0 ≤ e < 4 →
  is_leap (400 * a + 100 * b + 4 * c + e + 1)
  = (e =? 3) && (negb (c =? 24) || (b =? 3)).
Proof.
  intros Ha Hb Hc He.
  set (y := 400 * a + 100 * b + 4 * c + e + 1).
  assert (H4 : y mod 4 = (e + 1) mod 4).
  { subst y. replace (400 * a + 100 * b + 4 * c + e + 1)
      with ((e + 1) + (100 * a + 25 * b + c) * 4) by lia.
    apply Z.mod_add. lia. }
  assert (H100 : y mod 100 = (4 * c + e + 1) mod 100).
  { subst y. replace (400 * a + 100 * b + 4 * c + e + 1)
      with ((4 * c + e + 1) + (4 * a + b) * 100) by lia.
    apply Z.mod_add. lia. }
  assert (H400 : y mod 400 = (100 * b + 4 * c + e + 1) mod 400).
  { subst y. replace (400 * a + 100 * b + 4 * c + e + 1)
      with ((100 * b + 4 * c + e + 1) + a * 400) by lia.
    apply Z.mod_add. lia. }
  apply eq_true_iff_eq. rewrite is_leap_true, H4, H100, H400.
  rewrite andb_true_iff, orb_true_iff, negb_true_iff, !Z.eqb_eq, Z.eqb_neq.
  assert (He' : e = 0 ∨ e = 1 ∨ e = 2 ∨ e = 3) by lia.
  assert (Hm4 : (e + 1) mod 4 = 0 ↔ e = 3).
  { Z.to_euclidean_division_equations; lia. }
  assert (Hm100 : (4 * c + e + 1) mod 100 = 0 ↔ c = 24 ∧ e = 3).
  { Z.to_euclidean_division_equations; lia. }
  assert (Hm400 : (100 * b + 4 * c + e + 1) mod 400 = 0 ↔ b = 3 ∧ c = 24 ∧ e = 3).
  { Z.to_euclidean_division_equations; lia. }
  rewrite Hm4, Hm100, Hm400. clear.
  destruct (decide (c = 24)); tauto.
Qed.

(** Month lengths depend on the year through its leap flag only. *)
Lemma days_in_month_leap (y y' m : Z) :
  is_leap y = is_leap y' → days_in_month y m = days_in_month y' m.
Proof. unfold days_in_month. by intros ->. Qed.

Lemma days_before_month_leap (y y' m : Z) :
  is_leap y = is_leap y' → days_before_month y m = days_before_month y' m.
Proof.
  intros Hl. unfold days_before_month.
  induction (Z.to_nat (m - 1)) as [| k IH]; [done |].
  cbn [days_before_month_go]. by rewrite IH, (days_in_month_leap y y').
Qed.


Lemma days_before_month_rep (y : Z) :
  ∃ y0, (y0 = 1 ∨ y0 = 4) ∧ is_leap y = is_leap y0.
Proof.
  destruct (is_leap y) eqn:E; [exists 4 | exists 1]; split; auto.
Qed.

(** The month and day of the [r]-th day of a year, as [_ord2ymd]
    estimates and corrects them. *)
Lemma month_estimate (y r : Z) :
  0 ≤ r < 365 →
  let month := Z.shiftr (r + 50) 5 in
  let preceding := days_before_month y month in
  let md := if r <? preceding
            then (month - 1,
                  r - (preceding - days_in_month y (month - 1)) + 1)
            else (month, r - preceding + 1) in
  1 ≤ md.1 ≤ 12 ∧ 1 ≤ md.2 ≤ days_in_month y md.1 ∧
  days_before_month y md.1 + md.2 = r + 1.
Proof.
  intros Hr.
  destruct (days_before_month_rep y) as (y0 & Hy0 & Hl).
  cbv zeta.
  rewrite !(days_before_month_leap y y0 _ Hl), !(days_in_month_leap y y0 _ Hl).
  clear Hl y.
  assert (Hall : ∀ y0, y0 = 1 ∨ y0 = 4 →
    forallb (λ r,
      let month := Z.shiftr (r + 50) 5 in
      let preceding := days_before_month y0 month in
      let md := if r <? preceding
                then (month - 1,
                      r - (preceding - days_in_month y0 (month - 1)) + 1)
                else (month, r - preceding + 1) in
      (1 <=? md.1) && (md.1 <=? 12) && (1 <=? md.2) &&
      (md.2 <=? days_in_month y0 md.1) &&
      (days_before_month y0 md.1 + md.2 =? r + 1)) (seqZ 0 365) = true).
  { by intros ? [-> | ->]; vm_compute. }
  specialize (Hall y0 Hy0). rewrite forallb_forall in Hall.
  specialize (Hall r). cbv zeta in Hall.
  rewrite !andb_true_iff, !Z.leb_le, Z.eqb_eq in Hall.
  assert (Hin : In r (seqZ 0 365))
    by (apply list_elem_of_In, elem_of_seqZ; lia).
  specialize (Hall Hin). tauto.
Qed.


Lemma days_before_month_12 (y : Z) :
  days_before_month y 12 + 31 = if is_leap y then 366 else 365.
Proof.
  destruct (days_before_month_rep y) as (y0 & Hy0 & Hl).
  rewrite (days_before_month_leap y y0 _ Hl), Hl.
  by destruct Hy0 as [-> | ->].
Qed.

(** [_ord2ymd] inverts [date(y, m, d).toordinal()]: the triple it
    returns is a calendar date whose ordinal is the argument. *)
Lemma ord2ymd_ymd (n : date) :
  1 ≤ n →
  ∃ y m d, ord2ymd n = (y, m, d) ∧
    1 ≤ y ∧ 1 ≤ m ≤ 12 ∧ 1 ≤ d ≤ days_in_month y m ∧ ymd y m d = n.
Proof.
  intros Hn. unfold ord2ymd. cbv zeta.
  pose proof (Z.div_mod (n - 1) 146097 ltac:(lia)) as E1.
  pose proof (Z.mod_pos_bound (n - 1) 146097 ltac:(lia)) as B1.
  assert (A1 : 0 ≤ (n - 1) / 146097) by (apply Z.div_pos; lia).
  set (a := (n - 1) / 146097) in *. set (r1 := (n - 1) mod 146097) in *.
  clearbody a r1.
  pose proof (Z.div_mod r1 36524 ltac:(lia)) as E2.
  pose proof (Z.mod_pos_bound r1 36524 ltac:(lia)) as B2.
  assert (A2 : 0 ≤ r1 / 36524) by (apply Z.div_pos; lia).
  set (b := r1 / 36524) in *. set (r2 := r1 mod 36524) in *.
  clearbody b r2.
  pose proof (Z.div_mod r2 1461 ltac:(lia)) as E3.
  pose proof (Z.mod_pos_bound r2 1461 ltac:(lia)) as B3.
  assert (A3 : 0 ≤ r2 / 1461) by (apply Z.div_pos; lia).
  set (c := r2 / 1461) in *. set (r3 := r2 mod 1461) in *.
  clearbody c r3.
  pose proof (Z.div_mod r3 365 ltac:(lia)) as E4.
  pose proof (Z.mod_pos_bound r3 365 ltac:(lia)) as B4.
  assert (A4 : 0 ≤ r3 / 365) by (apply Z.div_pos; lia).
  set (e := r3 / 365) in *. set (r4 := r3 mod 365) in *.
  clearbody e r4.
  destruct ((e =? 4) || (b =? 4)) eqn:Hlast.
  - (* the last day of a leap year *)
    apply orb_true_iff in Hlast. rewrite !Z.eqb_eq in Hlast.
    exists (a * 400 + 1 + b * 100 + c * 4 + e - 1), 12, 31.
    assert (Hy : ∃ b' c', 0 ≤ b' < 4 ∧ 0 ≤ c' < 25 ∧ (c' = 24 → b' = 3) ∧
      a * 400 + 1 + b * 100 + c * 4 + e - 1
      = 400 * a + 100 * b' + 4 * c' + 3 + 1 ∧
      n = 146097 * a + 36524 * b' + 1461 * c' + 365 * 3 + 366).
    { destruct Hlast as [-> | ->].
      - exists b, c. repeat split; lia.
      - exists 3, 24. repeat split; lia. }
    destruct Hy as (b' & c' & Hb' & Hc' & Hbc & -> & Hn').
    assert (Hleap : is_leap (400 * a + 100 * b' + 4 * c' + 3 + 1) = true).
    { rewrite is_leap_cycles by lia. apply andb_true_iff; split; [done |].
      apply orb_true_iff. rewrite negb_true_iff, Z.eqb_neq, Z.eqb_eq.
      destruct (decide (c' = 24)); [right | left]; auto. }
    split; [done |]. split; [lia |]. split; [lia |]. split.
    + unfold days_in_month. cbn. lia.
    + unfold ymd.
      pose proof (days_before_month_12 (400 * a + 100 * b' + 4 * c' + 3 + 1))
        as H12.
      rewrite Hleap in H12. rewrite days_before_year_cycles by lia. lia.
  - apply orb_false_iff in Hlast. rewrite !Z.eqb_neq in Hlast.
    assert (He : 0 ≤ e < 4) by lia. assert (Hb : 0 ≤ b < 4) by lia.
    assert (Hc : 0 ≤ c < 25) by lia.
    replace (a * 400 + 1 + b * 100 + c * 4 + e)
      with (400 * a + 100 * b + 4 * c + e + 1) by lia.
    set (y := 400 * a + 100 * b + 4 * c + e + 1).
    pose proof (month_estimate y r4 B4) as Hmd. cbv zeta in Hmd.
    destruct (r4 <? days_before_month y (Z.shiftr (r4 + 50) 5)).
    + eexists _, _, _. split; [done |]. cbn [fst snd] in Hmd.
      split; [subst y; lia |]. split; [lia |]. split; [lia |].
      unfold ymd. subst y. rewrite days_before_year_cycles by lia.
      fold (400 * a + 100 * b + 4 * c + e + 1) in *. lia.
    + eexists _, _, _. split; [done |]. cbn [fst snd] in Hmd.
      split; [subst y; lia |]. split; [lia |]. split; [lia |].
      unfold ymd. subst y. rewrite days_before_year_cycles by lia.
      lia.
Qed.

End Calendar.

Section Strptime.
Import Py Dates S3Feeder.

Lemma days_before_month_go_nonneg (y : Z) (k : nat) :
  0 ≤ days_before_month_go y k.
Proof.
  induction k as [| k IH]; [done |]. cbn [days_before_month_go].
  assert (0 ≤ days_in_month y (Z.of_nat (S k))); [| lia].
  unfold days_in_month. repeat case_match; lia.
Qed.

(** Ordinals up to [date.max] have years of four digits. *)
Lemma ord2ymd_year_bound (n : date) (y m d : Z) :
  1 ≤ n ≤ 3652059 → ord2ymd n = (y, m, d) → y ≤ 9999.
Proof.
  intros Hn Hy. destruct (ord2ymd_ymd n) as (y' & m' & d' & E & Hy1 & _ & Hd & Hymd);
    [lia |]. rewrite Hy in E. injection E as <- <- <-.
  unfold ymd, days_before_month, days_before_year in Hymd.
  pose proof (days_before_month_go_nonneg y (Z.to_nat (m - 1))).
  cbv zeta in Hymd. Z.to_euclidean_division_equations. lia.
Qed.

Lemma digit_val_digit (k : Z) : digit_val (digit k) = Some (k mod 10).
Proof.
  unfold digit. pose proof (Z.mod_pos_bound k 10 eq_refl) as Hb.
  assert (Hk : ∃ j : nat, (j < 10)%nat ∧ k mod 10 = Z.of_nat j)
    by (exists (Z.to_nat (k mod 10)); lia).
  destruct Hk as (j & Hj & ->). clear Hb. rewrite Nat2Z.id.
  do 10 (destruct j as [| j]; [done |]). lia.
Qed.

Lemma match_Y_pad4 (y : Z) (rest : string) :
  0 ≤ y ≤ 9999 → match_Y (pad4 y +:+ rest) = [(y, rest)].
Proof.
  intros Hy. unfold pad4, pad2. rewrite !append_cons, append_nil_l.
  unfold match_Y. rewrite !digit_val_digit. do 2 f_equal.
  Z.to_euclidean_division_equations. lia.
Qed.


(** On the text of [%Y%m%d], the first match of the three directives
    reads back the numbers that were written. *)
Lemma strptime_Ymd_pad (y m d : Z) :
  0 ≤ y ≤ 9999 → 1 ≤ m ≤ 12 → 1 ≤ d ≤ 31 →
  strptime_Ymd (pad4 y +:+ pad2 m +:+ pad2 d)
  = if valid_ymd y m d then Ok (ymd y m d) else Raise ValueError.
Proof.
  intros Hy Hm Hd. unfold strptime_Ymd. rewrite match_Y_pad4 by done.
  assert (Hm' : m ∈ seqZ 1 12) by (apply elem_of_seqZ; lia).
  assert (Hd' : d ∈ seqZ 1 31) by (apply elem_of_seqZ; lia).
  clear Hm Hd Hy. vm_compute seqZ in Hm', Hd'.
  match goal with
  | |- context [match ?l with [] => _ | _ :: _ => _ end] =>
      assert (Hl : ∃ tl, l = (y, m, d, EmptyString) :: tl)
  end.
  { repeat (apply elem_of_cons in Hm' as [-> | Hm']);
      [.. | by apply elem_of_nil in Hm'];
      repeat (apply elem_of_cons in Hd' as [-> | Hd']);
      try (by apply elem_of_nil in Hd');
      vm_compute; eexists; reflexivity. }
  destruct Hl as [tl ->]. reflexivity.
Qed.

(** Parsing the [%Y%m%d] text of a date gives the date back. *)
Lemma strptime_strftime_Ymd (n : date) :
  1 ≤ n ≤ 3652059 → strptime_Ymd (strftime_Ymd n) = Ok n.
Proof.
  intros Hn. unfold strftime_Ymd.
  destruct (ord2ymd_ymd n) as (y & m & d & E & Hy & Hm & Hd & Hymd); [lia |].
  pose proof (ord2ymd_year_bound n y m d Hn E) as Hy'.
  rewrite E.
  assert (Hd31 : days_in_month y m ≤ 31)
    by (unfold days_in_month; repeat case_match; lia).
  rewrite strptime_Ymd_pad by lia.
  replace (valid_ymd y m d) with true; [by rewrite Hymd |].
  symmetry. unfold valid_ymd. rewrite !andb_true_iff, !Z.leb_le. lia.
Qed.

End Strptime.

(* ===================================================================== *)
(** * File names *)
(* ===================================================================== *)

Section FileNames.
Import Py Dates S3Feeder.

(** The last piece of [<dir>/<name>] is [name]. *)
Lemma last_piece (dir name : string) :
  mem_char "/" name = false →
  index_from_end (split "/" (dir +:+ "/" +:+ name)) 1 = Ok name.
Proof.
  intros Hname. change ("/" +:+ name) with (String "/" name).
  rewrite split_append_sep, (split_no_sep _ _ Hname).
  unfold index_from_end. by rewrite rev_app_distr.
Qed.

Lemma splitn_go_no_sep (sep : ascii) (n : nat) (cur s : string) :
  mem_char sep s = false → splitn_go sep n cur s = [String.rev cur +:+ s].
Proof.
  revert cur. induction s as [| c s IH]; intros cur Hs.
  - destruct n; cbn; [done |]. by rewrite append_nil_r.
  - destruct n as [| n]; [done |]. cbn in Hs |- *.
    apply orb_false_iff in Hs as [Hc Hs]. rewrite Hc.
    rewrite (IH (String c cur) Hs). unfold String.rev. cbn [String.rev_app].
    rewrite (rev_app_append cur (String c "")), append_assoc.
    by rewrite append_cons, append_nil_l.
Qed.

(** One cut of [split(sep, maxsplit)]. *)
Lemma splitn_go_cut (sep : ascii) (n : nat) (cur x rest : string) :
  mem_char sep x = false →
  splitn_go sep (S n) cur (x +:+ String sep rest)
  = (String.rev cur +:+ x) :: splitn_go sep n EmptyString rest.
Proof.
  revert cur. induction x as [| c x IH]; intros cur Hx.
  - rewrite append_nil_l, append_nil_r. cbn. by rewrite Ascii.eqb_refl.
  - rewrite append_cons. cbn in Hx |- *.
    apply orb_false_iff in Hx as [Hc Hx]. rewrite Hc.
    rewrite (IH (String c cur) Hx). unfold String.rev. cbn [String.rev_app].
    rewrite (rev_app_append cur (String c "")), append_assoc.
    by rewrite append_cons, append_nil_l.
Qed.

(** With no cut left, the rest is one piece. *)
Lemma splitn_0 (sep : ascii) (s : string) : splitn sep 0 s = [s].
Proof. by destruct s. Qed.

Lemma splitn_cut (sep : ascii) (n : nat) (x rest : string) :
  mem_char sep x = false →
  splitn sep (S n) (x +:+ String sep rest) = x :: splitn sep n rest.
Proof. intros Hx. unfold splitn. by rewrite splitn_go_cut. Qed.

Lemma slice_to_append (a b : string) :
  slice_to (String.length a) (a +:+ b) = a.
Proof.
  pose proof (slice_drop_last_append a b) as Hs.
  unfold slice_drop_last in Hs. rewrite length_append in Hs.
  by replace (String.length a + String.length b - String.length b)%nat
    with (String.length a) in Hs by lia.
Qed.

Lemma digit_plain (n : Z) (c : ascii) :
  c ∉ ["0"; "1"; "2"; "3"; "4"; "5"; "6"; "7"; "8"; "9"]%char →
  Ascii.eqb (digit n) c = false.
Proof.
  intros Hc. apply Ascii.eqb_neq. intros <-. apply Hc, digit_cases.
Qed.

Lemma strftime_Ymd_length (d : date) : String.length (strftime_Ymd d) = 8%nat.
Proof. unfold strftime_Ymd. by destruct (ord2ymd d) as [[y m] dd]. Qed.

(** The text of [%Y%m%d] is made of digits. *)
Lemma strftime_Ymd_digits (d : date) (c : ascii) :
  c ∉ ["0"; "1"; "2"; "3"; "4"; "5"; "6"; "7"; "8"; "9"]%char →
  mem_char c (strftime_Ymd d) = false.
Proof.
  intros Hc. unfold strftime_Ymd. destruct (ord2ymd d) as [[y m] dd].
  unfold pad4, pad2. cbv [String.append mem_char].
  by rewrite !(digit_plain _ c Hc).
Qed.

End FileNames.

(** X3.  A key [<dir>/<YYYYMMDD><hh>_<cc>_<tn>.<a>.<b>.<ext>] is read
    back by the catalog as the entry of that day, country, test name
    and extension (the extension may itself hold dots), whatever the
    directory part: the day is parsed from the first eight characters
    of the file name. *)
Theorem file_entry_of_object_reads_the_layout
    (dir hh cc tn a b e : string) (d : date) (sz : Z)
    (body : S3Feeder.Content) :
  let tail := tn +:+ "." +:+ a +:+ "." +:+ b +:+ "." +:+ e in
  let name := (Dates.strftime_Ymd d +:+ hh) +:+ "_" +:+ cc +:+ "_" +:+ tail in
  1 ≤ d ≤ 3652059 →
  S3Feeder.mem_char "/" name = false →
  S3Feeder.mem_char "_" hh = false →
  S3Feeder.mem_char "_" cc = false →
  S3Feeder.mem_char "_" tail = false →
  S3Feeder.mem_char "." tn = false →
  S3Feeder.mem_char "." a = false →
  S3Feeder.mem_char "." b = false →
  S3Feeder.file_entry_of_object
    {| S3Feeder.Key := dir +:+ "/" +:+ name; S3Feeder.Size := sz;
       S3Feeder.Body := body |}
  = Ok {| S3Feeder.day := d; S3Feeder.country_code := cc;
          S3Feeder.test_name := tn; S3Feeder.filename := name;
          S3Feeder.size := sz; S3Feeder.ext := e;
          S3Feeder.s3path := dir +:+ "/" +:+ name;
          S3Feeder.bucket_name := S3Feeder.MC_BUCKET_NAME |}.
Proof.
  intros tail name Hd Hslash Hhh Hcc Htail Htn Ha Hb.
  unfold S3Feeder.file_entry_of_object. cbn [S3Feeder.Key S3Feeder.Size].
  rewrite (last_piece dir name Hslash).
  assert (Hparts : Py.split "_" name
                   = [Dates.strftime_Ymd d +:+ hh; cc; tail]).
  { subst name.
    change ("_" +:+ cc +:+ "_" +:+ tail)
      with (String "_" (cc +:+ String "_" tail)).
    rewrite !split_append_sep.
    rewrite (split_no_sep "_" cc Hcc), (split_no_sep "_" tail Htail).
    rewrite split_no_sep; [done |].
    rewrite mem_char_append, Hhh, orb_false_r.
    apply strftime_Ymd_digits. set_solver. }
  rewrite Hparts. cbn [Py.index lookup list_lookup].
  assert (Hsplit : Py.splitn "." 3 tail = [tn; a; b; e]).
  { subst tail.
    change ("." +:+ a +:+ "." +:+ b +:+ "." +:+ e)
      with (String "." (a +:+ String "." (b +:+ String "." e))).
    by rewrite !splitn_cut, splitn_0. }
  rewrite Hsplit.
  rewrite <- (strftime_Ymd_length d) at 1. rewrite slice_to_append.
  by rewrite strptime_strftime_Ymd.
Qed.

(** The jsonl file of 2021-12-30. *)
Lemma file_entry_of_object_reads_the_layout_witness :
  S3Feeder.file_entry_of_object
    {| S3Feeder.Key := Scenarios.jsonl_key; S3Feeder.Size := 3;
       S3Feeder.Body := S3Feeder.TextLines ["{}"] |}
  = Ok Scenarios.jsonl_entry.
Proof.
  exact (file_entry_of_object_reads_the_layout
           "raw/20211230/00/IT/webconnectivity" "00" "IT" "webconnectivity"
           "n0" "0" "jsonl.gz" (Dates.ymd 2021 12 30) 3
           (S3Feeder.TextLines ["{}"])
           ltac:(vm_compute; split; discriminate) eq_refl eq_refl eq_refl
           eq_refl eq_refl eq_refl eq_refl).
Defined.

Section Listings.
Import Py Dates S3Feeder.

(** A piece of a split holds no character that the text does not hold. *)
Lemma split_go_chars (sep c : ascii) (cur s x : string) :
  mem_char c cur = false → mem_char c s = false →
  x ∈ split_go sep cur s → mem_char c x = false.
Proof.
  revert cur. induction s as [| c' s IH]; intros cur Hcur Hs; cbn [split_go].
  - intros ->%list_elem_of_singleton. unfold String.rev.
    by rewrite mem_char_rev_app, Hcur.
  - cbn in Hs. apply orb_false_iff in Hs as [Hc' Hs].
    destruct (Ascii.eqb c' sep).
    + intros [-> | Hx]%elem_of_cons.
      * unfold String.rev. by rewrite mem_char_rev_app, Hcur.
      * by apply (IH EmptyString).
    + apply IH; [| done]. cbn. by rewrite Hc', Hcur.
Qed.

(** The file name of a key: there always is one. *)
Lemma filename_of_key (key : string) :
  ∃ name, index_from_end (split "/" key) 1 = Ok name ∧ name ∈ split "/" key.
Proof.
  unfold index_from_end.
  destruct (rev (split "/" key)) as [| name front] eqn:Hrev.
  - apply (f_equal (@rev string)) in Hrev. rewrite rev_involutive in Hrev.
    by apply split_go_nonempty in Hrev.
  - exists name. split; [done |].
    apply list_elem_of_In, in_rev. rewrite Hrev. by left.
Qed.

(** A key without an underscore is no catalog entry. *)
Lemma file_entry_of_object_no_underscore (o : S3Object) :
  mem_char "_" (Key o) = false → file_entry_of_object o = Raise IndexError.
Proof.
  intros Hkey. unfold file_entry_of_object.
  destruct (filename_of_key (Key o)) as (name & -> & Hname).
  apply (split_go_chars "/" "_" EmptyString) in Hname; [| done | done].
  by rewrite (split_no_sep "_" name Hname).
Qed.

(** A loop whose turns yield one item each, up to a turn that raises. *)
Lemma gen_for_stops {A B} (pre post : list A) (a : A) (body : A → gen B)
    (out : list B) (e : exn) :
  Forall2 (λ x y, body x = gen_yield y) pre out →
  body a = gen_raise e →
  gen_for (pre ++ a :: post) body = Gen out (Some e).
Proof.
  intros Hpre Ha. induction Hpre as [| x y pre out Hx _ IH].
  - cbn [app gen_for]. by rewrite Ha.
  - cbn [app gen_for]. rewrite Hx, IH. done.
Qed.

Lemma file_entry_of_object_fields (o : S3Object) (fe : FileEntry) :
  file_entry_of_object o = Ok fe →
  s3path fe = Key o ∧ size fe = Size o ∧ bucket_name fe = MC_BUCKET_NAME.
Proof.
  unfold file_entry_of_object.
  repeat (case_match; try done). by intros [= <-].
Qed.

End Listings.

(** X4.  An object without an underscore in its key, listed under a
    prefix, ends the listing of that prefix with [IndexError]: the
    entries of the objects listed before it have been yielded, those
    after it are not, and [list_file_entries] returns no list at all. *)
Theorem stray_object_ends_the_listing
    (s3 : list (string * S3Feeder.S3Object)) (prefix : string)
    (pre post : list S3Feeder.S3Object) (o : S3Feeder.S3Object)
    (fes : list S3Feeder.FileEntry) :
  S3Feeder.list_objects s3 S3Feeder.MC_BUCKET_NAME prefix = pre ++ o :: post →
  Forall2 (λ o' fe, S3Feeder.file_entry_of_object o' = Ok fe) pre fes →
  S3Feeder.mem_char "_" (S3Feeder.Key o) = false →
  S3Feeder.iter_file_entries s3 prefix = Gen fes (Some IndexError)
  ∧ S3Feeder.list_file_entries s3 prefix = Raise IndexError.
Proof.
  intros Hlist Hpre Ho.
  assert (Hiter : S3Feeder.iter_file_entries s3 prefix
                  = Gen fes (Some IndexError)).
  { unfold S3Feeder.iter_file_entries. rewrite Hlist.
    apply gen_for_stops.
    - eapply Forall2_impl; [exact Hpre |]. by intros o' fe ->.
    - by rewrite file_entry_of_object_no_underscore. }
  split; [exact Hiter |].
  unfold S3Feeder.list_file_entries, S3Feeder.list_of_gen. by rewrite Hiter.
Qed.

(** The jsonl file of 2021-12-30 and, after it, a README in the
    directory of the day. *)
Lemma stray_object_ends_the_listing_witness :
  S3Feeder.list_file_entries
    [Scenarios.object Scenarios.jsonl_key 3 (S3Feeder.TextLines ["{}"]);
     Scenarios.object "raw/20211230/README" 10 S3Feeder.Undecodable]
    "raw/20211230"
  = Raise IndexError.
Proof.
  apply (stray_object_ends_the_listing
           [Scenarios.object Scenarios.jsonl_key 3 (S3Feeder.TextLines ["{}"]);
            Scenarios.object "raw/20211230/README" 10 S3Feeder.Undecodable]
           "raw/20211230"
           [(Scenarios.object Scenarios.jsonl_key 3
               (S3Feeder.TextLines ["{}"])).2]
           []
           (Scenarios.object "raw/20211230/README" 10 S3Feeder.Undecodable).2
           [Scenarios.jsonl_entry]);
    [vm_compute; reflexivity
    | repeat constructor; vm_compute; reflexivity
    | vm_compute; reflexivity].
Defined.

Section Cans.
Import Py Dates S3Feeder.

Lemma prefix_inv (p s : string) :
  String.prefix p s = true → ∃ r, s = p +:+ r.
Proof.
  revert s. induction p as [| c p IH]; intros s.
  - exists s. by rewrite append_nil_l.
  - destruct s as [| c' s]; [done |]. cbn.
    destruct (ascii_dec c c') as [<- |]; [| done].
    intros (r & ->)%IH. exists r. by rewrite append_cons.
Qed.

(** A text that ends with a suffix is some text followed by it. *)
Lemma endswith_inv (s suffix : string) :
  endswith s suffix = true → ∃ a, s = a +:+ suffix.
Proof.
  unfold endswith. intros (r & Hr)%prefix_inv.
  exists (String.rev r). apply (f_equal String.rev) in Hr.
  by rewrite rev_append, !rev_involutive_string in Hr.
Qed.

Lemma remove_char_removes (c : ascii) (s : string) :
  mem_char c (remove_char c s) = false.
Proof.
  induction s as [| c' s IH]; [done |]. cbn.
  destruct (Ascii.eqb c' c) eqn:Hc; [done |]. cbn. by rewrite Hc.
Qed.

Lemma last_two_app {A} (l : list A) (x y : A) : last_two (l ++ [x; y]) = [x; y].
Proof.
  unfold last_two. rewrite length_app. cbn [length].
  replace (length l + 2 - 2)%nat with (length l) by lia.
  by rewrite drop_app_length.
Qed.

(** The extension that the can listing works out for a file name
    ending in [.<x>.lz4] is [<x>.lz4]. *)
Lemma can_ext (name x : string) :
  mem_char "." x = false →
  endswith name ("." +:+ x +:+ ".lz4") = true →
  join "." (last_two (split "." name)) = x +:+ ".lz4".
Proof.
  intros Hx (a & ->)%endswith_inv.
  change ("." +:+ x +:+ ".lz4") with (String "." (x +:+ String "." "lz4")).
  rewrite !split_append_sep, (split_no_sep "." x Hx).
  change (split "." "lz4") with ["lz4"].
  change ([x] ++ ["lz4"]) with [x; "lz4"].
  rewrite last_two_app, join_cons. done.
Qed.

(** What the can listing makes of one object. *)
Lemma can_entry_of_object_Some (day : date) (f : S3Object) (fe : FileEntry) :
  can_entry_of_object day f = Ok (Some fe) →
  S3Feeder.day fe = day ∧ bucket_name fe = CAN_BUCKET_NAME
  ∧ s3path fe = Key f ∧ size fe = Size f
  ∧ index_from_end (split "/" (Key f)) 1 = Ok (filename fe)
  ∧ ext fe ∈ ["tar.lz4"; "json.lz4"; "yaml.lz4"]
  ∧ endswith (filename fe) ("." +:+ ext fe) = true
  ∧ mem_char "_" (test_name fe) = false
  ∧ (ext fe = "tar.lz4" → country_code fe = "XX").
Proof.
  unfold can_entry_of_object.
  destruct (index_from_end (split "/" (Key f)) 1) as [name | e]; [| done].
  cbn [mbind result_bind].
  destruct (endswith name ".tar.lz4") eqn:Htar.
  - destruct (index (split "." name) 0) as [first | e]; [| done].
    cbn. intros [= <-]. cbn. repeat split; try done.
    + set_solver.
    + apply remove_char_removes.
  - destruct (endswith name ".json.lz4" || endswith name ".yaml.lz4") eqn:Hext;
      [| done].
    destruct (index (split "-" name) 1) as [cc | e]; [| done].
    destruct (index (split "-" name) 3) as [fourth | e]; [| done].
    cbn. intros [= <-]. cbn.
    assert (Hx : join "." (last_two (split "." name)) = "json.lz4"
                 ∧ endswith name ".json.lz4" = true
                 ∨ join "." (last_two (split "." name)) = "yaml.lz4"
                   ∧ endswith name ".yaml.lz4" = true).
    { apply orb_true_iff in Hext as [Hj | Hy]; [left | right].
      - split; [| done]. by apply (can_ext name "json").
      - split; [| done]. by apply (can_ext name "yaml"). }
    destruct Hx as [[-> Hend] | [-> Hend]]; repeat split; try done;
      try apply remove_char_removes; set_solver.
Qed.

End Cans.

(** X5.  Every entry that the can listing of a day yields is in the
    can bucket, carries the day that was asked for, has one of the
    extensions tar.lz4, json.lz4 and yaml.lz4 (the one its file name
    ends with), and a test name without underscores; its key lies under
    [canned/<YYYY-MM-DD>/] and a tar.lz4 can has the country XX. *)
Theorem can_entries_of_a_day
    (s3 : list (string * S3Feeder.S3Object)) (day : date)
    (fe : S3Feeder.FileEntry) :
  fe ∈ yielded (S3Feeder.iter_cans_on_s3_for_a_day s3 day) →
  S3Feeder.bucket_name fe = S3Feeder.CAN_BUCKET_NAME
  ∧ S3Feeder.day fe = day
  ∧ Py.startswith (S3Feeder.s3path fe)
      ("canned/" +:+ Dates.strftime_Y_m_d day +:+ "/") = true
  ∧ S3Feeder.ext fe ∈ ["tar.lz4"; "json.lz4"; "yaml.lz4"]
  ∧ Py.endswith (S3Feeder.filename fe) ("." +:+ S3Feeder.ext fe) = true
  ∧ S3Feeder.mem_char "_" (S3Feeder.test_name fe) = false
  ∧ (S3Feeder.ext fe = "tar.lz4" → S3Feeder.country_code fe = "XX").
Proof.
  unfold S3Feeder.iter_cans_on_s3_for_a_day.
  intros (f & Hf & Hfe)%gen_for_yielded.
  apply elem_of_list_objects in Hf as [_ Hprefix].
  destruct (S3Feeder.can_entry_of_object day f) as [[fe' |] | e] eqn:Hcan;
    cbn in Hfe; try (by apply elem_of_nil in Hfe).
  apply list_elem_of_singleton in Hfe as ->.
  destruct (can_entry_of_object_Some _ _ _ Hcan)
    as (Hday & Hbucket & Hpath & _ & _ & Hext & Hend & Htn & Hcc).
  rewrite Hpath. done.
Qed.

(** A can of 2018-01-02 next to the index of the day. *)
Lemma can_entries_of_a_day_witness :
  let s3 :=
    [("ooni-data",
      {| S3Feeder.Key := "canned/2018-01-02/index.json.gz";
         S3Feeder.Size := 7; S3Feeder.Body := S3Feeder.Undecodable |});
     ("ooni-data",
      {| S3Feeder.Key :=
           "canned/2018-01-02/20180102T000000Z-IT-AS1234-web_connectivity-x-0.2.0-probe.json.lz4";
         S3Feeder.Size := 9; S3Feeder.Body := S3Feeder.TextLines ["{}"] |})] in
  (λ fe, (S3Feeder.country_code fe, S3Feeder.test_name fe, S3Feeder.ext fe))
  <$> yielded (S3Feeder.iter_cans_on_s3_for_a_day s3 (Dates.ymd 2018 1 2))
  = [("IT", "webconnectivity", "json.lz4")]
  ∧ ∀ fe, fe ∈ yielded (S3Feeder.iter_cans_on_s3_for_a_day s3
                          (Dates.ymd 2018 1 2)) →
          S3Feeder.bucket_name fe = "ooni-data".
Proof.
  intros s3. split; [vm_compute; reflexivity |].
  intros fe Hfe.
  by destruct (can_entries_of_a_day s3 (Dates.ymd 2018 1 2) fe Hfe)
    as (Hbucket & _).
Defined.

(** X6.  [list_minicans_on_s3_for_a_day], when it returns, returns
    the key and size of objects listed under [raw/<YYYYMMDD>/] in the
    minican bucket whose entry has the extension tar.gz and passes the
    country and test-name filter. *)
Theorem minicans_of_a_day_are_filtered_tar_gz
    (s3 : list (string * S3Feeder.S3Object)) (day : date)
    (ccs testnames : gset string) (found : list (string * Z))
    (key : string) (sz : Z) :
  S3Feeder.list_minicans_on_s3_for_a_day s3 day ccs testnames = Ok found →
  (key, sz) ∈ found →
  ∃ o fe,
    o ∈ S3Feeder.list_objects s3 S3Feeder.MC_BUCKET_NAME
          ("raw/" +:+ Dates.strftime_Ymd day +:+ "/")
    ∧ S3Feeder.Key o = key ∧ S3Feeder.Size o = sz
    ∧ S3Feeder.file_entry_of_object o = Ok fe
    ∧ S3Feeder.ext fe = "tar.gz"
    ∧ S3Feeder.matches_filter fe ccs testnames = true.
Proof.
  unfold S3Feeder.list_minicans_on_s3_for_a_day, S3Feeder.list_of_gen.
  destruct (raised _); [done |]. intros [= <-].
  intros (fe & [= -> ->] & Hfe)%list_elem_of_fmap.
  unfold Py.gen_filter in Hfe. cbn [yielded] in Hfe.
  apply list_elem_of_filter in Hfe as [Hfilter Hfe].
  unfold S3Feeder.iter_minicans_on_s3_for_a_day, Py.gen_filter in Hfe.
  cbn [yielded] in Hfe.
  apply list_elem_of_filter in Hfe as [Hext Hfe].
  apply iter_file_entries_yielded in Hfe as (o & Ho & Hparse).
  destruct (file_entry_of_object_fields _ _ Hparse) as (Hkey & Hsize & _).
  exists o, fe. apply String.eqb_eq in Hext. done.
Qed.

(** The minican of 2023-10-31, asked for with its country. *)
Lemma minicans_of_a_day_are_filtered_tar_gz_witness :
  S3Feeder.list_minicans_on_s3_for_a_day Scenarios.minican_bucket
    (Dates.ymd 2023 10 31) {["VE"]} ∅
  = Ok [(Scenarios.minican_key, 52964)]
  ∧ ∃ o fe,
      o ∈ S3Feeder.list_objects Scenarios.minican_bucket
            S3Feeder.MC_BUCKET_NAME
            ("raw/" +:+ Dates.strftime_Ymd (Dates.ymd 2023 10 31) +:+ "/")
      ∧ S3Feeder.Key o = Scenarios.minican_key ∧ S3Feeder.Size o = 52964
      ∧ S3Feeder.file_entry_of_object o = Ok fe
      ∧ S3Feeder.ext fe = "tar.gz"
      ∧ S3Feeder.matches_filter fe {["VE"]} ∅ = true.
Proof.
  assert (Hlist : S3Feeder.list_minicans_on_s3_for_a_day
                    Scenarios.minican_bucket (Dates.ymd 2023 10 31) {["VE"]} ∅
                  = Ok [(Scenarios.minican_key, 52964)])
    by (vm_compute; reflexivity).
  split; [exact Hlist |].
  apply (minicans_of_a_day_are_filtered_tar_gz Scenarios.minican_bucket
           (Dates.ymd 2023 10 31) {["VE"]} ∅ _ _ _ Hlist).
  apply list_elem_of_here.
Defined.

Section Prefixes.
Import Py Dates S3Feeder.


End Prefixes.



Section SearchPrefixesSound.
Import Py Dates S3Feeder.



End SearchPrefixesSound.


Section TestNamesSound.
Import Py Dates S3Feeder.


End TestNamesSound.


(* ===================================================================== *)
(** * From the catalog to the reader *)
(* ===================================================================== *)

Section ReaderDispatch.
Import Py Dates S3Feeder.
Context `{Collaborators}.

Lemma join_snoc (sep : string) (l : list string) (s : string) :
  ∃ pre, join sep (l ++ [s]) = pre +:+ s.
Proof.
  induction l as [| a l [pre IH]].
  - exists "". by rewrite append_nil_l.
  - destruct l as [| b l].
    + exists (a +:+ sep). cbn [app]. by rewrite join_cons, append_assoc.
    + exists (a +:+ sep +:+ pre). cbn [app] in *.
      by rewrite join_cons, IH, !append_assoc.
Qed.

(** The cache path of an entry ends with the entry's file name. *)
Lemma output_path_ends_with_filename (fe : FileEntry) (dst_dir : Path) :
  plain_component (filename fe) = true →
  ∃ pre, as_posix (output_path fe dst_dir) = pre +:+ filename fe.
Proof.
  intros Hf. unfold output_path. rewrite (path_div_plain _ _ Hf).
  set (p := path_div _ _). unfold as_posix. cbn [absolute parts].
  destruct (join_snoc "/" (parts p) (filename fe)) as [pre Hpre].
  destruct (absolute p).
  - exists ("/" +:+ pre). by rewrite Hpre, append_assoc.
  - destruct (parts p ++ [filename fe]) eqn:Hparts;
      [by destruct (parts p) | by exists pre].
Qed.

Lemma endswith_longer (a s suffix : string) :
  endswith s suffix = true → endswith (a +:+ s) suffix = true.
Proof.
  intros (b & ->)%endswith_inv. rewrite <- append_assoc.
  apply endswith_append.
Qed.

End ReaderDispatch.

(** X10.  A cached container whose file name ends with [.jsonl.gz]
    is read line by line: when the file is in the cache and every line
    parses, the reader yields one record per line, in the order of the
    lines, each with the uid that [trivial_id] gives to the record, and
    returns normally. *)
Theorem cached_jsonl_is_read_line_by_line `{S3Feeder.Collaborators}
    (fe : S3Feeder.FileEntry) (s3cachedir : S3Feeder.Path)
    (disk : gmap string S3Feeder.DiskFile) (f : S3Feeder.DiskFile)
    (lines : list string) :
  let fn := S3Feeder.as_posix (S3Feeder.output_path fe s3cachedir) in
  S3Feeder.plain_component (S3Feeder.filename fe) = true →
  Py.endswith (S3Feeder.filename fe) ".jsonl.gz" = true →
  disk !! fn = Some f →
  S3Feeder.data f = S3Feeder.TextLines lines →
  Forall (λ line, is_Some (S3Feeder.ujson_loads line)) lines →
  S3Feeder.load_multiple disk fn
  = Gen ((λ msm, {| S3Feeder.msmt_bytes := None; S3Feeder.msm := msm;
                    S3Feeder.msmt_uid := S3Feeder.trivial_id msm |})
         <$> omap S3Feeder.ujson_loads lines) None.
Proof.
  intros fn Hplain Hext Hf Hdata Hlines.
  destruct (output_path_ends_with_filename fe s3cachedir Hplain) as [pre Hfn].
  destruct (endswith_inv _ _ Hext) as [stem Hname].
  assert (Hfn' : fn = (pre +:+ stem) +:+ ".jsonl.gz")
    by (subst fn; by rewrite Hfn, Hname, append_assoc).
  rewrite (load_multiple_json_lines disk fn f lines); [| | | done | done].
  - by apply json_lines_all_parse.
  - rewrite Hfn'. unfold Py.endswith. rewrite rev_append. reflexivity.
  - right. rewrite Hfn'. apply endswith_append.
Qed.

(** The jsonl file of 2021-12-30 in the cache, with two lines. *)
Lemma cached_jsonl_is_read_line_by_line_witness :
  let f := {| S3Feeder.st_size := 6; S3Feeder.st_mtime := 0;
              S3Feeder.data := S3Feeder.TextLines ["{}"; "{}"] |} in
  let fn := "/var/cache/oonidata/webconnectivity/IT/2021-12-30/2021123000_IT_webconnectivity.n0.0.jsonl.gz" in
  S3Feeder.msm <$> yielded (S3Feeder.load_multiple {[ fn := f ]} fn)
  = [S3Feeder.JDict []; S3Feeder.JDict []].
Proof.
  intros f fn.
  pose proof (cached_jsonl_is_read_line_by_line Scenarios.jsonl_entry
                Scenarios.cache_root {[ fn := f ]} f ["{}"; "{}"]) as Hread.
  cbv zeta in Hread.
  assert (Hfn : S3Feeder.as_posix
                  (S3Feeder.output_path Scenarios.jsonl_entry Scenarios.cache_root)
                = fn) by (vm_compute; reflexivity).
  rewrite Hfn in Hread. rewrite Hread.
  - vm_compute. reflexivity.
  - vm_compute. reflexivity.
  - vm_compute. reflexivity.
  - apply lookup_singleton_eq.
  - reflexivity.
  - repeat constructor; by eexists.
Defined.

(** X11.  A legacy [.tar.lz4] can on disk, without [.yaml] members and
    with [.json] members whose lines all parse, is read to its end: the
    reader yields the records of the [.json] members, member after
    member and line after line, each under the uid that [trivial_id]
    gives it, and passes over every other member. *)
Theorem legacy_tar_can_is_read_member_by_member `{S3Feeder.Collaborators}
    (disk : gmap string S3Feeder.DiskFile) (fn : string)
    (f : S3Feeder.DiskFile) (members : list S3Feeder.TarMember) :
  Py.endswith fn ".tar.lz4" = true →
  disk !! fn = Some f →
  S3Feeder.data f = S3Feeder.TarArchive members →
  (∀ m, m ∈ members →
     ∃ k, S3Feeder.payload m = Some k
          ∧ (Py.endswith (S3Feeder.name m) ".json" = false →
             Py.endswith (S3Feeder.name m) ".yaml" = false)
          ∧ (Py.endswith (S3Feeder.name m) ".json" = true →
             Forall (λ line, is_Some (S3Feeder.ujson_loads line)) k)) →
  S3Feeder.load_multiple disk fn
  = Gen (concat
           ((λ m, if Py.endswith (S3Feeder.name m) ".json"
                  then (λ msm, {| S3Feeder.msmt_bytes := None;
                                  S3Feeder.msm := msm;
                                  S3Feeder.msmt_uid := S3Feeder.trivial_id msm |})
                       <$> omap S3Feeder.ujson_loads
                             (default [] (S3Feeder.payload m))
                  else []) <$> members))
        None.
Proof.
  intros Hext Hf Hdata Hmembers.
  unfold S3Feeder.load_multiple, S3Feeder.open_file.
  rewrite Hext, Hf. cbn. rewrite Hdata. cbn.
  by apply legacy_tar_members_run.
Qed.

(** A can with a report of two lines and a stray text file. *)
Lemma legacy_tar_can_is_read_member_by_member_witness :
  let members :=
    [{| S3Feeder.name := "2018-01-02/20180102T000000Z-IT-AS1234-web_connectivity-x-0.2.0-probe.json";
        S3Feeder.payload := Some ["{}"; "{}"] |};
     {| S3Feeder.name := "2018-01-02/README.txt";
        S3Feeder.payload := Some ["text"] |}] in
  let f := {| S3Feeder.st_size := 100; S3Feeder.st_mtime := 0;
              S3Feeder.data := S3Feeder.TarArchive members |} in
  let fn := "/var/cache/oonidata/webconnectivity/XX/2018-01-02/web_connectivity.0.tar.lz4" in
  S3Feeder.msm
  <$> yielded (S3Feeder.load_multiple (H := Scenarios.table_collaborators)
                 {[ fn := f ]} fn)
  = [S3Feeder.JDict []; S3Feeder.JDict []].
Proof.
  intros members f fn.
  rewrite (legacy_tar_can_is_read_member_by_member
             (H := Scenarios.table_collaborators) {[ fn := f ]} fn f members).
  - vm_compute. reflexivity.
  - vm_compute. reflexivity.
  - apply lookup_singleton_eq.
  - reflexivity.
  - intros m Hm.
    repeat (apply elem_of_cons in Hm as [-> | Hm]);
      [| | by apply elem_of_nil in Hm]; eexists; (split; [reflexivity |]);
      (split; [vm_compute; congruence |]); intros Hjson.
    + constructor; [by eexists |]. constructor; [by eexists |]. constructor.
    + vm_compute in Hjson. discriminate Hjson.
Defined.

(* ===================================================================== *)
(** * More on the cache and the driver *)
(* ===================================================================== *)

Section CacheDetails.
Import Py S3Feeder.

(** The call on a cached file of the entry's size. *)
Lemma download_hit (s3cachedir : Path) (fe : FileEntry) (w : World)
    (f : DiskFile) :
  disk w !! as_posix (output_path fe s3cachedir) = Some f →
  st_size f = size fe →
  download_measurement_container s3cachedir fe w
  = (touch (as_posix (output_path fe s3cachedir))
       (emit (MetricIncr "cache_hit") w),
     Ok (output_path fe s3cachedir)).
Proof.
  intros Hf Hsz. unfold download_measurement_container.
  by rewrite Hf, bool_decide_eq_true_2.
Qed.

(** A call that returns has left, at the path it returns, a file of
    the entry's size. *)
Lemma download_Ok (s3cachedir : Path) (fe : FileEntry) (w w1 : World)
    (mc : Path) :
  download_measurement_container s3cachedir fe w = (w1, Ok mc) →
  mc = output_path fe s3cachedir
  ∧ ∃ f, disk w1 !! as_posix mc = Some f ∧ st_size f = size fe.
Proof.
  unfold download_measurement_container.
  set (diskf := output_path fe s3cachedir). set (p := as_posix diskf).
  destruct (disk w !! p) as [f |] eqn:Hf.
  - destruct (bool_decide (size fe = st_size f)) eqn:Hsz.
    + apply bool_decide_eq_true in Hsz. intros [= <- <-]. split; [done |].
      eexists. cbn. rewrite lookup_alter_eq, Hf. cbn. split; [done |].
      by cbn.
    + apply bool_decide_eq_false in Hsz.
      destruct (with_suffix diskf ".s3tmp") as [tmpf | e]; [| done].
      cbn [s3 emit set_disk].
      destruct (get_object _ _ _) as [o |]; [| done].
      cbn [disk emit set_disk]. rewrite lookup_insert_eq. cbn [st_size].
      case_bool_decide as Hsize; [| done]. intros [= <- <-].
      split; [done |]. eexists. cbn. rewrite lookup_insert_eq.
      split; [done |]. by cbn.
  - destruct (with_suffix diskf ".s3tmp") as [tmpf | e]; [| done].
    cbn [s3 emit set_disk].
    destruct (get_object _ _ _) as [o |]; [| done].
    cbn [disk emit set_disk]. rewrite lookup_insert_eq. cbn [st_size].
    case_bool_decide as Hsize; [| done]. intros [= <- <-].
    split; [done |]. eexists. cbn. rewrite lookup_insert_eq.
    split; [done |]. by cbn.
Qed.

(** X12.  A call writes at most two paths, the cache path of the entry
    and its temporary sibling: whatever the outcome, every other path
    on disk is as before. *)
Theorem download_writes_only_its_two_paths (s3cachedir : Path)
    (fe : FileEntry) (w : World) (q : string) :
  q ≠ as_posix (output_path fe s3cachedir) →
  (∀ tmpf, with_suffix (output_path fe s3cachedir) ".s3tmp" = Ok tmpf →
           q ≠ as_posix tmpf) →
  disk (download_measurement_container s3cachedir fe w).1 !! q = disk w !! q.
Proof.
  intros Hq Htmp. unfold download_measurement_container.
  set (diskf := output_path fe s3cachedir) in *.
  set (p := as_posix diskf) in *.
  assert (Hmiss :
    disk (let w := emit (MetricIncr "cache_miss") w in
          let w := emit (Mkdir (as_posix (parent diskf))) w in
          match with_suffix diskf ".s3tmp" with
          | Raise e => (w, Raise e)
          | Ok tmpf =>
              let tmp := as_posix tmpf in
              let w := emit (OpenWrite tmp)
                         (set_disk (<[tmp := {| st_size := 0; st_mtime := now w;
                                                data := TextLines [] |}]> (disk w)) w) in
              let w := emit (DownloadFileobj (bucket_name fe) (s3path fe) tmp) w in
              match get_object (s3 w) (bucket_name fe) (s3path fe) with
              | None => (w, Raise ClientError)
              | Some o =>
                  let f := {| st_size := Size o; st_mtime := now w;
                              data := Body o |} in
                  let w := set_disk (<[tmp := f]> (disk w)) w in
                  let w := emit (Fsync tmp) w in
                  let w := emit (Rename tmp (as_posix diskf))
                             (set_disk (<[as_posix diskf := f]>
                                          (delete tmp (disk w))) w) in
                  match disk w !! as_posix diskf with
                  | Some f' =>
                      if bool_decide (size fe = st_size f')
                      then (w, Ok diskf)
                      else (w, Raise AssertionError)
                  | None => (w, Raise FileNotFoundError)
                  end
              end
          end).1 !! q = disk w !! q).
  { cbv zeta. destruct (with_suffix diskf ".s3tmp") as [tmpf | e]; [| done].
    specialize (Htmp tmpf eq_refl). cbn [s3 emit set_disk].
    destruct (get_object _ _ _) as [o |].
    - cbn [disk emit set_disk]. rewrite lookup_insert_eq. cbn [st_size].
      case_bool_decide; cbn;
        by rewrite lookup_insert_ne, lookup_delete_ne, !lookup_insert_ne.
    - cbn. by rewrite lookup_insert_ne. }
  destruct (disk w !! p) as [f |] eqn:Hf; [| exact Hmiss].
  destruct (bool_decide (size fe = st_size f)); [| exact Hmiss].
  cbn. by rewrite lookup_alter_ne.
Qed.

(** A call that returns creates no file: the temporary file has been
    renamed away. *)
Lemma download_Ok_creates_nothing_else (s3cachedir : Path) (fe : FileEntry)
    (w w1 : World) (mc : Path) (q : string) :
  download_measurement_container s3cachedir fe w = (w1, Ok mc) →
  q ≠ as_posix (output_path fe s3cachedir) →
  disk w !! q = None → disk w1 !! q = None.
Proof.
  unfold download_measurement_container.
  set (diskf := output_path fe s3cachedir). set (p := as_posix diskf).
  intros Hcall Hq Hnone.
  assert (Hmiss : ∀ r,
    (let w := emit (MetricIncr "cache_miss") w in
     let w := emit (Mkdir (as_posix (parent diskf))) w in
     match with_suffix diskf ".s3tmp" with
     | Raise e => (w, Raise e)
     | Ok tmpf =>
         let tmp := as_posix tmpf in
         let w := emit (OpenWrite tmp)
                    (set_disk (<[tmp := {| st_size := 0; st_mtime := now w;
                                           data := TextLines [] |}]> (disk w)) w) in
         let w := emit (DownloadFileobj (bucket_name fe) (s3path fe) tmp) w in
         match get_object (s3 w) (bucket_name fe) (s3path fe) with
         | None => (w, Raise ClientError)
         | Some o =>
             let f := {| st_size := Size o; st_mtime := now w;
                         data := Body o |} in
             let w := set_disk (<[tmp := f]> (disk w)) w in
             let w := emit (Fsync tmp) w in
             let w := emit (Rename tmp (as_posix diskf))
                        (set_disk (<[as_posix diskf := f]>
                                     (delete tmp (disk w))) w) in
             match disk w !! as_posix diskf with
             | Some f' =>
                 if bool_decide (size fe = st_size f')
                 then (w, Ok diskf)
                 else (w, Raise AssertionError)
             | None => (w, Raise FileNotFoundError)
             end
         end
     end) = (w1, Ok r) → disk w1 !! q = None).
  { intros r. cbv zeta.
    destruct (with_suffix diskf ".s3tmp") as [tmpf | e]; [| done].
    cbn [s3 emit set_disk].
    destruct (get_object _ _ _) as [o |]; [| done].
    cbn [disk emit set_disk]. rewrite lookup_insert_eq. cbn [st_size].
    case_bool_decide; [| done]. intros [= <- _]. cbn.
    rewrite lookup_insert_ne by done.
    destruct (decide (as_posix tmpf = q)) as [<- | Hne].
    - by rewrite lookup_delete_eq.
    - by rewrite lookup_delete_ne, !lookup_insert_ne. }
  destruct (disk w !! p) as [f |] eqn:Hf; [| by eapply Hmiss].
  destruct (bool_decide (size fe = st_size f)); [| by eapply Hmiss].
  injection Hcall as <- _. cbn. by rewrite lookup_alter_ne.
Qed.

End CacheDetails.

Section DriverDetails.
Import Py S3Feeder.
Context `{Collaborators}.

(** Handed a generator, [stream_measurements] leaves the world as it
    was and yields nothing, whatever the generator held. *)
Lemma stream_measurements_spent (g : gen FileEntry) (s3cachedir : Path)
    (keep_s3_cache : bool) (w : World) :
  stream_measurements (PyGenerator g) s3cachedir keep_s3_cache w
  = (w, Gen [] (raised g)).
Proof.
  unfold stream_measurements. cbn [exhaust].
  by destruct (raised g).
Qed.

Lemma stream_cans_loop_spent (conf : Conf) (days : list date) (w : World) :
  ∃ r, stream_cans_loop conf days w = (w, Gen [] r).
Proof.
  induction days as [| day days IH]; [by exists None |].
  cbn [stream_cans_loop]. rewrite stream_measurements_spent. cbn [raised].
  destruct (raised (gen_seq _ _)) as [e |]; [by eexists |].
  destruct IH as [r ->]. by eexists.
Qed.

(** With nothing processed the speed is zero, or the clock has not
    moved: either way the ETA figure divides by zero. *)
Lemma eta_nothing_processed (t0 now : Q) (total_size : Z) :
  eta t0 now total_size 0 = Raise ZeroDivisionError.
Proof.
  unfold eta, float_div. destruct (Qeq_bool (now - t0) 0); [done |].
  cbn [mbind result_bind].
  change (Qeq_bool 1000000 0) with false. cbn [mbind result_bind].
  assert (Hzero : Qeq_bool (inject_Z 0 / (now - t0) / 1000000 * 1000000) 0
                  = true).
  { apply Qeq_bool_iff. unfold Qdiv. change (inject_Z 0) with 0%Q. ring. }
  by rewrite Hzero.
Qed.

(** Without the cache, a loop that ends normally leaves on disk none
    of its containers and no file that was not there before. *)
Lemma stream_loop_cleans_up (s3cachedir : Path) (t0 : Q) (total_size : Z)
    (fes : list FileEntry) (processed_size : Z) (w : World) :
  raised (stream_loop s3cachedir false t0 total_size fes processed_size w).2
  = None →
  (∀ q, disk w !! q = None →
        disk (stream_loop s3cachedir false t0 total_size fes
                processed_size w).1 !! q = None)
  ∧ (∀ fe, fe ∈ fes →
        disk (stream_loop s3cachedir false t0 total_size fes
                processed_size w).1
        !! as_posix (output_path fe s3cachedir) = None).
Proof.
  revert processed_size w.
  induction fes as [| fe fes IH]; intros processed_size w; cbn [stream_loop].
  - intros _. split; [done |]. by intros fe ?%elem_of_nil.
  - destruct (download_measurement_container s3cachedir fe w)
      as [w1 [mc | e]] eqn:Hcall; [| done].
    destruct (download_Ok _ _ _ _ _ Hcall) as [-> _].
    destruct (eta _ _ _ _) as [seconds | e]; [| done].
    set (p := as_posix (output_path fe s3cachedir)).
    set (w3 := unlink p _).
    assert (Hw3 : ∀ q, disk w3 !! q = if decide (q = p) then None
                                       else disk w1 !! q).
    { intros q. subst w3. unfold unlink. cbn [disk emit set_disk].
      destruct (decide (q = p)) as [-> | Hq].
      - by rewrite lookup_delete_eq.
      - rewrite lookup_delete_ne by done.
        by destruct (raised (load_multiple _ _)). }
    specialize (IH (processed_size + size fe) w3).
    destruct (stream_loop s3cachedir false t0 total_size fes
                (processed_size + size fe) w3)
      as [w4 g'] eqn:Hrest.
    cbn [fst snd raised] in *. intros Hr. destruct (IH Hr) as [Hnew Hgone].
    split.
    + intros q Hq. apply Hnew. rewrite Hw3. destruct (decide (q = p)); [done |].
      by eapply download_Ok_creates_nothing_else.
    + intros fe' [-> | Hfe']%elem_of_cons; [| by apply Hgone].
      apply Hnew. rewrite Hw3. by rewrite decide_True.
Qed.

End DriverDetails.

(** X13.  A call of [download_measurement_container] that returned is
    followed, for the same entry, by a cache hit: the second call makes
    no download, only counts the hit and touches the file, and returns
    the same path. *)
Theorem second_download_is_a_cache_hit
    (s3cachedir : S3Feeder.Path) (fe : S3Feeder.FileEntry)
    (w w1 : S3Feeder.World) (mc : S3Feeder.Path) :
  S3Feeder.download_measurement_container s3cachedir fe w = (w1, Ok mc) →
  let out := S3Feeder.download_measurement_container s3cachedir fe w1 in
  out.2 = Ok mc
  ∧ S3Feeder.downloads out.1 = S3Feeder.downloads w1
  ∧ S3Feeder.trace out.1
    = S3Feeder.trace w1
      ++ [S3Feeder.MetricIncr "cache_hit";
          S3Feeder.Touch (S3Feeder.as_posix mc)].
Proof.
  intros Hcall out. destruct (download_Ok _ _ _ _ _ Hcall) as (-> & f & Hf & Hsz).
  subst out. rewrite (download_hit _ _ _ f) by done. cbn [fst snd].
  split; [done |]. split.
  - unfold S3Feeder.touch.
    by rewrite !downloads_emit, downloads_set_disk, downloads_emit.
  - cbn. by rewrite <- (assoc_L (++)).
Qed.

(** The jsonl file of 2021-12-30, fetched into an empty cache and asked
    for again. *)
Lemma second_download_is_a_cache_hit_witness :
  let first := S3Feeder.download_measurement_container Scenarios.cache_root
                 Scenarios.jsonl_entry Scenarios.jsonl_world in
  let second := S3Feeder.download_measurement_container Scenarios.cache_root
                  Scenarios.jsonl_entry first.1 in
  S3Feeder.downloads first.1 = 1%nat
  ∧ second.2 = first.2
  ∧ S3Feeder.downloads second.1 = 1%nat.
Proof.
  intros first second.
  destruct (second_download_is_a_cache_hit Scenarios.cache_root
              Scenarios.jsonl_entry Scenarios.jsonl_world first.1
              (S3Feeder.output_path Scenarios.jsonl_entry Scenarios.cache_root))
    as (Hpath & Hcount & _); [vm_compute; reflexivity |].
  split; [vm_compute; reflexivity |]. split.
  - subst second. rewrite Hpath. vm_compute. reflexivity.
  - subst second. rewrite Hcount. vm_compute. reflexivity.
Defined.

(** X14.  When the object is not on S3, the call raises the client's
    error after one download attempt; it leaves the empty temporary
    file behind, and every other path on disk, the cache path with
    it, is as before. *)
Theorem missing_object_leaves_only_the_temporary_file
    (s3cachedir : S3Feeder.Path) (fe : S3Feeder.FileEntry)
    (w : S3Feeder.World) (tmpf : S3Feeder.Path) :
  let diskf := S3Feeder.output_path fe s3cachedir in
  (∀ f, S3Feeder.disk w !! S3Feeder.as_posix diskf = Some f →
        S3Feeder.st_size f ≠ S3Feeder.size fe) →
  S3Feeder.with_suffix diskf ".s3tmp" = Ok tmpf →
  S3Feeder.get_object (S3Feeder.s3 w) (S3Feeder.bucket_name fe)
    (S3Feeder.s3path fe) = None →
  let out := S3Feeder.download_measurement_container s3cachedir fe w in
  out.2 = Raise ClientError
  ∧ S3Feeder.downloads out.1 = S (S3Feeder.downloads w)
  ∧ S3Feeder.disk out.1 !! S3Feeder.as_posix tmpf
    = Some {| S3Feeder.st_size := 0; S3Feeder.st_mtime := S3Feeder.now w;
              S3Feeder.data := S3Feeder.TextLines [] |}
  ∧ (∀ q, q ≠ S3Feeder.as_posix tmpf →
          S3Feeder.disk out.1 !! q = S3Feeder.disk w !! q).
Proof.
  intros diskf Hmiss Htmp Hobj out. subst out.
  unfold S3Feeder.download_measurement_container. fold diskf.
  assert (Hhit : match S3Feeder.disk w !! S3Feeder.as_posix diskf with
                 | Some f => bool_decide (S3Feeder.size fe = S3Feeder.st_size f)
                 | None => false
                 end = false).
  { destruct (S3Feeder.disk w !! S3Feeder.as_posix diskf) as [f |] eqn:Hf;
      [| done].
    apply bool_decide_eq_false_2. intros Hsz. by apply (Hmiss f). }
  rewrite Hhit, Htmp. cbn [S3Feeder.s3 S3Feeder.emit S3Feeder.set_disk].
  rewrite Hobj. cbn [fst snd]. split; [done |]. split.
  - repeat first [rewrite downloads_emit | rewrite downloads_set_disk]. done.
  - cbn. split; [by rewrite lookup_insert_eq |].
    intros q Hq. by rewrite lookup_insert_ne.
Qed.

(** The jsonl entry of 2021-12-30, asked of an empty bucket. *)
Lemma missing_object_leaves_only_the_temporary_file_witness :
  let w := {| S3Feeder.disk := ∅; S3Feeder.s3 := [];
              S3Feeder.now := 1640995200; S3Feeder.trace := [] |} in
  let out := S3Feeder.download_measurement_container Scenarios.cache_root
               Scenarios.jsonl_entry w in
  out.2 = Raise ClientError
  ∧ S3Feeder.disk out.1
    = {[ "/var/cache/oonidata/webconnectivity/IT/2021-12-30/2021123000_IT_webconnectivity.n0.0.jsonl.s3tmp"
         := {| S3Feeder.st_size := 0; S3Feeder.st_mtime := 1640995200;
               S3Feeder.data := S3Feeder.TextLines [] |} ]}.
Proof.
  intros w out.
  edestruct (missing_object_leaves_only_the_temporary_file
               Scenarios.cache_root Scenarios.jsonl_entry w)
    as (Hraise & _ & Htmp & Hframe);
    [intros f Hf; vm_compute in Hf; discriminate Hf
    | vm_compute; reflexivity | vm_compute; reflexivity |].
  split; [exact Hraise |].
  apply map_eq. intros q. fold out in Htmp, Hframe.
  destruct (decide (q =
    "/var/cache/oonidata/webconnectivity/IT/2021-12-30/2021123000_IT_webconnectivity.n0.0.jsonl.s3tmp"))
    as [-> | Hq].
  - rewrite lookup_singleton_eq. exact Htmp.
  - rewrite lookup_singleton_ne by done. rewrite Hframe by exact Hq. done.
Defined.

(** A file of another directory, while the jsonl file of 2021-12-30 is
    fetched. *)
Lemma download_writes_only_its_two_paths_witness :
  let f := {| S3Feeder.st_size := 5; S3Feeder.st_mtime := 0;
              S3Feeder.data := S3Feeder.TextLines ["x"] |} in
  let w := {| S3Feeder.disk := {[ "/var/lib/other" := f ]};
              S3Feeder.s3 := Scenarios.jsonl_bucket;
              S3Feeder.now := 1640995200; S3Feeder.trace := [] |} in
  S3Feeder.disk (S3Feeder.download_measurement_container Scenarios.cache_root
                   Scenarios.jsonl_entry w).1 !! "/var/lib/other"
  = Some f.
Proof.
  intros f w.
  rewrite (download_writes_only_its_two_paths Scenarios.cache_root
             Scenarios.jsonl_entry w "/var/lib/other").
  - reflexivity.
  - vm_compute. discriminate.
  - intros tmpf Htmp. vm_compute in Htmp. injection Htmp as <-.
    vm_compute. discriminate.
Defined.

(** X15.  With [keep_s3_cache] off and the entries in a list, a stream
    that ends without an exception leaves none of its containers in the
    cache and no file that was not on disk before. *)
Theorem stream_without_cache_leaves_no_file `{S3Feeder.Collaborators}
    (s3cachedir : S3Feeder.Path) (fes : list S3Feeder.FileEntry)
    (w : S3Feeder.World) :
  let out := S3Feeder.stream_measurements (PyList fes) s3cachedir false w in
  raised out.2 = None →
  (∀ fe, fe ∈ fes →
     S3Feeder.disk out.1 !! S3Feeder.as_posix (S3Feeder.output_path fe s3cachedir)
     = None)
  ∧ (∀ q, S3Feeder.disk w !! q = None → S3Feeder.disk out.1 !! q = None).
Proof.
  intros out. subst out. unfold S3Feeder.stream_measurements.
  cbn [Py.exhaust yielded raised].
  pose proof (stream_loop_cleans_up s3cachedir
                (S3Feeder.time_time (length (S3Feeder.trace w)))
                (S3Feeder.sum_sizes fes) fes 0 w) as Hloop.
  destruct (S3Feeder.stream_loop s3cachedir false _ _ fes 0 w) as [w' g].
  cbn [fst snd] in *.
  assert (Hsame : (match raised g with
                   | Some _ | _ => (w', g)
                   end) = (w', g)) by by destruct (raised g).
  rewrite Hsame. cbn [fst snd]. intros Hr.
  destruct (Hloop Hr) as [Hnew Hgone]. split; [exact Hgone | exact Hnew].
Qed.

(** The jsonl file of 2021-12-30, streamed without the cache: its
    record is yielded and the disk is empty again. *)
Lemma stream_without_cache_leaves_no_file_witness :
  let out := S3Feeder.stream_measurements (PyList [Scenarios.jsonl_entry])
               Scenarios.cache_root false Scenarios.jsonl_world in
  S3Feeder.msm <$> yielded out.2 = [S3Feeder.JDict []]
  ∧ S3Feeder.downloads out.1 = 1%nat
  ∧ ∀ q, S3Feeder.disk out.1 !! q = None.
Proof.
  intros out.
  destruct (stream_without_cache_leaves_no_file Scenarios.cache_root
              [Scenarios.jsonl_entry] Scenarios.jsonl_world)
    as [_ Hnew]; [vm_compute; reflexivity |].
  split; [vm_compute; reflexivity |]. split; [vm_compute; reflexivity |].
  intros q. apply Hnew. apply lookup_empty.
Defined.

(** X16.  A first container of size 0 ends a stream over a list with
    [ZeroDivisionError], raised by the ETA figure after the container's
    records have been yielded: the entries after it are never looked
    up, and the container stays in the cache whatever [keep_s3_cache]
    says. *)
Theorem empty_first_container_ends_the_stream `{S3Feeder.Collaborators}
    (s3cachedir : S3Feeder.Path) (keep_s3_cache : bool)
    (fe : S3Feeder.FileEntry) (rest : list S3Feeder.FileEntry)
    (w w1 : S3Feeder.World) (mc : S3Feeder.Path) :
  S3Feeder.size fe = 0 →
  S3Feeder.download_measurement_container s3cachedir fe w = (w1, Ok mc) →
  let out := S3Feeder.stream_measurements (PyList (fe :: rest)) s3cachedir
               keep_s3_cache w in
  raised out.2 = Some ZeroDivisionError
  ∧ yielded out.2
    = yielded (S3Feeder.load_multiple (S3Feeder.disk w1) (S3Feeder.as_posix mc))
  ∧ S3Feeder.lookups out.1 = S (S3Feeder.lookups w)
  ∧ S3Feeder.disk out.1 = S3Feeder.disk w1.
Proof.
  intros Hsize Hcall out. subst out. unfold S3Feeder.stream_measurements.
  cbn [Py.exhaust yielded raised S3Feeder.stream_loop].
  pose proof (download_is_one_lookup s3cachedir fe w) as Hone.
  rewrite Hcall in Hone |- *. cbn [fst] in Hone.
  rewrite Hsize. change (0 + 0) with 0. rewrite eta_nothing_processed.
  cbn [fst snd yielded raised].
  split; [done |]. split; [done |].
  destruct (raised (S3Feeder.load_multiple _ _)).
  - split; [| done]. by rewrite lookups_emit.
  - by split.
Qed.

(** An empty jsonl object, followed in the list by the jsonl file of
    2021-12-30. *)
Lemma empty_first_container_ends_the_stream_witness :
  let w := {| S3Feeder.disk := ∅; S3Feeder.s3 := Scenarios.empty_object_bucket;
              S3Feeder.now := 1640995200; S3Feeder.trace := [] |} in
  let out := S3Feeder.stream_measurements
               (PyList [Scenarios.empty_object_entry; Scenarios.jsonl_entry])
               Scenarios.cache_root false w in
  out.2 = Gen [] (Some ZeroDivisionError) ∧ S3Feeder.lookups out.1 = 1%nat.
Proof.
  intros w out.
  destruct (empty_first_container_ends_the_stream Scenarios.cache_root false
              Scenarios.empty_object_entry [Scenarios.jsonl_entry] w
              (S3Feeder.download_measurement_container Scenarios.cache_root
                 Scenarios.empty_object_entry w).1
              (S3Feeder.output_path Scenarios.empty_object_entry
                 Scenarios.cache_root))
    as (_ & _ & Hlook & _);
    [reflexivity | vm_compute; reflexivity |].
  split; [vm_compute; reflexivity | exact Hlook].
Defined.

(** X17.  [stream_cans] hands [stream_measurements] the chained
    listings of each day, a single-pass iterator that the size total
    uses up: whatever the bucket holds, [stream_cans] yields no
    measurement and leaves the world as it was (no download, no file). *)
Theorem stream_cans_yields_nothing `{S3Feeder.Collaborators}
    (today : date) (conf : S3Feeder.Conf) (start_day : option date)
    (end_day : date) (w : S3Feeder.World) :
  (S3Feeder.stream_cans today conf start_day end_day w).1 = w
  ∧ yielded (S3Feeder.stream_cans today conf start_day end_day w).2 = [].
Proof.
  unfold S3Feeder.stream_cans.
  destruct (stream_cans_loop_spent conf
              (yielded (S3Feeder.date_interval today start_day end_day)) w)
    as [r ->].
  cbn [raised yielded].
  by destruct r, (raised (S3Feeder.date_interval today start_day end_day)).
Qed.

Section WarmCache.
Import Py S3Feeder.
Context `{Collaborators}.





End WarmCache.





(** A generator holding the jsonl entry of 2021-12-30. *)
Lemma stream_measurements_generator_witness :
  S3Feeder.stream_measurements (H := Scenarios.table_collaborators)
    (PyGenerator (Gen [Scenarios.jsonl_entry] None))
    Scenarios.cache_root true Scenarios.jsonl_world
  = (Scenarios.jsonl_world, Gen [] None).
Proof.
  apply (stream_measurements_generator (H := Scenarios.table_collaborators)
           (Gen [Scenarios.jsonl_entry] None) Scenarios.cache_root true
           Scenarios.jsonl_world).
  reflexivity.
Defined.

(** A minican with a json envelope, a stray file and a yaml envelope:
    the json envelope is yielded under the uid of its file name. *)
Lemma load_multiple_minican_witness :
  let members :=
    [Scenarios.post
       "var/lib/ooniapi/20231031150001.000002_VE_whatsapp_bbbbbbbbbbbbbbbb.post"
       (Scenarios.envelope_text "json");
     {| S3Feeder.name := "var/lib/ooniapi/README";
        S3Feeder.payload := Some ["text"] |};
     Scenarios.post
       "var/lib/ooniapi/20231031150002.000003_VE_whatsapp_cccccccccccccccc.post"
       (Scenarios.envelope_text "yaml")] in
  let f := {| S3Feeder.st_size := 52964; S3Feeder.st_mtime := 0;
              S3Feeder.data := S3Feeder.TarArchive members |} in
  S3Feeder.load_multiple (H := Scenarios.table_collaborators)
    {[ Scenarios.minican_path := f ]} Scenarios.minican_path
  = Gen [{| S3Feeder.msmt_bytes := None; S3Feeder.msm := S3Feeder.JDict [];
            S3Feeder.msmt_uid :=
              "20231031150001.000002_VE_whatsapp_bbbbbbbbbbbbbbbb" |}]
        None.
Proof.
  intros members f.
  apply (load_multiple_minican (H := Scenarios.table_collaborators)
           {[ Scenarios.minican_path := f ]} Scenarios.minican_path f members
           [[{| S3Feeder.msmt_bytes := None; S3Feeder.msm := S3Feeder.JDict [];
                S3Feeder.msmt_uid :=
                  "20231031150001.000002_VE_whatsapp_bbbbbbbbbbbbbbbb" |}];
            []; []]);
    [reflexivity | reflexivity | reflexivity | reflexivity | reflexivity
    | apply lookup_singleton_eq | reflexivity |].
  constructor; [| constructor; [| constructor; [| constructor]]].
  - apply (S3Feeder.yields_json _
             [Scenarios.envelope_text "json"]
             [("format", S3Feeder.JStr "json"); ("content", S3Feeder.JDict [])]
             "var/lib/ooniapi"
             "20231031150001.000002_VE_whatsapp_bbbbbbbbbbbbbbbb");
      reflexivity.
  - by apply (S3Feeder.yields_not_post _ ["text"]).
  - apply (S3Feeder.yields_other_format _
             [Scenarios.envelope_text "yaml"]
             [("format", S3Feeder.JStr "yaml"); ("content", S3Feeder.JDict [])]);
      reflexivity.
Defined.

(* ===================================================================== *)
(** * More on the processor and the day loop *)
(* ===================================================================== *)

Section ProcessorDetails.
Import Py Processing.

(** A dict built by a comprehension holds, for a key, the value of the
    last item with that key. *)
Lemma dict_of_lookup_last {A} `{Countable K} {V} (key : A → K) (val : A → V)
    (items : list A) (k : K) :
  dict_of ((λ x, (key x, val x)) <$> items) !! k
  = val <$> last (filter (λ x, key x = k) items).
Proof.
  induction items as [| x items IH] using rev_ind; [done |].
  rewrite fmap_app. cbn [fmap list_fmap]. rewrite dict_of_snoc, filter_app.
  destruct (decide (key x = k)) as [Hk | Hk].
  - rewrite Hk, lookup_insert_eq, filter_cons_True, filter_nil by done.
    by rewrite last_snoc.
  - rewrite lookup_insert_ne, filter_cons_False, filter_nil, app_nil_r by done.
    exact IH.
Qed.

Context `{Extractors} {Raw : Type}.
Variable load_measurement : Raw → result BaseMeasurement.
Variable json_loads_ok : Raw → bool.

(** The counter of [enumerate] matters only through the records it
    makes the loop pass over. *)
Lemma process_loop_drop (start_at_idx idx : Z) (raws : list Raw)
    (db : list Row) :
  process_loop load_measurement json_loads_ok start_at_idx idx raws db
  = process_loop load_measurement json_loads_ok 0 0
      (drop (Z.to_nat (start_at_idx - idx)) raws) db.
Proof.
  revert start_at_idx idx db.
  induction raws as [| raw_msmt raws IH]; intros start_at_idx idx db.
  - by rewrite drop_nil.
  - rewrite process_loop_cons.
    destruct (decide (idx < start_at_idx)) as [Hlt | Hge].
    + rewrite IH.
      replace (Z.to_nat (start_at_idx - idx))
        with (S (Z.to_nat (start_at_idx - (idx + 1)))) by lia.
      done.
    + replace (Z.to_nat (start_at_idx - idx)) with 0%nat by lia.
      rewrite drop_0, process_loop_cons.
      destruct (decide (0 < 0)) as [? | _]; [lia |].
      destruct (process_record load_measurement raw_msmt db)
        as [db' [[] | exc]]; [| done].
      rewrite IH, (IH 0 (0 + 1)).
      replace (Z.to_nat (start_at_idx - (idx + 1))) with 0%nat by lia.
      by replace (Z.to_nat (0 - (0 + 1))) with 0%nat by lia.
Qed.

(** Records of other tests go through the loop without a row. *)
Lemma process_loop_ignored (start_at_idx idx : Z) (raws : list Raw)
    (db : list Row) :
  (∀ raw_msmt, raw_msmt ∈ raws →
     ∃ msmt, load_measurement raw_msmt = Ok msmt
             ∧ test_name msmt ≠ "web_connectivity") →
  process_loop load_measurement json_loads_ok start_at_idx idx raws db
  = (db, Ok tt).
Proof.
  revert idx. induction raws as [| raw_msmt raws IH]; intros idx Hraws;
    [done |].
  rewrite process_loop_cons.
  assert (Hrest : process_loop load_measurement json_loads_ok start_at_idx
                    (idx + 1) raws db = (db, Ok tt)).
  { apply IH. intros r Hr. apply Hraws. set_solver. }
  destruct (decide (idx < start_at_idx)); [done |].
  destruct (Hraws raw_msmt) as (msmt & Hload & Hname); [set_solver |].
  unfold process_record. rewrite Hload. unfold nettest_processors.
  apply String.eqb_neq in Hname. rewrite Hname. cbn. exact Hrest.
Qed.

End ProcessorDetails.

(** X20.  The [is_tls_consistent] of a DNS row is the certificate
    validity of the last TLS observation whose [domain] equals the DNS
    observation's [answer], and [None] when no TLS observation has that
    domain; the row is otherwise the extractor's DNS observation. *)
Theorem dns_row_validity_is_looked_up_by_answer `{Processing.Extractors}
    (msmt : Processing.BaseMeasurement) (db : list Processing.Row)
    (http : list Processing.HTTPObservation)
    (dns : list Processing.DNSObservation)
    (tcp : list Processing.TCPObservation)
    (tls : list Processing.TLSObservation)
    (o : Processing.DNSObservation) :
  Processing.make_http_observations msmt
    (Processing.requests (Processing.test_keys msmt)) = Ok http →
  Processing.make_dns_observations msmt
    (Processing.queries (Processing.test_keys msmt)) = Ok dns →
  Processing.make_tcp_observations msmt
    (Processing.tcp_connect (Processing.test_keys msmt))
    (Processing.ip_to_domain_of dns) = Ok tcp →
  Processing.make_tls_observations msmt
    (Processing.tls_handshakes (Processing.test_keys msmt))
    (Processing.network_events (Processing.test_keys msmt))
    (Processing.ip_to_domain_of dns) = Ok tls →
  o ∈ dns →
  let same_name :=
    filter (λ t, Processing.domain t = Processing.answer o) tls in
  let validity :=
    from_option Processing.is_certificate_valid None (last same_name) in
  Processing.DNSRow (Processing.set_is_tls_consistent validity o)
  ∈ (Processing.web_connectivity_processor msmt db).1.
Proof.
  intros Hhttp Hdns Htcp Htls Ho same_name validity.
  rewrite (web_connectivity_processor_rows msmt db http dns tcp tls)
    by done.
  cbn [fst]. rewrite !elem_of_app. do 4 right.
  apply list_elem_of_fmap. eexists. split; [reflexivity |].
  unfold Processing.enrich. apply list_elem_of_fmap. exists o.
  split; [| done]. f_equal.
  unfold Processing.tls_valid_domain_to_ip_of.
  rewrite (dict_of_lookup_last Processing.domain
             Processing.is_certificate_valid).
  subst validity same_name. by destruct (last _).
Qed.

(** The measurement of example.org: the only TLS observation is for the
    domain example.org, the DNS answer is the address, and the DNS row
    carries no validity. *)
Lemma dns_row_validity_is_looked_up_by_answer_witness :
  Processing.DNSRow Scenarios.web_dns_obs
  ∈ (Processing.web_connectivity_processor (H := Processing.spec_extractors)
       Scenarios.web_msmt []).1.
Proof.
  apply (dns_row_validity_is_looked_up_by_answer
           (H := Processing.spec_extractors) Scenarios.web_msmt []
           [Scenarios.web_http_obs] [Scenarios.web_dns_obs]
           [Scenarios.web_tcp_obs] [Scenarios.web_tls_obs]
           Scenarios.web_dns_obs);
    [vm_compute; reflexivity | vm_compute; reflexivity
     | vm_compute; reflexivity | vm_compute; reflexivity
     | apply list_elem_of_here].
Defined.

(** X21.  [process_day(db, day, start_at_idx)] passes over the first
    [start_at_idx] records without loading them: its result is that of
    a run from index 0 on the records that follow. *)
Theorem process_day_resumes_at_start_at_idx `{Processing.Extractors}
    {Raw : Type} (load_measurement : Raw → result Processing.BaseMeasurement)
    (json_loads_ok : Raw → bool) (raw_measurements : gen Raw)
    (db : list Processing.Row) (start_at_idx : Z) :
  Processing.process_day load_measurement json_loads_ok raw_measurements
    db start_at_idx
  = Processing.process_day load_measurement json_loads_ok
      (Gen (drop (Z.to_nat start_at_idx) (yielded raw_measurements))
           (raised raw_measurements))
      db 0.
Proof.
  unfold Processing.process_day. cbn [yielded raised].
  rewrite (process_loop_drop _ _ start_at_idx 0). by rewrite Z.sub_0_r.
Qed.

(** X22.  A day whose records all load and are of other tests than
    web_connectivity writes no row; the day ends as the record
    iterator ended. *)
Theorem other_tests_write_no_row `{Processing.Extractors} {Raw : Type}
    (load_measurement : Raw → result Processing.BaseMeasurement)
    (json_loads_ok : Raw → bool) (raw_measurements : gen Raw)
    (db : list Processing.Row) (start_at_idx : Z) :
  (∀ raw_msmt, raw_msmt ∈ yielded raw_measurements →
     ∃ msmt, load_measurement raw_msmt = Ok msmt
             ∧ Processing.test_name msmt ≠ "web_connectivity") →
  Processing.process_day load_measurement json_loads_ok raw_measurements
    db start_at_idx
  = (db, match raised raw_measurements with
         | Some e => Raise e
         | None => Ok tt
         end).
Proof.
  intros Hraws. unfold Processing.process_day.
  rewrite process_loop_ignored by done.
  by destruct (raised raw_measurements).
Qed.

(** Two records of the ndt test: the table stays empty. *)
Lemma other_tests_write_no_row_witness :
  Processing.process_day (H := Processing.spec_extractors)
    (λ raw_msmt : string,
       Ok {| Processing.test_name := raw_msmt;
             Processing.test_keys := Processing.test_keys Scenarios.web_msmt |})
    (λ _, true) (Gen ["ndt"; "ndt"] None) [] 0
  = ([], Ok tt).
Proof.
  apply (other_tests_write_no_row (H := Processing.spec_extractors)
           (λ raw_msmt : string,
              Ok {| Processing.test_name := raw_msmt;
                    Processing.test_keys :=
                      Processing.test_keys Scenarios.web_msmt |})
           (λ _, true) (Gen ["ndt"; "ndt"] None) [] 0).
  intros raw_msmt Hraw. eexists. split; [reflexivity |].
  cbn in Hraw |- *.
  repeat (apply elem_of_cons in Hraw as [-> | Hraw]; [done |]).
  by apply elem_of_nil in Hraw.
Defined.

(** X23.  The rows of a measurement are not written as a whole: when the
    TLS extractor raises, the HTTP and TCP rows of the measurement are
    already in the table, none of its DNS rows is written, and the
    exception ends the day. *)
Theorem tls_failure_leaves_http_and_tcp_rows `{Processing.Extractors}
    {Raw : Type} (load_measurement : Raw → result Processing.BaseMeasurement)
    (json_loads_ok : Raw → bool) (start_at_idx : Z) (pre post : list Raw)
    (raw_msmt : Raw) (ending : option exn) (db db1 : list Processing.Row)
    (msmt : Processing.BaseMeasurement)
    (http : list Processing.HTTPObservation)
    (dns : list Processing.DNSObservation)
    (tcp : list Processing.TCPObservation) (exc : exn) :
  Processing.process_loop load_measurement json_loads_ok start_at_idx 0 pre db
  = (db1, Ok tt) →
  start_at_idx ≤ Z.of_nat (length pre) →
  load_measurement raw_msmt = Ok msmt →
  Processing.test_name msmt = "web_connectivity" →
  Processing.make_http_observations msmt
    (Processing.requests (Processing.test_keys msmt)) = Ok http →
  Processing.make_dns_observations msmt
    (Processing.queries (Processing.test_keys msmt)) = Ok dns →
  Processing.make_tcp_observations msmt
    (Processing.tcp_connect (Processing.test_keys msmt))
    (Processing.ip_to_domain_of dns) = Ok tcp →
  Processing.make_tls_observations msmt
    (Processing.tls_handshakes (Processing.test_keys msmt))
    (Processing.network_events (Processing.test_keys msmt))
    (Processing.ip_to_domain_of dns) = Raise exc →
  Processing.process_day load_measurement json_loads_ok
    (Gen (pre ++ raw_msmt :: post) ending) db start_at_idx
  = (db1 ++ (Processing.HTTPRow <$> http) ++ (Processing.TCPRow <$> tcp),
     Raise (Processing.reraise json_loads_ok raw_msmt exc)).
Proof.
  intros Hpre Hstart Hload Hname Hhttp Hdns Htcp Htls.
  apply (process_day_reraises _ _ _ _ _ _ _ _ db1 _ _ Hpre Hstart).
  unfold Processing.process_record. rewrite Hload, Hname. cbn.
  unfold Processing.web_connectivity_processor.
  rewrite Hhttp, Hdns, Htcp, Htls, !write_observations_to_db_app.
  by rewrite <- (assoc_L (++)).
Qed.

(** The measurement of example.org with a TLS extractor that raises:
    one HTTP row and one TCP row are left in the table. *)
Lemma tls_failure_leaves_http_and_tcp_rows_witness :
  Processing.process_day
    (H := {| Processing.make_http_observations :=
               Processing.spec_make_http_observations;
             Processing.make_dns_observations :=
               Processing.spec_make_dns_observations;
             Processing.make_tcp_observations :=
               Processing.spec_make_tcp_observations;
             Processing.make_tls_observations := λ _ _ _ _, Raise AttributeError |})
    Scenarios.load_by_name (λ _, true) (Gen ["good"; "good"] None) [] 0
  = ([Processing.HTTPRow Scenarios.web_http_obs;
      Processing.TCPRow Scenarios.web_tcp_obs], Raise AttributeError).
Proof.
  apply (tls_failure_leaves_http_and_tcp_rows
           (H := {| Processing.make_http_observations :=
                      Processing.spec_make_http_observations;
                    Processing.make_dns_observations :=
                      Processing.spec_make_dns_observations;
                    Processing.make_tcp_observations :=
                      Processing.spec_make_tcp_observations;
                    Processing.make_tls_observations :=
                      λ _ _ _ _, Raise AttributeError |})
           Scenarios.load_by_name (λ _, true) 0 [] ["good"] "good" None
           [] [] Scenarios.web_msmt [Scenarios.web_http_obs]
           [Scenarios.web_dns_obs] [Scenarios.web_tcp_obs] AttributeError);
    [reflexivity | cbn; lia | reflexivity | reflexivity
     | vm_compute; reflexivity | vm_compute; reflexivity
     | vm_compute; reflexivity | reflexivity].
Defined.

(* ===================================================================== *)
(** * The CSV connection *)
(* ===================================================================== *)

Section CSV.
Import Py Processing.

(** The cells of a row under a header. *)
Lemma dict_to_list_Ok (wr : DictWriter) (row : list (string * string))
    (cells : list string) :
  dict_to_list wr row = Ok cells →
  cells = (λ key, row_get row key "") <$> fieldnames wr.
Proof. unfold dict_to_list. case_match; [| done]. by intros [= <-]. Qed.

(** One [write_row] that returns: the writer of another table is as
    before; the writer of the row's table has one more record, after
    the header if the call opened it. *)
Lemma csv_write_row_Ok (self self' : CSVConnection) (table_name : string)
    (row : list (string * string)) (t : string) :
  csv_write_row self table_name row = (self', Ok tt) →
  output_dir self' = output_dir self
  ∧ open_writers self' !! t
    = if decide (t = table_name) then
        match open_writers self !! t with
        | Some wr =>
            Some {| out_path := out_path wr; fieldnames := fieldnames wr;
                    records := records wr
                               ++ [(λ key, row_get row key "") <$> fieldnames wr] |}
        | None =>
            Some {| out_path :=
                      S3Feeder.as_posix
                        (S3Feeder.path_div (output_dir self) (t +:+ ".csv"));
                    fieldnames := row.*1;
                    records := [row.*1; (λ key, row_get row key "") <$> row.*1] |}
        end
      else open_writers self !! t.
Proof.
  unfold csv_write_row.
  destruct (open_writers self !! table_name) as [wr |] eqn:Hwr.
  - destruct (dict_to_list wr row) as [cells | e] eqn:Hcells; [| done].
    apply dict_to_list_Ok in Hcells as ->. intros [= <-]. cbn.
    split; [done |]. destruct (decide (t = table_name)) as [-> | Ht].
    + by rewrite lookup_insert_eq, Hwr.
    + by rewrite lookup_insert_ne.
  - destruct (dict_to_list _ row) as [cells | e] eqn:Hcells; [| done].
    apply dict_to_list_Ok in Hcells as ->. intros [= <-]. cbn.
    split; [done |]. destruct (decide (t = table_name)) as [-> | Ht].
    + by rewrite lookup_insert_eq, Hwr.
    + by rewrite !lookup_insert_ne.
Qed.

(** What a run of calls that returns has written through the writer
    of a table, given the writer before the run. *)
Lemma csv_write_rows_writer (self self' : CSVConnection)
    (calls : list (string * list (string * string))) (t : string) :
  csv_write_rows self calls = (self', Ok tt) →
  let rows := (filter (λ c, c.1 = t) calls).*2 in
  open_writers self' !! t
  = match open_writers self !! t, rows with
    | Some wr, _ =>
        Some {| out_path := out_path wr; fieldnames := fieldnames wr;
                records := records wr
                           ++ ((λ row, (λ key, row_get row key "")
                                       <$> fieldnames wr) <$> rows) |}
    | None, [] => None
    | None, row0 :: _ =>
        Some {| out_path :=
                  S3Feeder.as_posix
                    (S3Feeder.path_div (output_dir self) (t +:+ ".csv"));
                fieldnames := row0.*1;
                records := row0.*1
                           :: ((λ row, (λ key, row_get row key "") <$> row0.*1)
                               <$> rows) |}
    end.
Proof.
  revert self. induction calls as [| [table_name row] calls IH]; intros self.
  - intros [= <-]. cbn. destruct (open_writers self !! t) as [[] |]; [| done].
    by rewrite app_nil_r.
  - cbn [csv_write_rows].
    destruct (csv_write_row self table_name row) as [self1 [[] | e]] eqn:Hrow;
      [| done].
    intros Hrest. specialize (IH self1 Hrest). cbv zeta in IH |- *.
    destruct (csv_write_row_Ok _ _ _ _ t Hrow) as [Hdir Hone].
    rewrite IH, Hone, Hdir. clear IH Hone Hrest Hrow.
    destruct (decide (t = table_name)) as [-> | Ht].
    + rewrite filter_cons_True by done. cbn [fmap list_fmap snd].
      destruct (open_writers self !! table_name) as [wr |]; cbn.
      * by rewrite <- (assoc_L (++)).
      * done.
    + rewrite filter_cons_False by (cbn; congruence). done.
Qed.

Lemma csv_write_rows_app (self self1 : CSVConnection)
    (pre post : list (string * list (string * string))) :
  csv_write_rows self pre = (self1, Ok tt) →
  csv_write_rows self (pre ++ post) = csv_write_rows self1 post.
Proof.
  revert self. induction pre as [| [table_name row] pre IH]; intros self.
  - by intros [= <-].
  - cbn [app csv_write_rows].
    destruct (csv_write_row self table_name row) as [self2 [[] | e]]; [| done].
    apply IH.
Qed.

End CSV.

(** X24.  After a run of [write_row] calls on a fresh CSV connection
    that returns, the writer of a table holds the column names of the
    first row written to that table as its header, followed by one
    record for every row written to the table, in the order of the
    calls, each laid out under that header (a column the row lacks is
    left empty); rows of other tables in between do not show.  A table
    that was written no row has no writer. *)
Theorem csv_writer_holds_its_header_and_rows
    (output_dir : S3Feeder.Path)
    (calls : list (string * list (string * string)))
    (conn : Processing.CSVConnection) (t : string) :
  Processing.csv_write_rows (Processing.CSVConnection_init output_dir) calls
  = (conn, Ok tt) →
  let rows := (filter (λ c, c.1 = t) calls).*2 in
  match rows with
  | [] => Processing.open_writers conn !! t = None
  | row0 :: _ =>
      ∃ wr, Processing.open_writers conn !! t = Some wr
        ∧ Processing.fieldnames wr = row0.*1
        ∧ Processing.records wr
          = row0.*1
            :: ((λ row, (λ key, Processing.row_get row key "") <$> row0.*1)
                <$> rows)
  end.
Proof.
  intros Hrun rows.
  pose proof (csv_write_rows_writer _ _ _ t Hrun) as Hwr.
  cbv zeta in Hwr. fold rows in Hwr. cbn in Hwr.
  rewrite lookup_empty in Hwr. destruct rows as [| row0 rows']; [done |].
  eexists. split; [exact Hwr |]. done.
Qed.

(** Two DNS rows with a TCP row between them. *)
Lemma csv_writer_holds_its_header_and_rows_witness :
  let calls :=
    [("obs_dns", [("domain_name", "example.org"); ("answer", "93.184.216.34")]);
     ("obs_tcp", [("ip", "93.184.216.34"); ("port", "443")]);
     ("obs_dns", [("domain_name", "example.com")])] in
  ∃ conn wr,
    Processing.csv_write_rows
      (Processing.CSVConnection_init Scenarios.cache_root) calls
    = (conn, Ok tt)
    ∧ Processing.open_writers conn !! "obs_dns" = Some wr
    ∧ Processing.records wr
      = [["domain_name"; "answer"]; ["example.org"; "93.184.216.34"];
         ["example.com"; ""]].
Proof.
  intros calls.
  destruct (Processing.csv_write_rows
              (Processing.CSVConnection_init Scenarios.cache_root) calls)
    as [conn r] eqn:Hrun.
  assert (Hr : r = Ok tt).
  { apply (f_equal snd) in Hrun. vm_compute in Hrun. congruence. }
  subst r.
  destruct (csv_writer_holds_its_header_and_rows Scenarios.cache_root calls
              conn "obs_dns" Hrun) as (wr & Hwr & _ & Hrecords).
  exists conn, wr. split; [done |]. split; [exact Hwr |].
  rewrite Hrecords. vm_compute. reflexivity.
Defined.

(** X25.  A row with a column that the header of its table does not
    have is not written: [write_row] raises [ValueError], the rows
    before it stay written and the rows after it are never reached. *)
Theorem csv_row_with_an_unknown_column_raises
    (output_dir : S3Feeder.Path)
    (pre post : list (string * list (string * string)))
    (conn : Processing.CSVConnection) (t : string)
    (row : list (string * string)) (wr : Processing.DictWriter)
    (column : string) :
  Processing.csv_write_rows (Processing.CSVConnection_init output_dir) pre
  = (conn, Ok tt) →
  Processing.open_writers conn !! t = Some wr →
  column ∈ row.*1 →
  column ∉ Processing.fieldnames wr →
  Processing.csv_write_rows (Processing.CSVConnection_init output_dir)
    (pre ++ (t, row) :: post)
  = (conn, Raise ValueError).
Proof.
  intros Hpre Hwr Hin Hout.
  rewrite (csv_write_rows_app _ _ _ _ Hpre). cbn [Processing.csv_write_rows].
  unfold Processing.csv_write_row. rewrite Hwr.
  unfold Processing.dict_to_list.
  destruct (forallb _ _) eqn:Hall; [| done].
  rewrite forallb_forall in Hall.
  specialize (Hall column). rewrite <- list_elem_of_In in Hall.
  apply Hall, bool_decide_eq_true in Hin. done.
Qed.

(** A DNS row, then a DNS row with a column of its own. *)
Lemma csv_row_with_an_unknown_column_raises_witness :
  ∃ conn,
    Processing.csv_write_rows
      (Processing.CSVConnection_init Scenarios.cache_root)
      [("obs_dns", [("domain_name", "example.org")]);
       ("obs_dns", [("domain_name", "example.com"); ("answer", "1.2.3.4")]);
       ("obs_dns", [("domain_name", "example.net")])]
    = (conn, Raise ValueError)
    ∧ Processing.records <$> Processing.open_writers conn !! "obs_dns"
      = Some [["domain_name"]; ["example.org"]].
Proof.
  pose (first_call := ("obs_dns", [("domain_name", "example.org")])).
  pose (conn := (Processing.csv_write_rows
                   (Processing.CSVConnection_init Scenarios.cache_root)
                   [first_call]).1).
  exists conn. split.
  - apply (csv_row_with_an_unknown_column_raises Scenarios.cache_root
             [first_call] [("obs_dns", [("domain_name", "example.net")])]
             conn "obs_dns"
             [("domain_name", "example.com"); ("answer", "1.2.3.4")]
             {| Processing.out_path := "/var/cache/oonidata/obs_dns.csv";
                Processing.fieldnames := ["domain_name"];
                Processing.records := [["domain_name"]; ["example.org"]] |}
             "answer");
      [vm_compute; reflexivity | vm_compute; reflexivity
      | set_solver | set_solver].
  - vm_compute. reflexivity.
Defined.
